(** * ftp_backup.py: backup path resolution, archive layout and backup store

    A shallow embedding of [src/ftp_backup.py] (class [FtpBackupManager],
    [FtpBackupCreateZipCommand.create_zip_archive], [FtpBackupSaveCommand]
    and the workers of the two other backup commands) together with the
    Python library functions it calls.

    Conventions of the model.
    - A Python [str] is a [string]; one [ascii] stands for one code point in
      the range U+0000..U+00FF, so [String.length] is Python's [len] and the
      character classes of [re] ([\w], [str.lower]) are the Unicode ones
      restricted to that range.
    - [os.path] is [posixpath] ([os.sep = "/"]).
    - The file system is a finite map from path strings to nodes; two
      spellings of a path are two keys.
    - Statements that may raise run in the monad [M]: a raised exception
      keeps the side effects made before it, as in Python.
    - Logger calls and editor status messages do not touch the modelled
      state and are left out.
    - The module-level function [create_backup_zip] (lines 255-339), a copy
      of [create_zip_archive] that nothing calls, is not modelled; the [def]
      nested at its end, [_save_config], is.
    - The menus of [FtpBackupCreateZipCommand] (lines 536-668) build and
      parse labels in Cyrillic, outside the code points of the model, and
      are left out, as are the commands and the listener that only show a
      status message (lines 351-364 and 419-441). *)

From Stdlib Require Import Ascii NArith.
From stdpp Require Import gmap strings list fin_maps.

Local Open Scope N_scope.

(** ** Characters *)

Definition ord (c : ascii) : N := N_of_ascii c.

Definition between (lo hi : N) (c : ascii) : bool :=
  (lo <=? ord c) && (ord c <=? hi).

(** The ASCII class [[A-Za-z0-9]]. *)
Definition ascii_alnum (c : ascii) : bool :=
  between 48 57 c || between 65 90 c || between 97 122 c.

(** [str.isalnum] on one code point below U+0100 (Unicode database:
    categories L*, Nd, and the characters with a digit or numeric value). *)
Definition isalnum (c : ascii) : bool :=
  ascii_alnum c
  || bool_decide (ord c ∈ [170; 178; 179; 181; 185; 186; 188; 189; 190])
  || between 192 214 c || between 216 246 c || between 248 255 c.

(** [\w] of a [str] pattern: alphanumeric or underscore. *)
Definition is_word (c : ascii) : bool :=
  isalnum c || bool_decide (c = "_"%char).

(** [str.lower] on one code point below U+0100. *)
Definition lower_chr (c : ascii) : ascii :=
  if between 65 90 c || between 192 214 c || between 216 222 c
  then ascii_of_N (ord c + 32) else c.

Local Close Scope N_scope.

(** ** Strings: the [str] methods used by the program *)

Fixpoint str_map (f : ascii → ascii) (s : string) : string :=
  match s with
  | EmptyString => EmptyString
  | String c t => String (f c) (str_map f t)
  end.

Fixpoint str_forall (p : ascii → bool) (s : string) : bool :=
  match s with
  | EmptyString => true
  | String c t => p c && str_forall p t
  end.

(** [s.replace(old, new)] for one-character [old] and [new]. *)
Definition replace_chr (old new : ascii) (s : string) : string :=
  str_map (λ c, if decide (c = old) then new else c) s.

Definition lower (s : string) : string := str_map lower_chr s.

(** [s.startswith(p)] *)
Fixpoint startswith (p s : string) : bool :=
  match p, s with
  | EmptyString, _ => true
  | String a p', String b s' => bool_decide (a = b) && startswith p' s'
  | String _ _, EmptyString => false
  end.

(** [s[n:]] *)
Fixpoint str_drop (n : nat) (s : string) : string :=
  match n, s with
  | O, _ => s
  | S n', String _ t => str_drop n' t
  | S _, EmptyString => EmptyString
  end.

(** [s[:n]] *)
Fixpoint str_take (n : nat) (s : string) : string :=
  match n, s with
  | O, _ => EmptyString
  | S n', String c t => String c (str_take n' t)
  | S _, EmptyString => EmptyString
  end.

(** [s.endswith(p)] *)
Definition endswith (p s : string) : bool :=
  (String.length p <=? String.length s)%nat
  && bool_decide (str_drop (String.length s - String.length p) s = p).

(** [sub in s] *)
Fixpoint str_in (sub s : string) : bool :=
  startswith sub s ||
  match s with
  | EmptyString => false
  | String _ t => str_in sub t
  end.

(** [s.split(sep, 1)] for a non-empty [sep]. *)
Fixpoint str_split1 (sep s : string) : list string :=
  if startswith sep s then [EmptyString; str_drop (String.length sep) s]
  else match s with
       | EmptyString => [EmptyString]
       | String c t =>
           match str_split1 sep t with
           | h :: r => String c h :: r
           | [] => [String c EmptyString]
           end
       end.

(** [s.split(sep)] for a one-character [sep]. *)
Fixpoint split_chr (sep : ascii) (s : string) : list string :=
  match s with
  | EmptyString => [EmptyString]
  | String c t =>
      if decide (c = sep) then EmptyString :: split_chr sep t
      else match split_chr sep t with
           | h :: r => String c h :: r
           | [] => [String c EmptyString]
           end
  end.

(** [sep.join(parts)] *)
Fixpoint str_join (sep : string) (parts : list string) : string :=
  match parts with
  | [] => EmptyString
  | [p] => p
  | p :: rest => p +:+ sep +:+ str_join sep rest
  end.

(** [s.rstrip(c)] for one character. *)
Fixpoint rstrip_chr (c : ascii) (s : string) : string :=
  match s with
  | EmptyString => EmptyString
  | String a t =>
      match rstrip_chr c t with
      | EmptyString => if decide (a = c) then EmptyString else String a EmptyString
      | t' => String a t'
      end
  end.

(** ** Regular expressions: the fragment of [re] the program uses

    A backtracking matcher in continuation style, with one capture group.
    Alternatives are tried left to right and [+] is greedy, as in [re]. *)

Inductive regex : Type :=
| REps
| RChr (c : ascii)
| RSet (p : ascii → bool)
| RSeq (r1 r2 : regex)
| RAlt (r1 r2 : regex)
| RPlus (r : regex)
| RGrp (r : regex).

Fixpoint rmatch {A : Type} (r : regex) (s : string) (g : option string)
    (k : string → option string → option A) : option A :=
  match r with
  | REps => k s g
  | RChr c =>
      match s with
      | String c' t => if decide (c = c') then k t g else None
      | EmptyString => None
      end
  | RSet p =>
      match s with
      | String c' t => if p c' then k t g else None
      | EmptyString => None
      end
  | RSeq r1 r2 => rmatch r1 s g (λ s' g', rmatch r2 s' g' k)
  | RAlt r1 r2 =>
      match rmatch r1 s g k with
      | Some x => Some x
      | None => rmatch r2 s g k
      end
  | RPlus r1 =>
      (fix iter (n : nat) (s : string) (g : option string) : option A :=
         rmatch r1 s g (λ s' g',
           match n with
           | S n' =>
               match iter n' s' g' with
               | Some x => Some x
               | None => k s' g'
               end
           | O => k s' g'
           end)) (String.length s) s g
  | RGrp r1 =>
      rmatch r1 s g (λ s' _,
        k s' (Some (str_take (String.length s - String.length s') s)))
  end.

(** A literal string as a pattern. *)
Fixpoint rlit (s : string) : regex :=
  match s with
  | EmptyString => REps
  | String c t => RSeq (RChr c) (rlit t)
  end.

(** [(?:a|b|...)] *)
Fixpoint ralts (l : list string) : regex :=
  match l with
  | [] => RSet (λ _, false)
  | [a] => rlit a
  | a :: rest => RAlt (rlit a) (ralts rest)
  end.

(** [[^c]] *)
Definition rnot (c : ascii) : regex := RSet (λ x, negb (bool_decide (x = c))).

(** [.] (no DOTALL flag): any character but a newline. *)
Definition rdot : regex := rnot "010"%char.

(** [re.match(r, s)]: [None] when there is no match at the start of [s],
    otherwise the text of group 1 (if the group took part). *)
Definition re_match (r : regex) (s : string) : option (option string) :=
  rmatch r s None (λ _ g, Some g).

(** [re.search(r, s)]: the leftmost match. *)
Fixpoint re_search (r : regex) (s : string) : option (option string) :=
  match re_match r s with
  | Some g => Some g
  | None =>
      match s with
      | String _ t => re_search r t
      | EmptyString => None
      end
  end.

(** [re.sub(cls, rep, s)] where the pattern is one character class [cls] and
    the replacement is one character: every character of the class is a
    match of length one. *)
Definition re_sub_class (cls : ascii → bool) (rep : ascii) (s : string) : string :=
  str_map (λ c, if cls c then rep else c) s.

(** ** [os.path] (posixpath) *)

Definition sep : ascii := "/"%char.

(** [(p[:i], p[i:])] with [i = p.rfind('/') + 1]. *)
Fixpoint rsplit_sep (p : string) : string * string :=
  match p with
  | EmptyString => (EmptyString, EmptyString)
  | String c t =>
      match rsplit_sep t with
      | (EmptyString, _) =>
          if decide (c = sep) then (String c EmptyString, t)
          else (EmptyString, String c t)
      | (h, tl) => (String c h, tl)
      end
  end.

Definition basename (p : string) : string := snd (rsplit_sep p).

Definition dirname (p : string) : string :=
  let head := fst (rsplit_sep p) in
  if str_forall (λ c, bool_decide (c = sep)) head then head
  else rstrip_chr sep head.

(** One step of [os.path.join]'s loop. *)
Definition join2 (path b : string) : string :=
  if startswith "/" b then b
  else if bool_decide (path = "") || endswith "/" path then path +:+ b
  else path +:+ "/" +:+ b.

(** [os.path.join(a, *p)] *)
Definition join (a : string) (p : list string) : string := foldl join2 a p.

Definition normpath_step (initial_slashes : nat) (new_comps : list string)
    (comp : string) : list string :=
  if bool_decide (comp = "") || bool_decide (comp = ".") then new_comps
  else if negb (bool_decide (comp = ".."))
          || (bool_decide (initial_slashes = 0) && bool_decide (new_comps = []))
          || bool_decide (last new_comps = Some "..")
       then new_comps ++ [comp]
       else removelast new_comps.

Definition normpath (path : string) : string :=
  if bool_decide (path = "") then "."
  else
    let initial_slashes :=
      if startswith "/" path then
        if startswith "//" path && negb (startswith "///" path) then 2 else 1
      else 0 in
    let comps := foldl (normpath_step initial_slashes) [] (split_chr sep path) in
    let path' := str_join "/" comps in
    let path' := str_take initial_slashes "//" +:+ path' in
    if bool_decide (path' = "") then "." else path'.

(** [os.path.relpath(p, start)] for [p] below [start], both normalised. *)
Definition relpath (p start : string) : string :=
  str_drop (String.length (join2 start "")) p.

(** ** [datetime] and [strftime] *)

Record datetime : Set := {
  year : nat; month : nat; day : nat;
  hour : nat; minute : nat; second : nat
}.

Definition digit (n : nat) : ascii := ascii_of_nat (48 + n mod 10).

Definition pad2 (n : nat) : string :=
  String (digit (n / 10)) (String (digit n) EmptyString).

Definition pad4 (n : nat) : string := pad2 (n / 100) +:+ pad2 n.

(** [%B] in the C locale. *)
Definition month_name (m : nat) : string :=
  default "" (["January"; "February"; "March"; "April"; "May"; "June"; "July";
               "August"; "September"; "October"; "November"; "December"]
              !! (m - 1)).

(** [strftime("%B %Y")] *)
Definition strftime_month_year (d : datetime) : string :=
  month_name (month d) +:+ " " +:+ pad4 (year d).

(** [strftime("%Y-%m-%d %H:%M:%S")] *)
Definition strftime_stamp (d : datetime) : string :=
  pad4 (year d) +:+ "-" +:+ pad2 (month d) +:+ "-" +:+ pad2 (day d) +:+ " "
  +:+ pad2 (hour d) +:+ ":" +:+ pad2 (minute d) +:+ ":" +:+ pad2 (second d).

(** [strftime("%d.%m.%Y.%H%M")] *)
Definition strftime_zip (d : datetime) : string :=
  pad2 (day d) +:+ "." +:+ pad2 (month d) +:+ "." +:+ pad4 (year d) +:+ "."
  +:+ pad2 (hour d) +:+ pad2 (minute d).

(** ** The world: file tree, clock, host name, module global, manager *)

(** The backup manifest ([server_backup_map]): relative path to a dictionary
    of string fields. *)
Abbreviation manifest := (gmap string (gmap string string)).

(** What a file holds: text, a JSON manifest, or a zip archive given by its
    members (archive name, data). *)
#[local] Unset Elimination Schemes.
Inductive data : Type :=
| Raw (s : string)
| Json (m : manifest)
| Zip (members : list (string * data)).
#[local] Set Elimination Schemes.

Inductive node : Type :=
| File (d : data)
| Dir.

Inductive exn : Set :=
| FileNotFoundError
| FileExistsError
| NotADirectoryError
| IsADirectoryError
| SameFileError
| JSONDecodeError
| AttributeError.

Record state : Type := {
  fs : gmap string node;
  (** successive readings of [datetime.now()] and how many were taken *)
  clock : nat → datetime;
  ticks : nat;
  (** [socket.gethostname()] *)
  hostname : string;
  (** the module global *)
  CURRENT_TASK_NUMBER : option string;
  (** fields of the [FtpBackupManager] instance *)
  backup_root : string;
  config_path : string;
  project_roots : list string;
  server_backup_map : manifest
}.

Definition set_fs (f : gmap string node → gmap string node) (w : state) : state :=
  {| fs := f (fs w); clock := clock w; ticks := ticks w; hostname := hostname w;
     CURRENT_TASK_NUMBER := CURRENT_TASK_NUMBER w; backup_root := backup_root w;
     config_path := config_path w; project_roots := project_roots w;
     server_backup_map := server_backup_map w |}.

Definition set_map (f : manifest → manifest) (w : state) : state :=
  {| fs := fs w; clock := clock w; ticks := ticks w; hostname := hostname w;
     CURRENT_TASK_NUMBER := CURRENT_TASK_NUMBER w; backup_root := backup_root w;
     config_path := config_path w; project_roots := project_roots w;
     server_backup_map := f (server_backup_map w) |}.

Definition tick (w : state) : state :=
  {| fs := fs w; clock := clock w; ticks := S (ticks w); hostname := hostname w;
     CURRENT_TASK_NUMBER := CURRENT_TASK_NUMBER w; backup_root := backup_root w;
     config_path := config_path w; project_roots := project_roots w;
     server_backup_map := server_backup_map w |}.

Definition set_task (t : option string) (w : state) : state :=
  {| fs := fs w; clock := clock w; ticks := ticks w; hostname := hostname w;
     CURRENT_TASK_NUMBER := t; backup_root := backup_root w;
     config_path := config_path w; project_roots := project_roots w;
     server_backup_map := server_backup_map w |}.

(** ** The monad of statements *)

Inductive res (A : Type) : Type :=
| Ok (a : A)
| Raise (e : exn).
Arguments Ok {A} a.
Arguments Raise {A} e.

Definition M (A : Type) : Type := state → res A * state.

Definition ret {A} (a : A) : M A := λ w, (Ok a, w).

Definition bind {A B} (m : M A) (k : A → M B) : M B :=
  λ w, match m w with
       | (Ok a, w') => k a w'
       | (Raise e, w') => (Raise e, w')
       end.

Definition raise {A} (e : exn) : M A := λ w, (Raise e, w).

(** [try: m  except Exception: h] *)
Definition try_except {A} (m : M A) (h : exn → M A) : M A :=
  λ w, match m w with
       | (Ok a, w') => (Ok a, w')
       | (Raise e, w') => h e w'
       end.

Definition gets {A} (f : state → A) : M A := λ w, (Ok (f w), w).
Definition modify (f : state → state) : M unit := λ w, (Ok tt, f w).

Notation "'let*' x ':=' c 'in' k" := (bind c (λ x, k))
  (at level 10, x binder, c at level 100, k at level 200).
Notation "c ';;;' k" := (bind c (λ _, k))
  (at level 100, k at level 200, right associativity).

(** [if b: m] *)
Definition when (b : bool) (m : M unit) : M unit := if b then m else ret tt.

(** ** Library calls on the world *)

(** [datetime.now()] *)
Definition datetime_now : M datetime :=
  λ w, (Ok (clock w (ticks w)), tick w).

(** [socket.gethostname()] *)
Definition gethostname : M string := gets hostname.

Definition root_like (p : string) : bool :=
  negb (bool_decide (p = "")) && str_forall (λ c, bool_decide (c = sep)) p.

(** The node a path names; the root directory always exists. *)
Definition stat (t : gmap string node) (p : string) : option node :=
  if root_like p then Some Dir else t !! p.

(** [os.path.exists(p)] *)
Definition path_exists (p : string) : M bool :=
  gets (λ w, bool_decide (is_Some (stat (fs w) p))).

(** The path and the directories above it, nearest first, up to the root or
    the working directory. *)
Fixpoint ancestors_upto (n : nat) (p : string) : list string :=
  match n with
  | O => []
  | S n' =>
      if bool_decide (p = "") || root_like p then []
      else p :: ancestors_upto n' (dirname p)
  end.

Definition ancestors (p : string) : list string :=
  ancestors_upto (String.length p) p.

Definition is_file (t : gmap string node) (p : string) : bool :=
  match t !! p with Some (File _) => true | _ => false end.

(** [os.makedirs(p, exist_ok=True)] *)
Definition makedirs (p : string) : M unit :=
  λ w,
    if bool_decide (p = "") then (Raise FileNotFoundError, w)
    else if is_file (fs w) p then (Raise FileExistsError, w)
    else if existsb (is_file (fs w)) (ancestors p) then (Raise NotADirectoryError, w)
    else (Ok tt, set_fs (λ t, foldr (λ d t', <[d := Dir]> t') t (ancestors p)) w).

(** [shutil.copy2(src, dst)] *)
Definition copy2 (src dst : string) : M unit :=
  λ w,
    match stat (fs w) src with
    | Some (File d) =>
        let dst' := match stat (fs w) dst with
                    | Some Dir => join2 dst (basename src)
                    | _ => dst
                    end in
        if bool_decide (src = dst') then (Raise SameFileError, w)
        else match stat (fs w) dst' with
             | Some Dir => (Raise IsADirectoryError, w)
             | _ =>
                 match stat (fs w) (dirname dst') with
                 | Some Dir => (Ok tt, set_fs <[dst' := File d]> w)
                 | Some (File _) => (Raise NotADirectoryError, w)
                 | None =>
                     if bool_decide (dirname dst' = "")
                     then (Ok tt, set_fs <[dst' := File d]> w)
                     else (Raise FileNotFoundError, w)
                 end
             end
    | Some Dir => (Raise IsADirectoryError, w)
    | None => (Raise FileNotFoundError, w)
    end.

(** [os.remove(p)] *)
Definition remove (p : string) : M unit :=
  λ w,
    match stat (fs w) p with
    | Some (File _) => (Ok tt, set_fs (delete p) w)
    | Some Dir => (Raise IsADirectoryError, w)
    | None => (Raise FileNotFoundError, w)
    end.

(** [zipfile.ZipFile(zip_path, 'w')] followed by the [os.walk] loop of
    [create_zip_archive]: the archive is created empty, then every file
    below [folder_path] is stored under its path relative to the folder. *)
Definition write_zip (zip_path folder_path : string) : M unit :=
  λ w,
    match stat (fs w) zip_path with
    | Some Dir => (Raise IsADirectoryError, w)
    | _ =>
        let t1 := <[zip_path := File (Zip [])]> (fs w) in
        let members :=
          omap (λ kv, match kv with
                      | (k, File d) =>
                          if startswith (join2 folder_path "") k
                          then Some (relpath k folder_path, d) else None
                      | (_, Dir) => None
                      end) (map_to_list t1) in
        (Ok tt, set_fs (λ _, <[zip_path := File (Zip members)]> t1) w)
    end.

(** [json.dump(m, f)] into a file opened with mode ['w']. *)
Definition write_json (p : string) (m : manifest) : M unit :=
  λ w,
    match stat (fs w) p with
    | Some Dir => (Raise IsADirectoryError, w)
    | _ => (Ok tt, set_fs <[p := File (Json m)]> w)
    end.

(** ** [FtpBackupManager] *)

(** The functions defined in the body of [class FtpBackupManager]
    (lines 42-253); the class statement ends at the unindented [def] of
    line 255. *)
Definition FtpBackupManager_attrs : list string :=
  ["__init__"; "_load_config"; "_extract_relative_path"; "extract_site_name";
   "backup_file"].

(** [self.name(...)] on a manager: the attribute is looked up first. *)
Definition self_call {A} (name : string) (body : M A) : M A :=
  if bool_decide (name ∈ FtpBackupManager_attrs) then body
  else raise AttributeError.

(** Lines 342-349. This [def] is indented under the module-level function
    [create_backup_zip] (line 255), after both of its [return]s: it is a
    local function of [create_backup_zip], not an attribute of the class. *)
Definition _save_config : M unit :=
  try_except
    (let* p := gets config_path in
     let* m := gets server_backup_map in
     write_json p m)
    (λ _, ret tt).

(** Lines 63-73. *)
Definition _load_config : M unit :=
  try_except
    (let* p := gets config_path in
     let* ex := path_exists p in
     if ex then
       λ w, match stat (fs w) p with
            | Some (File (Json m)) => (Ok tt, set_map (λ _, m) w)
            | Some Dir => (Raise IsADirectoryError, w)
            | Some (File _) => (Raise JSONDecodeError, w)
            | None => (Raise FileNotFoundError, w)
            end
     else ret tt)
    (λ _, ret tt).

(** Lines 18-29 and 43-61: a fresh manager for [root]. *)
Definition FtpBackupManager_init (root : string) : M unit :=
  modify (λ w,
    {| fs := fs w; clock := clock w; ticks := ticks w; hostname := hostname w;
       CURRENT_TASK_NUMBER := CURRENT_TASK_NUMBER w;
       backup_root := root;
       config_path := join root ["backup_config.json"];
       project_roots := ["var\www\"; "www\"; "public_html\"; "local\";
                         "htdocs\"; "home\"];
       server_backup_map := ∅ |});;;
  makedirs (join root ["logs"]);;;
  makedirs root;;;
  self_call "_load_config" _load_config.

(** [r'Temp\\[^\\]+\\(.+)'] *)
Definition temp_pattern : regex :=
  RSeq (rlit "Temp\")
    (RSeq (RPlus (rnot "\"%char)) (RSeq (RChr "\"%char) (RGrp (RPlus rdot)))).

(** The [for root in self.project_roots] loop of lines 81-86. *)
Fixpoint relative_by_root (roots : list string) (normalized_path : string)
    : option string :=
  match roots with
  | [] => None
  | root :: rest =>
      if str_in root normalized_path
      then Some (replace_chr "\"%char "/"%char
                   (default "" (str_split1 root normalized_path !! 1%nat)))
      else relative_by_root rest normalized_path
  end.

(** Lines 75-98. *)
Definition _extract_relative_path (roots : list string) (file_path : string)
    : string :=
  let normalized_path := replace_chr "/"%char "\"%char file_path in
  match relative_by_root roots normalized_path with
  | Some result => result
  | None =>
      match re_search temp_pattern normalized_path with
      | Some g => replace_chr "\"%char "/"%char (default "" g)
      | None => basename file_path
      end
  end.

(** The three patterns of lines 106-110. *)
Definition site_patterns : list regex :=
  [ RSeq (ralts ["var\www\"; "www\"; "public_html\"; "local\"; "htdocs\";
                 "home\"])
         (RGrp (RPlus (rnot "\"%char)));
    RSeq (rlit "ftp://") (RGrp (RPlus (rnot "/"%char)));
    RSeq (RChr "\"%char)
      (RSeq (RGrp (RPlus (rnot "\"%char)))
         (RSeq (RChr "\"%char)
            (RSeq (ralts ["www"; "public_html"; "httpdocs"]) (RChr "\"%char)))) ].

(** The [for pattern in patterns] loop of lines 112-117. *)
Fixpoint site_by_pattern (patterns : list regex) (normalized_path : string)
    : option string :=
  match patterns with
  | [] => None
  | pattern :: rest =>
      match re_search pattern normalized_path with
      | Some g => Some (default "" g)
      | None => site_by_pattern rest normalized_path
      end
  end.

(** The [enumerate] loop of lines 119-123; [prev] is [parts[i-1]], absent
    when [i = 0]. *)
Fixpoint site_before_webroot (prev : option string) (parts : list string)
    : option string :=
  match parts with
  | [] => None
  | part :: rest =>
      match prev with
      | Some before =>
          if bool_decide (lower part ∈ ["www"; "public_html"; "httpdocs"; "htdocs"])
          then Some before
          else site_before_webroot (Some part) rest
      | None => site_before_webroot (Some part) rest
      end
  end.

(** The condition of line 125. *)
Definition looks_like_domain (part : string) : bool :=
  str_in "." part
  && negb (existsb (λ e, endswith e part) [".php"; ".html"; ".js"; ".css"]).

(** Lines 100-135. *)
Definition extract_site_name (file_path : string) : M string :=
  try_except
    (let normalized_path := replace_chr "/"%char "\"%char file_path in
     match site_by_pattern site_patterns normalized_path with
     | Some site_name => ret site_name
     | None =>
         let parts := split_chr "\"%char normalized_path in
         match site_before_webroot None parts with
         | Some site_name => ret site_name
         | None =>
             match List.find looks_like_domain parts with
             | Some part => ret part
             | None => gethostname
             end
         end
     end)
    (λ _, ret "unknown_site").

(** Line 160: [re.sub(r'[^\w\-_.]', '_', site_name)]. *)
Definition keeps_in_key (c : ascii) : bool :=
  is_word c || bool_decide (c ∈ ["-"; "_"; "."]%char).

Definition server_key_of (site_name : string) : string :=
  re_sub_class (λ c, negb (keeps_in_key c)) "_"%char site_name.

Definition excluded_files : list string :=
  ["default.sublime-commands"; ".sublime-commands"; ".DS_Store"; "Thumbs.db"].

(** The condition of lines 151-152. *)
Definition is_excluded (file_path : string) : bool :=
  bool_decide (basename file_path ∈ excluded_files)
  || existsb (λ ext, str_in ext file_path) excluded_files.

(** The truth value of an optional string ([if task_number:]). *)
Definition truthy (o : option string) : option string :=
  match o with
  | Some "" => None
  | _ => o
  end.

(** What lines 159-196 compute for the rest of the call. *)
Record backup_ctx : Set := {
  site_name : string;
  before_path : string;
  after_path : string;
  relative_path : string
}.

(** Lines 159-196: site, month and task folders and the two slots. *)
Definition backup_dirs (file_path : string) (server_name task_number : option string)
    : M backup_ctx :=
  let* site_name :=
    match truthy server_name with
    | Some n => ret n
    | None => self_call "extract_site_name" (extract_site_name file_path)
    end in
  let server_key := server_key_of site_name in
  let* now := datetime_now in
  let current_month_year := strftime_month_year now in
  let* root := gets backup_root in
  let server_folder := join root [server_key] in
  let* ex := path_exists server_folder in
  when (negb ex) (makedirs server_folder);;;
  let month_year_folder := join server_folder [current_month_year] in
  let* ex := path_exists month_year_folder in
  when (negb ex) (makedirs month_year_folder);;;
  let task_folder :=
    match truthy task_number with
    | Some n => join month_year_folder ["task_" +:+ n]
    | None => month_year_folder
    end in
  let* ex := path_exists task_folder in
  when (negb ex) (makedirs task_folder);;;
  let before_path := join task_folder ["before"] in
  let after_path := join task_folder ["after"] in
  makedirs before_path;;;
  makedirs after_path;;;
  let* roots := gets project_roots in
  let relative_path := _extract_relative_path roots file_path in
  ret {| site_name := site_name; before_path := before_path;
         after_path := after_path; relative_path := relative_path |}.

(** The dictionary built at lines 207-210 and 232-235. *)
Definition new_entry (stamp site : string) : gmap string string :=
  <["first_backup_time" := stamp]> (<["site" := site]> ∅).

(** [if relative_path not in self.server_backup_map: ... = {...}] *)
Definition create_entry_if_absent (c : backup_ctx) : M unit :=
  let* m := gets server_backup_map in
  match m !! relative_path c with
  | Some _ => ret tt
  | None =>
      let* now := datetime_now in
      modify (set_map <[relative_path c := new_entry (strftime_stamp now) (site_name c)]>)
  end.

(** Lines 200-240: the three modes. *)
Definition backup_copy (file_path : string) (mode : option string) (c : backup_ctx)
    : M unit :=
  if bool_decide (mode = Some "before") then
    let backup_path := join (before_path c) [relative_path c] in
    makedirs (dirname backup_path);;;
    copy2 file_path backup_path;;;
    create_entry_if_absent c
  else if bool_decide (mode = Some "after") then
    let backup_path := join (after_path c) [relative_path c] in
    makedirs (dirname backup_path);;;
    let* ex := path_exists backup_path in
    when ex (remove backup_path);;;
    copy2 file_path backup_path
  else
    let first_backup_path := join (before_path c) [relative_path c] in
    let after_backup_path := join (after_path c) [relative_path c] in
    makedirs (dirname first_backup_path);;;
    makedirs (dirname after_backup_path);;;
    let* m := gets server_backup_map in
    when (bool_decide (m !! relative_path c = None))
      (copy2 file_path first_backup_path;;;
       let* now := datetime_now in
       modify (set_map <[relative_path c := new_entry (strftime_stamp now) (site_name c)]>));;;
    let* ex := path_exists after_backup_path in
    when ex (remove after_backup_path);;;
    copy2 file_path after_backup_path.

(** Lines 242-244. *)
Definition touch_entry (c : backup_ctx) : M unit :=
  let* m := gets server_backup_map in
  match m !! relative_path c with
  | Some e =>
      let* now := datetime_now in
      modify (set_map <[relative_path c :=
                <["site" := site_name c]>
                  (<["last_backup_time" := strftime_stamp now]> e)]>)
  | None => ret tt
  end.

(** Lines 159-240: everything up to and including the copies. *)
Definition backup_writes (file_path : string)
    (server_name mode task_number : option string) : M backup_ctx :=
  let* c := backup_dirs file_path server_name task_number in
  backup_copy file_path mode c;;;
  ret c.

(** Lines 137-253. The result is the pair [(before_path, after_path)], or
    [(None, None)]. *)
Definition backup_file (file_path : string)
    (server_name mode task_number : option string)
    : M (option string * option string) :=
  try_except
    (if is_excluded file_path then ret (None, None)
     else
       let* ex := path_exists file_path in
       if negb ex then ret (None, None)
       else
         let* c := backup_writes file_path server_name mode task_number in
         touch_entry c;;;
         self_call "_save_config" _save_config;;;
         ret (Some (before_path c), Some (after_path c)))
    (λ _, ret (None, None)).

(** ** [FtpBackupCreateZipCommand.create_zip_archive] *)

(** [r'[\w\-_.]+'] *)
Definition site_part_pattern : regex := RPlus (RSet keeps_in_key).

(** The condition of line 690. *)
Definition names_site (part : string) : bool :=
  bool_decide (is_Some (re_match site_part_pattern part))
  && negb (startswith "task_" part)
  && negb (bool_decide (part ∈ ["before"; "after"])).

(** Lines 688-692: the first qualifying part, or the default. *)
Definition zip_site_name (folder_parts : list string) : string :=
  default "backup" (List.find names_site folder_parts).

(** The character class of line 695, by code point: backslash, slash,
    colon, star, question mark, double quote, angle brackets, bar. *)
Definition path_unsafe (c : ascii) : bool :=
  bool_decide (ord c ∈ [92; 47; 58; 42; 63; 34; 60; 62; 124]%N).

(** Lines 695-701. *)
Definition zip_name_of (folder_parts : list string) (folder_type : option string)
    (now : datetime) : string :=
  let safe_site_name := re_sub_class path_unsafe "_"%char (zip_site_name folder_parts) in
  let date_str := strftime_zip now in
  match truthy folder_type with
  | Some t => "backup_" +:+ safe_site_name +:+ "_" +:+ t +:+ "_" +:+ date_str +:+ ".zip"
  | None => "backup_" +:+ safe_site_name +:+ "_" +:+ date_str +:+ ".zip"
  end.

(** The index looked for by the loop of lines 706-709. *)
Fixpoint find_index {A} (p : A → bool) (l : list A) : option nat :=
  match l with
  | [] => None
  | x :: rest => if p x then Some 0 else S <$> find_index p rest
  end.

(** Lines 704-725. [any(...)] of line 704 holds exactly when the loop of
    lines 706-709 finds an index. *)
Definition zip_dir_of (folder_path : string) (folder_parts : list string) : string :=
  match find_index (startswith "task_") folder_parts with
  | Some task_folder_index =>
      let task_path_parts := take (task_folder_index + 1) folder_parts in
      if str_in ":" folder_path then
        let drive := default "" (head (split_chr ":"%char folder_path)) +:+ ":" in
        join drive ("/" :: task_path_parts)
      else join "/" task_path_parts
  | None =>
      let zip_dir := dirname folder_path in
      if bool_decide (basename folder_path ∈ ["before"; "after"])
      then dirname zip_dir else zip_dir
  end.

(** Lines 683-685. *)
Definition folder_parts_of (folder_path : string) : list string :=
  List.filter (λ part, negb (bool_decide (part = ""))) (split_chr sep folder_path).

(** Lines 680-728 without the clock: where the archive goes and what it is
    called, for the argument [folder_path] as passed by the caller. *)
Definition zip_target (folder_path : string) (folder_type : option string)
    (now : datetime) : string * string :=
  let folder_path := normpath folder_path in
  let folder_parts := folder_parts_of folder_path in
  (zip_dir_of folder_path folder_parts, zip_name_of folder_parts folder_type now).

(** Lines 670-753. The result is the path of the archive, or [None]. *)
Definition create_zip_archive (folder_path : string) (folder_type : option string)
    : M (option string) :=
  try_except
    (let* ex := path_exists folder_path in
     if negb ex then ret None
     else
       let folder_path := normpath folder_path in
       let folder_parts := folder_parts_of folder_path in
       let* now := datetime_now in
       let zip_name := zip_name_of folder_parts folder_type now in
       let zip_dir := zip_dir_of folder_path folder_parts in
       let zip_path := join zip_dir [zip_name] in
       makedirs (dirname zip_path);;;
       write_zip zip_path folder_path;;;
       modify (set_task None);;;
       ret (Some zip_path))
    (λ _, ret None).

(** ** The editor commands *)

(** [str.isspace] on one code point below U+0100. *)
Definition isspace (c : ascii) : bool :=
  bool_decide (ord c ∈ [9; 10; 11; 12; 13; 28; 29; 30; 31; 32; 133; 160]%N).

(** [s.lstrip()] *)
Fixpoint lstrip (s : string) : string :=
  match s with
  | String c t => if isspace c then lstrip t else s
  | EmptyString => EmptyString
  end.

(** [s.rstrip()] *)
Fixpoint rstrip (s : string) : string :=
  match s with
  | EmptyString => EmptyString
  | String a t =>
      match rstrip t with
      | EmptyString => if isspace a then EmptyString else String a EmptyString
      | t' => String a t'
      end
  end.

(** [s.strip()] *)
Definition strip (s : string) : string := rstrip (lstrip s).

(** [with open(p, 'w', encoding='utf-8') as f: f.write(content)] *)
Definition write_text (p content : string) : M unit :=
  λ w,
    if bool_decide (p = "") then (Raise FileNotFoundError, w)
    else match stat (fs w) p with
         | Some Dir => (Raise IsADirectoryError, w)
         | Some (File _) => (Ok tt, set_fs <[p := File (Raw content)]> w)
         | None =>
             match stat (fs w) (dirname p) with
             | Some Dir => (Ok tt, set_fs <[p := File (Raw content)]> w)
             | Some (File _) => (Raise NotADirectoryError, w)
             | None =>
                 if bool_decide (dirname p = "")
                 then (Ok tt, set_fs <[p := File (Raw content)]> w)
                 else (Raise FileNotFoundError, w)
             end
         end.

(** The backup root written into the commands (lines 402, 478 and 524). *)
Definition BACKUP_ROOT : string := "C:\Users\aleksandr.kulakov\Desktop\BackUp".

(** Lines 395, 471 and 517: [task_number.strip() if task_number else None]. *)
Definition stripped_task (task_number : option string) : option string :=
  match truthy task_number with
  | Some t => Some (strip t)
  | None => None
  end.

(** [FtpBackupSaveCommand.save_with_backup], lines 392-417; [content] is the
    text of the view. *)
Definition save_with_backup (file_path : string) (task_number : option string)
    (content : string) : M unit :=
  try_except
    (let task_number := stripped_task task_number in
     modify (set_task task_number);;;
     FtpBackupManager_init BACKUP_ROOT;;;
     backup_file file_path None (Some "before") task_number;;;
     write_text file_path content;;;
     backup_file file_path None (Some "after") task_number;;;
     ret tt)
    (λ _, ret tt).

(** [FtpBackupCreateBeforeCommand.create_before_backup], lines 468-487. *)
Definition create_before_backup (file_path : string) (task_number : option string)
    : M unit :=
  try_except
    (let task_number := stripped_task task_number in
     modify (set_task task_number);;;
     FtpBackupManager_init BACKUP_ROOT;;;
     backup_file file_path None (Some "before") task_number;;;
     ret tt)
    (λ _, ret tt).

(** [FtpBackupCreateAfterCommand.create_after_backup], lines 514-533. *)
Definition create_after_backup (file_path : string) (task_number : option string)
    : M unit :=
  try_except
    (let task_number := stripped_task task_number in
     modify (set_task task_number);;;
     FtpBackupManager_init BACKUP_ROOT;;;
     backup_file file_path None (Some "after") task_number;;;
     ret tt)
    (λ _, ret tt).

(** [FtpBackupSaveCommand.run], lines 368-390. [file_name] is
    [view.file_name()] and [panel] is what the user submits in the input
    panel, [None] when the panel is closed without an answer; the callback
    of the panel is run at once. Without a file name the command opens the
    editor's own save-as dialog, which is outside the model. *)
Definition FtpBackupSaveCommand_run (content : string)
    (file_name panel : option string) : M unit :=
  match truthy file_name with
  | None => ret tt
  | Some file_path =>
      let* current := gets CURRENT_TASK_NUMBER in
      match truthy current with
      | Some task_number => save_with_backup file_path (Some task_number) content
      | None =>
          match panel with
          | Some task_number => save_with_backup file_path (Some task_number) content
          | None => ret tt
          end
      end
  end.

(** ** Running a statement *)

Definition result {A} (m : M A) (w : state) : res A := fst (m w).
Definition after {A} (m : M A) (w : state) : state := snd (m w).

(** The source file is rewritten by the editor between two backups. *)
Definition write_file (p : string) (d : data) (w : state) : state :=
  set_fs <[p := File d]> w.

(** 3 November 2026, at the given time of day. *)
Definition nov (h m s : nat) : datetime :=
  {| year := 2026; month := 11; day := 3; hour := h; minute := m; second := s |}.

(** A machine with the given file tree and no manager yet; the clock reads
    13:00:00 on 3 November 2026 and one second more at each reading. *)
Definition bare_world (files : list (string * node)) : state :=
  {| fs := list_to_map files;
     clock := λ n, nov 13 (n / 60) (n mod 60);
     ticks := 0;
     hostname := "devbox";
     CURRENT_TASK_NUMBER := Some "42";
     backup_root := "";
     config_path := "";
     project_roots := [];
     server_backup_map := ∅ |}.

(** The example: a fresh manager rooted at [/backup] on a machine that holds
    one site file. *)
Definition acme_world : state :=
  after (FtpBackupManager_init "/backup")
    (bare_world [("/var", Dir); ("/var/www", Dir); ("/var/www/acme", Dir);
                 ("/var/www/acme/index.php", File (Raw "<?php v1"))]).

(** * Vocabulary of the properties *)

(** The class [[A-Za-z0-9_.-]]. *)
Definition ascii_key_char (c : ascii) : bool :=
  ascii_alnum c || bool_decide (c ∈ ["_"; "."; "-"]%char).

Definition non_ascii_alnum (c : ascii) : bool :=
  (128 <=? ord c)%N && isalnum c.

(** Line 160 over any alphabet [C] and any reading of [\w]: the characters
    outside [word] and [extra] become [underscore]. *)
Definition sanitize_over {C : Type} (word extra : C → bool) (underscore : C)
    (s : list C) : list C :=
  map (λ c, if negb (word c || extra c) then underscore else c) s.

(** "café", with U+00E9 as its last character. *)
Definition cafe : string := "caf" +:+ String "233"%char EmptyString.

Definition no_sep (p : string) : bool :=
  str_forall (λ c, negb (bool_decide (c = sep))) p.

(** A segment as [normpath] leaves it: not empty, no separator, not a dot
    name. *)
Definition clean_part (p : string) : bool :=
  no_sep p && negb (bool_decide (p ∈ [""; "."; ".."])).

(** ["/p1/p2/.../pn"], and ["/"] for no segment. *)
Definition abs_path (parts : list string) : string := "/" +:+ str_join "/" parts.

(** ["/p1/p2/.../pn"], and the empty string for no segment. *)
Fixpoint slashed (parts : list string) : string :=
  match parts with
  | [] => EmptyString
  | p :: rest => String sep (p +:+ slashed rest)
  end.

(** Only directories were added. *)
Definition grow (t t' : gmap string node) : Prop :=
  (∀ p d, t' !! p = Some (File d) ↔ t !! p = Some (File d))
  ∧ (∀ p, t !! p = Some Dir → t' !! p = Some Dir).

Definition grown (w w' : state) : Prop :=
  ∃ t', grow (fs w) t' ∧ w' = set_fs (λ _, t') w.

(** The site name a call works with (line 159). *)
Definition resolve_site (file_path : string) (server_name : option string)
    (w : state) : string :=
  match truthy server_name with
  | Some n => n
  | None =>
      match result (extract_site_name file_path) w with
      | Ok s => s
      | Raise _ => "unknown_site"
      end
  end.

(** The task folder of a call (lines 165-188). *)
Definition task_folder_of (site : string) (task_number : option string)
    (now : datetime) (root : string) : string :=
  let month_year_folder := join root [server_key_of site; strftime_month_year now] in
  match truthy task_number with
  | Some n => join month_year_folder ["task_" +:+ n]
  | None => month_year_folder
  end.

(** The state [touch_entry] leaves (lines 242-244). *)
Definition touched (c : backup_ctx) (w : state) : state :=
  match server_backup_map w !! relative_path c with
  | Some e =>
      set_map <[relative_path c :=
                 <["site" := site_name c]>
                   (<["last_backup_time" := strftime_stamp (clock w (ticks w))]> e)]>
        (tick w)
  | None => w
  end.

(** Where [copy2] writes when [dst] may be a directory. *)
Definition copy_target (t : gmap string node) (src dst : string) : string :=
  match stat t dst with
  | Some Dir => join2 dst (basename src)
  | _ => dst
  end.

(** The entry a call leaves when it goes through [touch_entry] with entry
    [e] in the manifest and reads the clock [now]. *)
Definition touch (site : string) (now : datetime) (e : gmap string string)
    : gmap string string :=
  <["site" := site]> (<["last_backup_time" := strftime_stamp now]> e).

(** The state after lines 206-210 and 232-235: a new entry stamped with the
    next clock reading. *)
Definition with_new_entry (c : backup_ctx) (w : state) : state :=
  set_map <[relative_path c :=
             new_entry (strftime_stamp (clock w (ticks w))) (site_name c)]>
    (tick w).

(** From a state in [P], [m] ends in [Q] when it returns and in [E] when it
    raises. *)
Definition hoare {A} (P : state → Prop) (m : M A) (Q : A → state → Prop)
    (E : state → Prop) : Prop :=
  ∀ w, P w →
    match m w with
    | (Ok a, w') => Q a w'
    | (Raise _, w') => E w'
    end.

(** [m] leaves the manager's manifest and root markers alone. *)
Definition quiet {A} (m : M A) : Prop :=
  ∀ w, server_backup_map (snd (m w)) = server_backup_map w
       ∧ project_roots (snd (m w)) = project_roots w.

(** [P] looks at the manifest and the root markers only. *)
Definition mgr_only (P : state → Prop) : Prop :=
  ∀ w w', server_backup_map w' = server_backup_map w →
          project_roots w' = project_roots w → P w → P w'.

(** Two entries agree outside the fields [touch_entry] writes. *)
Definition same_but_touched (e0 e : gmap string string) : Prop :=
  ∀ k, k ≠ "last_backup_time" → k ≠ "site" → e !! k = e0 !! k.

(** The manifests a call in [mode] on relative path [rel0] may reach from
    [m0]: other keys as before, an entry of [rel0] still there and the same
    but for the touched fields, no entry made in mode "after". *)
Definition reachable (rel0 : string) (m0 : manifest) (mode : option string)
    (m : manifest) : Prop :=
  (∀ k, k ≠ rel0 → m !! k = m0 !! k)
  ∧ match m0 !! rel0 with
    | Some e0 => ∃ e, m !! rel0 = Some e ∧ same_but_touched e0 e
    | None => mode = Some "after" → m !! rel0 = None
    end.

(** The invariant of a call: the root markers stay and the manifest is
    reachable. *)
Definition inv (rel0 : string) (roots0 : list string) (m0 : manifest)
    (mode : option string) (w : state) : Prop :=
  project_roots w = roots0 ∧ reachable rel0 m0 mode (server_backup_map w).

Definition acme_file : string := "/var/www/acme/index.php".
Definition acme_rel : string := "acme/index.php".
Definition acme_task_dir : string := "/backup/acme/November 2026/task_42".
Definition acme_before_slot : string := acme_task_dir +:+ "/before/acme/index.php".
Definition acme_after_slot : string := acme_task_dir +:+ "/after/acme/index.php".

Definition acme_ctx : backup_ctx :=
  {| site_name := "acme";
     before_path := acme_task_dir +:+ "/before";
     after_path := acme_task_dir +:+ "/after";
     relative_path := acme_rel |}.

(** One call of [backup_file] on the example file with task 42. *)
Definition save (mode : option string) (w : state) : state :=
  after (backup_file acme_file None mode (Some "42")) w.

(** The copies of such a call. *)
Definition writes (mode : option string) (w : state) : state :=
  after (backup_writes acme_file None mode (Some "42")) w.

(** The editor writes a new version of the file. *)
Definition edit (v : string) (w : state) : state := write_file acme_file (Raw v) w.

(** The example after a first default-mode save and an edit. *)
Definition acme_edited : state := edit "<?php v2" (save None acme_world).

(** The same tree with backups made without a task number. *)
Definition acme_no_task : state :=
  after (backup_file acme_file None None None) acme_world.

(** The entry of the example file after the first save. *)
Definition acme_entry : gmap string string :=
  touch "acme" (nov 13 0 2) (new_entry "2026-11-03 13:00:01" "acme").

(** The character [c] does not occur in [s]. *)
Definition lacks (c : ascii) (s : string) : bool :=
  str_forall (λ x, negb (bool_decide (x = c))) s.

(** Lines 80 and 105: the spelling of a path the resolvers look at. *)
Definition normalized (file_path : string) : string :=
  replace_chr "/"%char "\"%char file_path.

(** The longest prefix of [s] made of characters in [p], and what follows. *)
Fixpoint str_take_while (p : ascii → bool) (s : string) : string :=
  match s with
  | String c t => if p c then String c (str_take_while p t) else EmptyString
  | EmptyString => EmptyString
  end.

Fixpoint str_drop_while (p : ascii → bool) (s : string) : string :=
  match s with
  | String c t => if p c then str_drop_while p t else s
  | EmptyString => EmptyString
  end.

(** The alternatives of the first site pattern (line 107). *)
Definition site_markers : list string :=
  ["var\www\"; "www\"; "public_html\"; "local\"; "htdocs\"; "home\"].

(** None of the strings [subs] starts at one of the first [k] positions
    of [s]. *)
Fixpoint starts_none (subs : list string) (k : nat) (s : string) : bool :=
  match k with
  | O => true
  | S k' =>
      negb (existsb (λ a, startswith a s) subs)
      && match s with
         | String _ t => starts_none subs k' t
         | EmptyString => true
         end
  end.

Section PlusIter.
Context {A : Type} (r : regex) (k : string → option string → option A).

(** The loop of [r+] followed by [k]: [n] bounds the number of further
    rounds. *)
Fixpoint plus_iter (n : nat) (s : string) (g : option string) : option A :=
  rmatch r s g (λ s' g',
    match n with
    | S n' =>
        match plus_iter n' s' g' with
        | Some x => Some x
        | None => k s' g'
        end
    | O => k s' g'
    end).
End PlusIter.

(** Path [p] is in [t] what it was in [t0], or a directory made since. *)
Definition kept (t0 t : gmap string node) (p : string) : Prop :=
  t !! p = t0 !! p ∨ (t0 !! p = None ∧ t !! p = Some Dir).

(** From [t0] to [t] the paths in [P] are kept and no directory is lost. *)
Definition frame (P : string → Prop) (t0 t : gmap string node) : Prop :=
  (∀ p, P p → kept t0 t p) ∧ (∀ p, t0 !! p = Some Dir → t !! p = Some Dir).

(** Whatever its outcome, [m] spares the paths in [P]. *)
Definition spares {A} (P : string → Prop) (m : M A) : Prop :=
  ∀ w, frame P (fs w) (fs (snd (m w))).

(** One of the two slots of a call (lines 159-204): the join of the task
    folder, the leaf [before] or [after] and the relative path. *)
Definition slot_of (leaf file_path : string) (server_name task_number : option string)
    (w : state) : string :=
  join
    (join (task_folder_of (resolve_site file_path server_name w) task_number
             (clock w (ticks w)) (backup_root w)) [leaf])
    [_extract_relative_path (project_roots w) file_path].

(** The paths a call in [mode] with source [src] and slots [b] and [a] may
    rewrite are not among these. *)
Definition spared (mode : option string) (src b a : string) (p : string) : Prop :=
  (p = src ∨ mode = Some "after" ∨ (p ≠ b ∧ p ≠ join2 b (basename src)))
  ∧ (mode = Some "before" ∨ p ≠ a).

(** The folder of a task under the month folder, as a path suffix. *)
Definition task_part (task_number : option string) : string :=
  match truthy task_number with
  | Some n => "/task_" +:+ n
  | None => ""
  end.

(** Whatever its outcome, [m] leaves the module global alone. *)
Definition same_task {A} (m : M A) : Prop :=
  ∀ w, CURRENT_TASK_NUMBER (snd (m w)) = CURRENT_TASK_NUMBER w.

(** The path of the archive a call of [create_zip_archive] writes. *)
Definition zip_path_of (folder_path : string) (folder_type : option string)
    (w : state) : string :=
  join (fst (zip_target folder_path folder_type (clock w (ticks w))))
    [snd (zip_target folder_path folder_type (clock w (ticks w)))].

(** The manifest a fresh manager for [root] loads from the tree [t]. *)
Definition loaded_manifest (root : string) (t : gmap string node) : manifest :=
  match stat t (join root ["backup_config.json"]) with
  | Some (File (Json m)) => m
  | _ => ∅
  end.

(** A machine whose only file is the after copy of an earlier save of its
    own path. *)
Definition own_slot : string := "/backup/notes.txt/November 2026/after/notes.txt".

Definition own_slot_world : state :=
  after (FtpBackupManager_init "/backup")
    (bare_world [("/backup", Dir); ("/backup/notes.txt", Dir);
                 ("/backup/notes.txt/November 2026", Dir);
                 ("/backup/notes.txt/November 2026/after", Dir);
                 (own_slot, File (Raw "draft"))]).

Definition own_slot_ctx : backup_ctx :=
  {| site_name := "notes.txt";
     before_path := "/backup/notes.txt/November 2026/before";
     after_path := "/backup/notes.txt/November 2026/after";
     relative_path := "notes.txt" |}.

(** The machine of the example before any manager is made, with no task
    number yet. *)
Definition acme_bare : state :=
  set_task None
    (bare_world [("/var", Dir); ("/var/www", Dir); ("/var/www/acme", Dir);
                 ("/var/www/acme/index.php", File (Raw "<?php v1"))]).

(** The task folder of the example under the root written into the
    commands. *)
Definition desk_task_dir : string := BACKUP_ROOT +:+ "/acme/November 2026/task_42".

Definition desk_ctx : backup_ctx :=
  {| site_name := "acme";
     before_path := desk_task_dir +:+ "/before";
     after_path := desk_task_dir +:+ "/after";
     relative_path := acme_rel |}.

(** The states the save command goes through on the example. *)
Definition desk_world : state :=
  after (FtpBackupManager_init BACKUP_ROOT) (set_task (Some "42") acme_bare).

Definition desk_before : state :=
  after (backup_writes acme_file None (Some "before") (Some "42")) desk_world.

Definition desk_edited : state :=
  write_file acme_file (Raw "<?php v2") (touched desk_ctx desk_before).

Definition desk_after : state :=
  after (backup_writes acme_file None (Some "after") (Some "42")) desk_edited.

(** The archive of the before folder of the example. *)
Definition acme_before_zip : string :=
  acme_task_dir +:+ "/backup_backup_before_03.11.2026.1300.zip".

(** * Properties *)

(** ** The library models on sample inputs *)

Example normpath_samples :
  map normpath ["/a//b/../c/./d/"; "//a"; "///a"; "../x/.."; ""; "/";
                "a/b/../../.."; "/.."; "/a/b"]
  = ["/a/c/d"; "//a"; "/a"; ".."; "."; "/"; ".."; "/"; "/a/b"].
Proof. reflexivity. Qed.

Example dirname_samples :
  map dirname ["/a//b/../c/./d/"; "//a"; "///a"; "../x/.."; ""; "/"; "/a/b"]
  = ["/a//b/../c/./d"; "//"; "///"; "../x"; ""; "/"; "/a"].
Proof. reflexivity. Qed.

Example basename_samples :
  map basename ["/a//b/../c/./d/"; "//a"; "../x/.."; ""; "/"; "/a/b"]
  = [""; "a"; ".."; ""; ""; "b"].
Proof. reflexivity. Qed.

Example join_samples :
  [join "/backup" ["acme"; "November 2026"; "task_42"]; join "C:" ["/"; "a"; "b"];
   join "" ["x"]; join "a/" ["b"]; join "a" [""]]
  = ["/backup/acme/November 2026/task_42"; "/a/b"; "x"; "a/b"; "a/"].
Proof. reflexivity. Qed.

Example site_pattern_samples :
  map (λ p, map (λ r, re_search r p) site_patterns)
    ["\var\www\acme\index.php";
     "C:\Users\x\AppData\Local\Temp\fz3temp-2\site.com\public_html\a\b.php";
     "\srv\site.example\httpdocs\x.js"; "www\"; "x\local\"; "home\var\www\q"]
  = [[Some (Some "acme"); None; Some (Some "var")];
     [Some (Some "a"); None; Some (Some "site.com")];
     [None; None; Some (Some "site.example")];
     [None; None; None];
     [None; None; None];
     [Some (Some "var"); None; Some (Some "var")]].
Proof. vm_compute. reflexivity. Qed.

Example temp_pattern_samples :
  map (re_search temp_pattern)
    ["C:\Temp\abc\dir\file.txt"; "C:\Temp\\a\b"; "\var\www\acme\index.php";
     "C:\Users\x\AppData\Local\Temp\fz3temp-2\site.com\public_html\a\b.php"]
  = [Some (Some "dir\file.txt"); None; None;
     Some (Some "site.com\public_html\a\b.php")].
Proof. vm_compute. reflexivity. Qed.

Example relative_path_samples :
  map (_extract_relative_path (project_roots acme_world))
    ["/var/www/acme/index.php"; "C:\Temp\abc\dir\file.txt"; "/etc/hosts";
     "/srv/public_html/css/site.css"]
  = ["acme/index.php"; "dir/file.txt"; "hosts"; "css/site.css"].
Proof. vm_compute. reflexivity. Qed.

Example strftime_samples :
  (strftime_month_year (nov 13 5 9), strftime_stamp (nov 13 5 9),
   strftime_zip (nov 13 5 9))
  = ("November 2026", "2026-11-03 13:05:09", "03.11.2026.1305").
Proof. reflexivity. Qed.

(** ** Site-key sanitisation *)

Lemma keeps_in_key_split (c : ascii) :
  keeps_in_key c = ascii_key_char c || non_ascii_alnum c.
Proof. destruct c as [[] [] [] [] [] [] [] []]; vm_compute; reflexivity. Qed.

Lemma get_str_map (f : ascii → ascii) (s : string) (i : nat) :
  String.get i (str_map f s) = f <$> String.get i s.
Proof.
  revert i; induction s as [|c s IH]; intros [|i]; simpl; try reflexivity.
  apply IH.
Qed.

Lemma length_str_map (f : ascii → ascii) (s : string) :
  String.length (str_map f s) = String.length s.
Proof. induction s; simpl; congruence. Qed.

Lemma str_map_idem (f : ascii → ascii) (s : string) :
  (∀ c, f (f c) = f c) → str_map f (str_map f s) = str_map f s.
Proof. intros Hf; induction s; simpl; congruence. Qed.

(** C7 (as stated) fails: a letter outside ASCII is kept, so the key of
    "café" is "café" and not every character of it is in [[A-Za-z0-9_.-]]. *)
Lemma server_key_keeps_non_ascii_letter :
  server_key_of cafe = cafe
  ∧ str_forall ascii_key_char (server_key_of cafe) = false
  ∧ server_key_of cafe ≠ str_map (λ c, if ascii_key_char c then c else "_"%char) cafe.
Proof. vm_compute. split; [reflexivity|]. split; [reflexivity|discriminate]. Qed.

(** C7 (amended): the key has the length of the site name; at every
    position it keeps the character when it is in [[A-Za-z0-9_.-]] or is an
    alphanumeric character outside ASCII, and has "_" otherwise; so the key
    is made of such characters only. *)
Theorem server_key_of_chars (s : string) (i : nat) :
  String.length (server_key_of s) = String.length s
  ∧ String.get i (server_key_of s)
    = (λ c, if ascii_key_char c || non_ascii_alnum c then c else "_"%char)
        <$> String.get i s
  ∧ str_forall (λ c, ascii_key_char c || non_ascii_alnum c) (server_key_of s)
    = true.
Proof.
  unfold server_key_of, re_sub_class. split; [apply length_str_map|]. split.
  - rewrite get_str_map. destruct (String.get i s) as [c|]; simpl; [|reflexivity].
    rewrite keeps_in_key_split.
    destruct (ascii_key_char c || non_ascii_alnum c); reflexivity.
  - induction s as [|c s IH]; [reflexivity|]. cbn [str_map str_forall].
    rewrite IH, andb_true_r.
    destruct (keeps_in_key c) eqn:Hc; cbn [negb].
    + rewrite <- keeps_in_key_split. assumption.
    + reflexivity.
Qed.

(** Idempotence does not depend on the range of code points: it holds for
    any alphabet in which the underscore is a word character. *)
Lemma sanitize_over_idempotent {C : Type} (word extra : C → bool)
    (underscore : C) (s : list C) :
  word underscore = true →
  sanitize_over word extra underscore (sanitize_over word extra underscore s)
  = sanitize_over word extra underscore s.
Proof.
  intros Hu. unfold sanitize_over. rewrite map_map. apply map_ext. intros c.
  destruct (word c || extra c) eqn:Hc; cbn [negb].
  - rewrite Hc. reflexivity.
  - rewrite Hu. reflexivity.
Qed.

(** C8: sanitising a sanitised key gives it back. *)
Theorem server_key_of_idempotent (s : string) :
  server_key_of (server_key_of s) = server_key_of s.
Proof.
  unfold server_key_of, re_sub_class. apply str_map_idem. intros c.
  destruct (keeps_in_key c) eqn:Hc; simpl.
  - rewrite Hc. reflexivity.
  - reflexivity.
Qed.

(** ** Paths made of clean segments *)

Lemma str_app_cons (c : ascii) (s t : string) : String c s +:+ t = String c (s +:+ t).
Proof. reflexivity. Qed.

Lemma str_app_nil_l (s : string) : "" +:+ s = s.
Proof. reflexivity. Qed.

Lemma str_app_nil_r (s : string) : s +:+ "" = s.
Proof. induction s as [|c s IH]; [reflexivity|]. rewrite str_app_cons, IH. reflexivity. Qed.

Lemma app_assoc_str (s t u : string) : (s +:+ t) +:+ u = s +:+ t +:+ u.
Proof. induction s as [|c s IH]; [reflexivity|]. rewrite !str_app_cons, IH. reflexivity. Qed.

Lemma abs_path_slashed (parts : list string) :
  parts ≠ [] → abs_path parts = slashed parts.
Proof.
  unfold abs_path. induction parts as [|p rest IH]; [congruence|]. intros _.
  destruct rest as [|q rest].
  - simpl. rewrite str_app_nil_r. reflexivity.
  - change (str_join "/" (p :: q :: rest)) with (p +:+ "/" +:+ str_join "/" (q :: rest)).
    change (slashed (p :: q :: rest)) with (String sep (p +:+ slashed (q :: rest))).
    rewrite <- IH by congruence. reflexivity.
Qed.

Lemma slashed_snoc (parts : list string) (x : string) :
  slashed (parts ++ [x]) = slashed parts +:+ String sep x.
Proof.
  induction parts as [|p rest IH]; simpl.
  - rewrite str_app_nil_r. reflexivity.
  - rewrite IH, str_app_cons, app_assoc_str. reflexivity.
Qed.

Lemma clean_part_no_sep (p : string) : clean_part p = true → no_sep p = true.
Proof. unfold clean_part. intros H. apply andb_prop in H. tauto. Qed.

Lemma clean_part_nonempty (p : string) : clean_part p = true → p ≠ "".
Proof.
  unfold clean_part. intros H Hp. subst p. discriminate H.
Qed.

Lemma split_chr_cons (s : string) : ∃ h r, split_chr sep s = h :: r.
Proof.
  induction s as [|c s [h [r IH]]]; simpl; [eauto|].
  destruct (decide (c = sep)); [eauto|]. rewrite IH. eauto.
Qed.

Lemma split_chr_app (p s : string) :
  no_sep p = true →
  split_chr sep (p +:+ s)
  = match split_chr sep s with
    | h :: r => (p +:+ h) :: r
    | [] => [p]
    end.
Proof.
  unfold no_sep. induction p as [|c p IH]; intros Hp.
  - rewrite str_app_nil_l. destruct (split_chr_cons s) as [h [r ->]]. reflexivity.
  - simpl in Hp. apply andb_prop in Hp as [Hc Hp].
    rewrite str_app_cons. simpl. destruct (decide (c = sep)) as [->|_].
    + rewrite bool_decide_eq_true_2 in Hc by reflexivity. discriminate.
    + rewrite IH by assumption.
      destruct (split_chr_cons s) as [h [r ->]]. reflexivity.
Qed.

Lemma split_chr_slashed (parts : list string) :
  forallb clean_part parts = true →
  split_chr sep (slashed parts) = "" :: parts.
Proof.
  induction parts as [|p rest IH]; intros H; [reflexivity|].
  simpl in H. apply andb_prop in H as [Hp Hrest].
  simpl. destruct (decide (sep = sep)); [|congruence].
  rewrite split_chr_app by (apply clean_part_no_sep; assumption).
  rewrite IH by assumption. rewrite str_app_nil_r. reflexivity.
Qed.

Lemma filter_nonempty_clean (l : list string) :
  forallb clean_part l = true →
  List.filter (λ part, negb (bool_decide (part = ""))) l = l.
Proof.
  induction l as [|q l IH]; intros H; [reflexivity|].
  simpl in H. apply andb_prop in H as [Hq Hl]. simpl.
  rewrite bool_decide_eq_false_2 by (apply clean_part_nonempty; assumption).
  simpl. rewrite IH by assumption. reflexivity.
Qed.

Lemma folder_parts_of_abs (parts : list string) :
  forallb clean_part parts = true →
  folder_parts_of (abs_path parts) = parts.
Proof.
  intros H. destruct parts as [|p rest]; [reflexivity|].
  rewrite abs_path_slashed by congruence.
  unfold folder_parts_of. rewrite split_chr_slashed by assumption.
  change (List.filter ?f ("" :: ?l)) with (List.filter f l).
  apply filter_nonempty_clean. assumption.
Qed.

Lemma normpath_fold_clean (acc parts : list string) :
  forallb clean_part parts = true →
  foldl (normpath_step 1) acc parts = acc ++ parts.
Proof.
  revert acc. induction parts as [|p rest IH]; intros acc H; simpl.
  - rewrite app_nil_r. reflexivity.
  - simpl in H. apply andb_prop in H as [Hp Hrest].
    assert (normpath_step 1 acc p = acc ++ [p]) as ->.
    { unfold normpath_step. unfold clean_part in Hp.
      apply andb_prop in Hp as [_ Hp]. apply negb_true_iff in Hp.
      apply bool_decide_eq_false in Hp.
      rewrite !bool_decide_eq_false_2 by (intros ->; apply Hp; set_solver).
      reflexivity. }
    rewrite IH by assumption. rewrite <- app_assoc. reflexivity.
Qed.

Lemma startswith_slashed_2 (parts : list string) :
  forallb clean_part parts = true → startswith "//" (slashed parts) = false.
Proof.
  destruct parts as [|p rest]; [reflexivity|]. simpl. intros H.
  apply andb_prop in H as [Hp _].
  destruct p as [|c p]; [discriminate|].
  unfold clean_part, no_sep in Hp. simpl in Hp.
  rewrite str_app_cons. simpl.
  destruct (decide (c = sep)) as [->|Hne].
  - rewrite bool_decide_eq_true_2 in Hp by reflexivity. discriminate Hp.
  - rewrite (bool_decide_eq_false_2 ("/"%char = c)) by (intros <-; apply Hne; reflexivity).
    destruct (bool_decide _); reflexivity.
Qed.

(** [normpath] leaves a path of clean segments alone. *)
Lemma normpath_abs (parts : list string) :
  forallb clean_part parts = true → normpath (abs_path parts) = abs_path parts.
Proof.
  intros H. destruct parts as [|p rest]; [reflexivity|].
  rewrite abs_path_slashed by congruence.
  unfold normpath.
  rewrite bool_decide_eq_false_2 by discriminate.
  rewrite startswith_slashed_2 by assumption.
  change (startswith "/" (slashed (p :: rest))) with true. cbv iota. simpl andb.
  cbv iota.
  rewrite split_chr_slashed by assumption.
  change (foldl (normpath_step 1) [] ("" :: p :: rest))
    with (foldl (normpath_step 1) [] (p :: rest)).
  rewrite normpath_fold_clean by assumption. rewrite app_nil_l.
  change (str_take 1 "//") with "/".
  fold (abs_path (p :: rest)).
  rewrite abs_path_slashed by congruence.
  rewrite bool_decide_eq_false_2 by discriminate. reflexivity.
Qed.

Lemma rsplit_sep_no_sep (x : string) : no_sep x = true → rsplit_sep x = ("", x).
Proof.
  unfold no_sep. induction x as [|c x IH]; intros H; [reflexivity|].
  simpl in H. apply andb_prop in H as [Hc Hx]. simpl.
  rewrite IH by assumption.
  destruct (decide (c = sep)) as [->|_]; [|reflexivity].
  rewrite bool_decide_eq_true_2 in Hc by reflexivity. discriminate.
Qed.

Lemma rsplit_sep_app (s x : string) :
  no_sep x = true → rsplit_sep (s +:+ String sep x) = (s +:+ "/", x).
Proof.
  intros Hx. induction s as [|c s IH].
  - rewrite !str_app_nil_l. simpl. rewrite rsplit_sep_no_sep by assumption.
    destruct (decide (sep = sep)); [reflexivity|congruence].
  - rewrite !str_app_cons. simpl. rewrite IH.
    destruct (s +:+ "/") eqn:E; [|reflexivity].
    destruct s; discriminate E.
Qed.

Lemma rstrip_app_sep (s : string) : rstrip_chr sep (s +:+ "/") = rstrip_chr sep s.
Proof.
  induction s as [|a s IH]; [reflexivity|].
  rewrite str_app_cons. simpl. rewrite IH. reflexivity.
Qed.

Lemma rstrip_no_sep (p : string) :
  p ≠ "" → no_sep p = true → rstrip_chr sep p = p.
Proof.
  unfold no_sep. induction p as [|a t IH]; intros Hne H; [congruence|].
  simpl in H. apply andb_prop in H as [Ha Ht]. simpl.
  destruct t as [|b t].
  - simpl. destruct (decide (a = sep)) as [->|_]; [|reflexivity].
    rewrite bool_decide_eq_true_2 in Ha by reflexivity. discriminate.
  - rewrite IH by (assumption || discriminate). reflexivity.
Qed.

Lemma rstrip_app_no_sep (s p : string) :
  p ≠ "" → no_sep p = true → rstrip_chr sep (s +:+ p) = s +:+ p.
Proof.
  intros Hne Hp. induction s as [|a s IH].
  - rewrite str_app_nil_l. apply rstrip_no_sep; assumption.
  - rewrite str_app_cons. simpl. rewrite IH.
    destruct (s +:+ p) eqn:E; [|reflexivity].
    destruct s; [rewrite str_app_nil_l in E; congruence|discriminate E].
Qed.

Lemma all_sep_slashed (parts : list string) (s : string) :
  parts ≠ [] → forallb clean_part parts = true →
  str_forall (λ c, bool_decide (c = sep)) (slashed parts +:+ s) = false.
Proof.
  destruct parts as [|p rest]; [congruence|]. intros _ H.
  simpl in H. apply andb_prop in H as [Hp _].
  destruct p as [|c p]; [discriminate|].
  unfold clean_part, no_sep in Hp. simpl in Hp.
  simpl.
  destruct (decide (c = sep)) as [->|Hne].
  - rewrite bool_decide_eq_true_2 in Hp by reflexivity. discriminate Hp.
  - rewrite (bool_decide_eq_false_2 (c = sep)) by assumption. reflexivity.
Qed.

Lemma forallb_snoc {A} (f : A → bool) (l : list A) (x : A) :
  forallb f (l ++ [x]) = forallb f l && f x.
Proof. rewrite forallb_app. simpl. rewrite andb_true_r. reflexivity. Qed.

Lemma basename_abs_snoc (parts : list string) (x : string) :
  forallb clean_part (parts ++ [x]) = true →
  basename (abs_path (parts ++ [x])) = x.
Proof.
  rewrite forallb_snoc. intros H. apply andb_prop in H as [_ Hx].
  rewrite abs_path_slashed by (destruct parts; discriminate).
  rewrite slashed_snoc. unfold basename.
  rewrite rsplit_sep_app by (apply clean_part_no_sep; assumption). reflexivity.
Qed.

Lemma dirname_abs_snoc (parts : list string) (x : string) :
  forallb clean_part (parts ++ [x]) = true →
  dirname (abs_path (parts ++ [x])) = abs_path parts.
Proof.
  rewrite forallb_snoc. intros H. apply andb_prop in H as [Hparts Hx].
  rewrite abs_path_slashed by (destruct parts; discriminate).
  rewrite slashed_snoc. unfold dirname.
  rewrite rsplit_sep_app by (apply clean_part_no_sep; assumption).
  cbn [fst].
  destruct parts as [|p rest _] using rev_ind; [reflexivity|].
  rewrite all_sep_slashed by (assumption || (destruct rest; discriminate)).
  rewrite rstrip_app_sep.
  rewrite abs_path_slashed by (destruct rest; discriminate).
  rewrite forallb_snoc in Hparts. apply andb_prop in Hparts as [_ Hp].
  rewrite slashed_snoc.
  change (String sep p) with ("/" +:+ p). rewrite <- app_assoc_str.
  apply rstrip_app_no_sep.
  - apply clean_part_nonempty; assumption.
  - apply clean_part_no_sep; assumption.
Qed.

(** The parent of a path of clean segments drops the last segment. *)
Lemma dirname_abs (parts : list string) :
  forallb clean_part parts = true →
  dirname (abs_path parts) = abs_path (removelast parts).
Proof.
  destruct parts as [|x init _] using rev_ind; [reflexivity|].
  intros H. rewrite removelast_last. apply dirname_abs_snoc. assumption.
Qed.

Lemma basename_abs (parts : list string) :
  forallb clean_part parts = true →
  basename (abs_path parts) = default "" (last parts).
Proof.
  destruct parts as [|x init _] using rev_ind; [reflexivity|].
  intros H. rewrite last_snoc. apply basename_abs_snoc. assumption.
Qed.

Lemma forallb_removelast {A} (f : A → bool) (l : list A) :
  forallb f l = true → forallb f (removelast l) = true.
Proof.
  destruct l as [|x init _] using rev_ind; [reflexivity|].
  rewrite removelast_last, forallb_snoc. intros H.
  apply andb_prop in H. tauto.
Qed.

Lemma forallb_take {A} (f : A → bool) (n : nat) (l : list A) :
  forallb f l = true → forallb f (take n l) = true.
Proof.
  revert n. induction l as [|x l IH]; intros [|n] H; try reflexivity.
  simpl in *. apply andb_prop in H as [Hx Hl].
  rewrite Hx, IH by assumption. reflexivity.
Qed.

Lemma str_drop_last (a : ascii) (t : string) :
  t ≠ "" →
  str_drop (String.length (String a t) - 1) (String a t)
  = str_drop (String.length t - 1) t.
Proof. destruct t as [|b t]; [congruence|]. intros _. simpl. rewrite Nat.sub_0_r. reflexivity. Qed.

Lemma endswith_sep_no_sep (p : string) :
  p ≠ "" → no_sep p = true → endswith "/" p = false.
Proof.
  unfold endswith, no_sep. change (String.length "/") with 1.
  induction p as [|a t IH]; intros Hne H; [congruence|].
  simpl in H. apply andb_prop in H as [Ha Ht].
  destruct t as [|b t].
  - simpl. destruct (decide (a = sep)) as [->|Hn].
    + rewrite bool_decide_eq_true_2 in Ha by reflexivity. discriminate.
    + rewrite bool_decide_eq_false_2; [reflexivity|].
      intros [= ->]. apply Hn. reflexivity.
  - rewrite str_drop_last by discriminate.
    specialize (IH ltac:(discriminate) Ht).
    apply andb_false_iff in IH as [IH|IH]; [simpl in IH; discriminate|].
    rewrite IH. apply andb_false_r.
Qed.

Lemma endswith_sep_app (s p : string) :
  p ≠ "" → no_sep p = true → endswith "/" (s +:+ p) = false.
Proof.
  intros Hne Hp. induction s as [|a s IH].
  - rewrite str_app_nil_l. apply endswith_sep_no_sep; assumption.
  - rewrite str_app_cons. unfold endswith in *. change (String.length "/") with 1 in *.
    rewrite str_drop_last.
    + apply andb_false_iff in IH as [IH|IH].
      * destruct (s +:+ p) eqn:E; [|simpl in IH; discriminate].
        destruct s; [rewrite str_app_nil_l in E; congruence|discriminate E].
      * rewrite IH. apply andb_false_r.
    + destruct s; [rewrite str_app_nil_l; assumption|discriminate].
Qed.

Lemma startswith_sep_clean (p : string) :
  clean_part p = true → startswith "/" p = false.
Proof.
  destruct p as [|c p]; [discriminate|]. unfold clean_part, no_sep. simpl.
  intros H. destruct (decide (c = sep)) as [->|Hne].
  - rewrite bool_decide_eq_true_2 in H by reflexivity. discriminate H.
  - rewrite (bool_decide_eq_false_2 ("/"%char = c)) by (intros <-; apply Hne; reflexivity).
    reflexivity.
Qed.

Lemma join2_slashed (acc : list string) (p : string) :
  acc ≠ [] → forallb clean_part acc = true → clean_part p = true →
  join2 (slashed acc) p = slashed (acc ++ [p]).
Proof.
  intros Hne Hacc Hp. unfold join2.
  rewrite startswith_sep_clean by assumption.
  destruct acc as [|x init _] using rev_ind; [congruence|].
  rewrite forallb_snoc in Hacc. apply andb_prop in Hacc as [_ Hx].
  rewrite bool_decide_eq_false_2 by (destruct init; discriminate).
  rewrite (slashed_snoc init x).
  change (String sep x) with ("/" +:+ x). rewrite <- app_assoc_str.
  rewrite endswith_sep_app
    by (apply clean_part_nonempty || apply clean_part_no_sep; assumption).
  simpl orb. cbv iota. rewrite app_assoc_str.
  rewrite (slashed_snoc (init ++ [x]) p), (slashed_snoc init x).
  rewrite !app_assoc_str. reflexivity.
Qed.

Lemma join_slashed (acc parts : list string) :
  acc ≠ [] → forallb clean_part acc = true → forallb clean_part parts = true →
  foldl join2 (slashed acc) parts = slashed (acc ++ parts).
Proof.
  revert acc. induction parts as [|p rest IH]; intros acc Hne Hacc H; simpl.
  - rewrite app_nil_r. reflexivity.
  - simpl in H. apply andb_prop in H as [Hp Hrest].
    rewrite join2_slashed by assumption.
    rewrite IH.
    + rewrite <- app_assoc. reflexivity.
    + destruct acc; discriminate.
    + rewrite forallb_snoc, Hacc, Hp. reflexivity.
    + assumption.
Qed.

(** Joining clean segments onto the root gives their path. *)
Lemma join_root_abs (parts : list string) :
  forallb clean_part parts = true → join "/" parts = abs_path parts.
Proof.
  destruct parts as [|p rest]; [reflexivity|]. intros H.
  pose proof H as H'. simpl in H'. apply andb_prop in H' as [Hp Hrest].
  unfold join. simpl foldl.
  assert (join2 "/" p = slashed [p]) as ->.
  { unfold join2. rewrite startswith_sep_clean by assumption.
    simpl. rewrite str_app_nil_r. reflexivity. }
  rewrite join_slashed; try assumption; try discriminate.
  - rewrite abs_path_slashed by discriminate. reflexivity.
  - simpl. rewrite Hp. reflexivity.
Qed.

(** On posix a drive prefix is dropped by the absolute second argument. *)
Lemma join_drive (drive : string) (parts : list string) :
  join drive ("/" :: parts) = join "/" parts.
Proof. reflexivity. Qed.

(** Where [zip_dir_of] puts the archive, in terms of path segments. *)
Lemma zip_dir_of_abs (parts : list string) :
  forallb clean_part parts = true →
  zip_dir_of (abs_path parts) parts
  = match find_index (startswith "task_") parts with
    | Some i => abs_path (take (S i) parts)
    | None =>
        if bool_decide (default "" (last parts) ∈ ["before"; "after"])
        then abs_path (removelast (removelast parts))
        else abs_path (removelast parts)
    end.
Proof.
  intros H. unfold zip_dir_of.
  destruct (find_index (startswith "task_") parts) as [i|].
  - rewrite Nat.add_1_r.
    destruct (str_in ":" (abs_path parts)).
    + rewrite join_drive. apply join_root_abs, forallb_take, H.
    + apply join_root_abs, forallb_take, H.
  - rewrite basename_abs, dirname_abs by assumption.
    destruct (bool_decide _); [|reflexivity].
    apply dirname_abs, forallb_removelast, H.
Qed.

(** ** The walk up the directories ends within its bound *)

Lemma rsplit_sep_length (p : string) :
  String.length (fst (rsplit_sep p)) + String.length (snd (rsplit_sep p))
  = String.length p.
Proof.
  induction p as [|c p IH]; [reflexivity|]. simpl.
  destruct (rsplit_sep p) as [h t]. cbn [fst snd] in IH.
  destruct h as [|a h].
  - destruct (decide (c = sep)); cbn in *; lia.
  - cbn in *. lia.
Qed.

Lemma rstrip_chr_length (c : ascii) (s : string) :
  String.length (rstrip_chr c s) ≤ String.length s.
Proof.
  induction s as [|a s IH]; [reflexivity|]. simpl.
  destruct (rstrip_chr c s) as [|b t].
  - destruct (decide (a = c)); cbn; lia.
  - cbn in *. lia.
Qed.

Lemma rsplit_sep_tail_empty (p : string) :
  snd (rsplit_sep p) = "" → fst (rsplit_sep p) = p.
Proof.
  intros H. pose proof (rsplit_sep_length p) as L. rewrite H in L.
  induction p as [|c p IH]; [reflexivity|]. simpl in *.
  destruct (rsplit_sep p) as [h t]. cbn [fst snd] in *.
  destruct h as [|a h].
  - destruct (decide (c = sep)); cbn in *; [|discriminate].
    subst p. reflexivity.
  - cbn in *. f_equal. apply IH; [assumption|lia].
Qed.

Lemma rstrip_chr_shorter (p : string) :
  p ≠ "" → snd (rsplit_sep p) = "" →
  String.length (rstrip_chr sep p) < String.length p.
Proof.
  induction p as [|c p IH]; [congruence|]. intros _ H. simpl in *.
  destruct (rsplit_sep p) as [h t] eqn:E. cbn [fst snd] in *.
  destruct h as [|a h].
  - destruct (decide (c = sep)) as [->|]; cbn in H; [|discriminate].
    subst p. cbn. destruct (decide (sep = sep)); [cbn; lia|congruence].
  - cbn in H. subst t.
    assert (p ≠ "") as Hp by (intros ->; discriminate E).
    specialize (IH Hp eq_refl).
    destruct (rstrip_chr sep p) as [|b t'].
    + destruct (decide (c = sep)); cbn in *; lia.
    + cbn in *. lia.
Qed.

(** The parent of a path is shorter than the path, unless the path is empty
    or the root. *)
Lemma dirname_shorter (p : string) :
  p ≠ "" → root_like p = false →
  String.length (dirname p) < String.length p.
Proof.
  intros Hne Hroot. unfold dirname.
  pose proof (rsplit_sep_length p) as L.
  destruct (snd (rsplit_sep p)) as [|a t] eqn:Ht.
  - pose proof (rsplit_sep_tail_empty p Ht) as Hh. rewrite Hh.
    destruct (str_forall _ p) eqn:Hall.
    + unfold root_like in Hroot. rewrite Hall in Hroot.
      rewrite bool_decide_eq_false_2 in Hroot by assumption. discriminate.
    + apply rstrip_chr_shorter; assumption.
  - cbn in L.
    destruct (str_forall _ (fst (rsplit_sep p))); [lia|].
    pose proof (rstrip_chr_length sep (fst (rsplit_sep p))). lia.
Qed.

(** More fuel than the length of the path changes nothing. *)
Lemma ancestors_upto_enough (n : nat) (p : string) :
  String.length p ≤ n → ancestors_upto n p = ancestors p.
Proof.
  unfold ancestors.
  assert (∀ m k q, String.length q ≤ m → String.length q ≤ k →
                   ancestors_upto m q = ancestors_upto k q) as H.
  { induction m as [|m IH]; intros k q Hm Hk.
    - destruct q; [|cbn in Hm; lia]. destruct k; reflexivity.
    - destruct k as [|k].
      + destruct q; [reflexivity|cbn in Hk; lia].
      + simpl. destruct (bool_decide_reflect (q = "")) as [->|Hq]; [reflexivity|].
        cbn [orb]. destruct (root_like q) eqn:Hr; [reflexivity|].
        f_equal. pose proof (dirname_shorter q Hq Hr). apply IH; lia. }
  intros Hn. apply H; [assumption|reflexivity].
Qed.

(** ** One-or-more of a character class *)

(** [re.match] of a pattern [[...]+] looks at the first character only. *)
Lemma re_match_plus_set (p : ascii → bool) (s : string) :
  re_match (RPlus (RSet p)) s
  = match s with
    | String c _ => if p c then Some None else None
    | EmptyString => None
    end.
Proof.
  unfold re_match. cbn [rmatch].
  generalize (String.length s) as n. generalize (@None string) as g.
  intros g n. revert s.
  induction n as [|n IH]; intros s; destruct s as [|c t]; try reflexivity.
  destruct (p c); [|reflexivity].
  rewrite IH. destruct t as [|c' t']; [reflexivity|].
  destruct (p c'); reflexivity.
Qed.

(** A path segment names the site for the archive when it starts with a
    word character, a hyphen or a dot, is not a task folder and is not a
    leaf. *)
Lemma names_site_first_char (part : string) :
  names_site part
  = match part with
    | String c _ =>
        keeps_in_key c && negb (startswith "task_" part)
        && negb (bool_decide (part ∈ ["before"; "after"]))
    | EmptyString => false
    end.
Proof.
  unfold names_site, site_part_pattern. rewrite re_match_plus_set.
  destruct part as [|c t]; [reflexivity|].
  destruct (keeps_in_key c); reflexivity.
Qed.

(** ** Running statements: inversion *)

Lemma bind_ok {A B} (m : M A) (k : A → M B) (w w' : state) (b : B) :
  bind m k w = (Ok b, w') → ∃ a w1, m w = (Ok a, w1) ∧ k a w1 = (Ok b, w').
Proof.
  unfold bind. destruct (m w) as [[a|e] w1]; intros H; [eauto|discriminate].
Qed.

Lemma bind_run {A B} (m : M A) (k : A → M B) (w w1 : state) (a : A) :
  m w = (Ok a, w1) → bind m k w = k a w1.
Proof. unfold bind. intros ->. reflexivity. Qed.

Lemma grow_refl (t : gmap string node) : grow t t.
Proof. split; [tauto|auto]. Qed.

Lemma grow_trans (t1 t2 t3 : gmap string node) :
  grow t1 t2 → grow t2 t3 → grow t1 t3.
Proof.
  intros [F1 D1] [F2 D2]. split.
  - intros p d. rewrite F2. apply F1.
  - auto.
Qed.

Lemma grown_refl (w : state) : grown w w.
Proof. exists (fs w). split; [apply grow_refl|]. destruct w; reflexivity. Qed.

Lemma grow_stat_file (t t' : gmap string node) (p : string) (d : data) :
  grow t t' → (stat t' p = Some (File d) ↔ stat t p = Some (File d)).
Proof.
  intros [F _]. unfold stat. destruct (root_like p); [tauto|apply F].
Qed.

Lemma grow_stat_dir (t t' : gmap string node) (p : string) :
  grow t t' → stat t p = Some Dir → stat t' p = Some Dir.
Proof.
  intros [_ D]. unfold stat. destruct (root_like p); [tauto|apply D].
Qed.

Lemma lookup_mkdirs (l : list string) (t : gmap string node) (p : string) :
  foldr (λ d t', <[d := Dir]> t') t l !! p
  = if bool_decide (p ∈ l) then Some Dir else t !! p.
Proof.
  induction l as [|q l IH]; simpl; [reflexivity|].
  destruct (decide (q = p)) as [->|Hne].
  - rewrite lookup_insert_eq.
    rewrite bool_decide_eq_true_2 by (apply elem_of_cons; auto). reflexivity.
  - rewrite lookup_insert_ne by assumption. rewrite IH.
    destruct (bool_decide_reflect (p ∈ l)) as [Hin|Hin].
    + rewrite bool_decide_eq_true_2 by (apply elem_of_cons; auto). reflexivity.
    + rewrite bool_decide_eq_false_2 by (apply not_elem_of_cons; auto). reflexivity.
Qed.

Lemma existsb_is_file_false (t : gmap string node) (l : list string) (p : string) (d : data) :
  existsb (is_file t) l = false → t !! p = Some (File d) → p ∉ l.
Proof.
  intros H Hp Hin. apply list_elem_of_In in Hin.
  assert (existsb (is_file t) l = true) as E.
  { apply existsb_exists. exists p. split; [assumption|].
    unfold is_file. rewrite Hp. reflexivity. }
  congruence.
Qed.

Lemma makedirs_ok (p : string) (w w' : state) :
  makedirs p w = (Ok tt, w') → grown w w'.
Proof.
  unfold makedirs.
  destruct (bool_decide (p = "")); [discriminate|].
  destruct (is_file (fs w) p); [discriminate|].
  destruct (existsb (is_file (fs w)) (ancestors p)) eqn:E; [discriminate|].
  intros [= <-]. eexists. split; [|reflexivity].
  split.
  - intros q d. rewrite lookup_mkdirs.
    destruct (bool_decide_reflect (q ∈ ancestors p)) as [Hin|Hin]; [|tauto].
    split; [discriminate|]. intros Hq.
    exfalso. eapply existsb_is_file_false; eassumption.
  - intros q Hq. rewrite lookup_mkdirs. rewrite Hq.
    destruct (bool_decide _); reflexivity.
Qed.

Lemma when_makedirs_ok (b : bool) (p : string) (w w' : state) :
  when b (makedirs p) w = (Ok tt, w') → grown w w'.
Proof.
  destruct b; simpl.
  - apply makedirs_ok.
  - intros [= <-]. apply grown_refl.
Qed.

Lemma copy2_ok (src dst : string) (w w' : state) :
  copy2 src dst w = (Ok tt, w') →
  ∃ d dst',
    stat (fs w) src = Some (File d)
    ∧ dst' = match stat (fs w) dst with
             | Some Dir => join2 dst (basename src)
             | _ => dst
             end
    ∧ src ≠ dst'
    ∧ stat (fs w) dst' ≠ Some Dir
    ∧ w' = set_fs <[dst' := File d]> w.
Proof.
  unfold copy2. destruct (stat (fs w) src) as [[d|]|]; try discriminate.
  set (dst' := match stat (fs w) dst with Some Dir => _ | _ => dst end).
  destruct (bool_decide_reflect (src = dst')) as [|Hne]; [discriminate|].
  intros H. exists d, dst'.
  assert (stat (fs w) dst' ≠ Some Dir ∧ w' = set_fs <[dst' := File d]> w) as [? ?];
    [|repeat split; auto].
  destruct (stat (fs w) dst') as [[d'|]|] eqn:E; try discriminate;
    (split; [discriminate|]);
    destruct (stat (fs w) (dirname dst')) as [[?|]|]; try discriminate;
    try (destruct (bool_decide _); [|discriminate]);
    injection H as H; symmetry; exact H.
Qed.

Lemma remove_ok (p : string) (w w' : state) :
  remove p w = (Ok tt, w') →
  ∃ d, stat (fs w) p = Some (File d) ∧ w' = set_fs (delete p) w.
Proof.
  unfold remove. destruct (stat (fs w) p) as [[d|]|]; try discriminate.
  intros [= <-]. eauto.
Qed.

Lemma extract_site_name_run (file_path : string) (w : state) :
  ∃ s, extract_site_name file_path w = (Ok s, w).
Proof.
  unfold extract_site_name, try_except.
  destruct (site_by_pattern _ _); [eexists; reflexivity|].
  destruct (site_before_webroot _ _); [eexists; reflexivity|].
  destruct (List.find _ _); eexists; reflexivity.
Qed.

(** One step of a run that does not raise. *)
Ltac run_step H Hs :=
  let a := fresh "a" in
  let w1 := fresh "w" in
  apply bind_ok in H as (a & w1 & Hs & H);
  try match type of a with unit => destruct a end.

(** A step that reads the world, or the clock. *)
Ltac run_read H :=
  let Hs := fresh "Hs" in
  run_step H Hs;
  cbv [datetime_now gets path_exists ret modify] in Hs;
  injection Hs as <- <-.

(** What [backup_dirs] leaves behind when it does not raise: one reading of
    the clock, some new directories, and the two slot directories of the
    layout. *)
Lemma backup_dirs_ok (file_path : string) (server_name task_number : option string)
    (w w' : state) (c : backup_ctx) :
  backup_dirs file_path server_name task_number w = (Ok c, w') →
  grown (tick w) w'
  ∧ site_name c = resolve_site file_path server_name w
  ∧ relative_path c = _extract_relative_path (project_roots w) file_path
  ∧ before_path c
    = join (task_folder_of (site_name c) task_number (clock w (ticks w)) (backup_root w))
        ["before"]
  ∧ after_path c
    = join (task_folder_of (site_name c) task_number (clock w (ticks w)) (backup_root w))
        ["after"].
Proof.
  unfold backup_dirs. intros H.
  run_step H Hs.
  assert (a = resolve_site file_path server_name w ∧ w0 = w) as [-> ->].
  { unfold resolve_site, result. destruct (truthy server_name).
    - injection Hs as <- <-. auto.
    - unfold self_call in Hs. simpl in Hs.
      destruct (extract_site_name_run file_path w) as [s Hr].
      rewrite Hr in Hs |- *. injection Hs as <- <-. auto. }
  clear Hs.
  run_read H. run_read H. run_read H.
  run_step H Hs. apply when_makedirs_ok in Hs as (t1 & G1 & ->).
  run_read H.
  run_step H Hs. apply when_makedirs_ok in Hs as (t2 & G2 & ->).
  run_read H.
  run_step H Hs. apply when_makedirs_ok in Hs as (t3 & G3 & ->).
  run_step H Hs. apply makedirs_ok in Hs as (t4 & G4 & ->).
  run_step H Hs. apply makedirs_ok in Hs as (t5 & G5 & ->).
  run_read H.
  injection H as <- <-. cbn in *.
  split; [|split; [reflexivity|split; [reflexivity|split]]].
  - exists t5. split; [|reflexivity]. cbn.
    eauto using grow_trans.
  - unfold task_folder_of. destruct (truthy task_number); reflexivity.
  - unfold task_folder_of. destruct (truthy task_number); reflexivity.
Qed.

(** ** The end of a call *)

Lemma touch_entry_run (c : backup_ctx) (w : state) :
  touch_entry c w = (Ok tt, touched c w).
Proof.
  unfold touch_entry, touched, bind, gets.
  destruct (server_backup_map w !! relative_path c); reflexivity.
Qed.

Lemma fs_touched (c : backup_ctx) (w : state) : fs (touched c w) = fs w.
Proof. unfold touched. destruct (_ !! _); reflexivity. Qed.

(** [self._save_config()] raises: the class has no such attribute. *)
Lemma save_config_call_raises (w : state) :
  self_call "_save_config" _save_config w = (Raise AttributeError, w).
Proof. reflexivity. Qed.

(** A call never raises, whatever happens inside. *)
Lemma backup_file_returns (file_path : string) (server_name mode task_number : option string)
    (w : state) :
  ∃ r, result (backup_file file_path server_name mode task_number) w = Ok r.
Proof.
  unfold result, backup_file, try_except.
  destruct (if is_excluded file_path then _ else _) as [[r|e] w']; simpl; eauto.
Qed.

(** X1: every call of [backup_file] answers [(None, None)], in every mode
    and whatever happens inside: it never raises, and the pair of slot
    directories of line 248 is never returned, because
    [self._save_config()] (line 246) raises first. *)
Lemma backup_file_sentinel (file_path : string)
    (server_name mode task_number : option string) (w : state) :
  result (backup_file file_path server_name mode task_number) w = Ok (None, None).
Proof.
  unfold result, backup_file, try_except.
  destruct (is_excluded file_path); [reflexivity|].
  unfold bind at 1, path_exists, gets.
  destruct (bool_decide _); cbn [negb]; [|reflexivity].
  unfold bind at 1.
  destruct (backup_writes file_path server_name mode task_number w) as [[c|e] w1];
    [|reflexivity].
  unfold bind at 1. rewrite touch_entry_run.
  unfold bind at 1. rewrite save_config_call_raises. reflexivity.
Qed.

(** Once the copies are made the call touches the entry, fails to save and
    answers with the sentinel. *)
Lemma backup_file_after_writes (file_path : string)
    (server_name mode task_number : option string) (w w1 : state) (c : backup_ctx) :
  is_excluded file_path = false →
  is_Some (stat (fs w) file_path) →
  backup_writes file_path server_name mode task_number w = (Ok c, w1) →
  backup_file file_path server_name mode task_number w
  = (Ok (None, None), touched c w1).
Proof.
  intros Hex Hf Hw. unfold backup_file, try_except. rewrite Hex.
  unfold bind at 1. unfold path_exists, gets.
  rewrite bool_decide_eq_true_2 by assumption. cbn [negb].
  unfold bind at 1. rewrite Hw.
  unfold bind at 1. rewrite touch_entry_run.
  unfold bind at 1. rewrite save_config_call_raises. reflexivity.
Qed.

(** ** The three modes, when no call raises *)

(** Lines 216-219 and 237-240: the slot is removed if it is there and
    written again. *)
Lemma refresh_ok (file_path slot : string) (d : data) (w w' : state) :
  stat (fs w) file_path = Some (File d) →
  (let* ex := path_exists slot in
   when ex (remove slot);;; copy2 file_path slot) w = (Ok tt, w') →
  file_path ≠ slot
  ∧ stat (fs w) slot ≠ Some Dir
  ∧ w' = set_fs (λ _, <[slot := File d]> (fs w)) w.
Proof.
  intros Hf H. run_read H.
  destruct (bool_decide_reflect (is_Some (stat (fs w) slot))) as [Hex|Hex].
  - run_step H Hs. cbn in Hs. apply remove_ok in Hs as (d0 & Hslot & ->).
    apply copy2_ok in H as (d' & dst' & Hsrc & Hdst & Hne & _ & ->).
    cbn in Hsrc, Hdst.
    assert (root_like slot = false) as Hr.
    { unfold stat in Hslot. destruct (root_like slot); [discriminate|reflexivity]. }
    assert (dst' = slot) as ->.
    { rewrite Hdst. unfold stat. rewrite Hr, lookup_delete_eq. reflexivity. }
    split; [assumption|]. split; [congruence|].
    assert (d' = d) as ->.
    { unfold stat in Hsrc, Hf. destruct (root_like file_path); [discriminate|].
      rewrite lookup_delete_ne in Hsrc by congruence. congruence. }
    unfold set_fs. cbn. rewrite insert_delete_eq. reflexivity.
  - run_step H Hs. cbn in Hs. injection Hs as <-.
    apply copy2_ok in H as (d' & dst' & Hsrc & Hdst & Hne & _ & ->).
    assert (dst' = slot) as ->.
    { rewrite Hdst. destruct (stat (fs w) slot) eqn:E; [|reflexivity].
      exfalso. apply Hex. eauto. }
    split; [assumption|]. split; [intros E; apply Hex; eauto|].
    replace d' with d by congruence. reflexivity.
Qed.

Lemma backup_copy_before_ok (file_path : string) (c : backup_ctx) (d : data)
    (w w' : state) :
  stat (fs w) file_path = Some (File d) →
  backup_copy file_path (Some "before") c w = (Ok tt, w') →
  ∃ t dst',
    grow (fs w) t
    ∧ dst' = copy_target t file_path (join (before_path c) [relative_path c])
    ∧ file_path ≠ dst'
    ∧ stat t dst' ≠ Some Dir
    ∧ w' = match server_backup_map w !! relative_path c with
           | Some _ => set_fs (λ _, <[dst' := File d]> t) w
           | None => with_new_entry c (set_fs (λ _, <[dst' := File d]> t) w)
           end.
Proof.
  intros Hf Hc.
  unfold backup_copy in Hc. rewrite bool_decide_eq_true_2 in Hc by reflexivity.
  run_step Hc Hs. apply makedirs_ok in Hs as (t & G & ->).
  run_step Hc Hs. apply copy2_ok in Hs as (d' & dst' & Hsrc & Hdst & Hne & Hnd & ->).
  cbn in Hsrc, Hdst, Hnd.
  assert (d' = d) as ->.
  { apply (grow_stat_file _ _ file_path d) in G. apply G in Hf. congruence. }
  exists t, dst'. repeat (split; [assumption|]).
  unfold create_entry_if_absent in Hc. run_read Hc. cbn in Hc.
  destruct (server_backup_map w !! relative_path c).
  - injection Hc as <-. reflexivity.
  - run_read Hc. cbv [modify] in Hc. injection Hc as <-. reflexivity.
Qed.

Lemma backup_copy_after_ok (file_path : string) (c : backup_ctx) (d : data)
    (w w' : state) :
  stat (fs w) file_path = Some (File d) →
  backup_copy file_path (Some "after") c w = (Ok tt, w') →
  ∃ t,
    grow (fs w) t
    ∧ file_path ≠ join (after_path c) [relative_path c]
    ∧ w' = set_fs (λ _, <[join (after_path c) [relative_path c] := File d]> t) w.
Proof.
  intros Hf Hc.
  unfold backup_copy in Hc. rewrite bool_decide_eq_false_2 in Hc by discriminate.
  rewrite bool_decide_eq_true_2 in Hc by reflexivity.
  run_step Hc Hs. apply makedirs_ok in Hs as (t & G & ->).
  apply refresh_ok with (d := d) in Hc as (Hne & _ & ->).
  - exists t. auto.
  - cbn. apply (grow_stat_file _ _ file_path d) in G. apply G. assumption.
Qed.

Lemma backup_copy_auto_ok (file_path : string) (mode : option string)
    (c : backup_ctx) (d : data) (w w' : state) :
  mode ≠ Some "before" → mode ≠ Some "after" →
  stat (fs w) file_path = Some (File d) →
  backup_copy file_path mode c w = (Ok tt, w') →
  let slot := join (after_path c) [relative_path c] in
  ∃ t,
    grow (fs w) t
    ∧ file_path ≠ slot
    ∧ match server_backup_map w !! relative_path c with
      | Some _ => w' = set_fs (λ _, <[slot := File d]> t) w
      | None =>
          ∃ dst',
            dst' = copy_target t file_path (join (before_path c) [relative_path c])
            ∧ file_path ≠ dst'
            ∧ stat t dst' ≠ Some Dir
            ∧ stat (<[dst' := File d]> t) slot ≠ Some Dir
            ∧ w' = with_new_entry c
                     (set_fs (λ _, <[slot := File d]> (<[dst' := File d]> t)) w)
      end.
Proof.
  intros Hb Ha Hf Hc. cbv zeta.
  unfold backup_copy in Hc. rewrite !bool_decide_eq_false_2 in Hc by assumption.
  run_step Hc Hs. apply makedirs_ok in Hs as (t1 & G1 & ->).
  run_step Hc Hs. apply makedirs_ok in Hs as (t2 & G2 & ->).
  cbn in G2.
  assert (grow (fs w) t2) as G by (eapply grow_trans; eassumption).
  assert (stat t2 file_path = Some (File d)) as Hf2.
  { apply (grow_stat_file _ _ file_path d) in G. apply G. assumption. }
  exists t2. split; [assumption|].
  run_read Hc. cbn in Hc.
  destruct (server_backup_map w !! relative_path c) eqn:E.
  - rewrite bool_decide_eq_false_2 in Hc by discriminate.
    run_step Hc Hs. cbn in Hs. injection Hs as <-.
    apply refresh_ok with (d := d) in Hc as (Hne & _ & ->); [|assumption].
    split; [assumption|reflexivity].
  - rewrite bool_decide_eq_true_2 in Hc by reflexivity.
    run_step Hc Hs. cbn [when] in Hs.
    run_step Hs Hcp.
    apply copy2_ok in Hcp as (d' & dst' & Hsrc & Hdst & Hne & Hnd & ->).
    cbn in Hsrc, Hdst, Hnd. replace d' with d in * by congruence.
    run_read Hs. cbv [modify] in Hs. injection Hs as <-.
    apply refresh_ok with (d := d) in Hc as (Hne' & Hnd' & ->).
    + split; [assumption|]. exists dst'. repeat (split; [assumption|]).
      reflexivity.
    + cbn. unfold stat in *. destruct (root_like file_path); [discriminate|].
      rewrite lookup_insert_ne by congruence. assumption.
Qed.

(** ** Mode "before" *)


(** ** Default mode, twice *)

(** C5 (amended): when the manifest has no entry for the resolved relative
    path before the first call, two default-mode calls in a row, both getting
    through their copies, with the source rewritten in between, leave the
    first content in the before slot of the first call and the second
    content in the after slot of the second call (the slots being different
    paths and the before slot not a directory). *)
Theorem default_mode_twice (file_path : string)
    (server_name mode task_number : option string)
    (w w1 w2 : state) (c1 c2 : backup_ctx) (d1 d2 : data) :
  mode ≠ Some "before" → mode ≠ Some "after" →
  is_excluded file_path = false →
  server_backup_map w !! _extract_relative_path (project_roots w) file_path = None →
  stat (fs w) file_path = Some (File d1) →
  backup_writes file_path server_name mode task_number w = (Ok c1, w1) →
  let wmid :=
    write_file file_path d2
      (after (backup_file file_path server_name mode task_number) w) in
  backup_writes file_path server_name mode task_number wmid = (Ok c2, w2) →
  let before_slot := join (before_path c1) [relative_path c1] in
  let after_slot := join (after_path c2) [relative_path c2] in
  stat (fs w1) before_slot ≠ Some Dir →
  before_slot ≠ after_slot →
  let wfin := after (backup_file file_path server_name mode task_number) wmid in
  relative_path c2 = relative_path c1
  ∧ fs wfin !! before_slot = Some (File d1)
  ∧ fs wfin !! after_slot = Some (File d2).
Proof.
  intros Hb Ha Hex Hnone Hf Hw1. cbv zeta.
  assert (after (backup_file file_path server_name mode task_number) w
          = touched c1 w1) as ->.
  { unfold after. erewrite backup_file_after_writes by eauto. reflexivity. }
  intros Hw2 Hslot Hdiff.
  assert (root_like file_path = false) as Hroot.
  { unfold stat in Hf. destruct (root_like file_path); [discriminate|reflexivity]. }
  unfold after. erewrite backup_file_after_writes; [|assumption| |exact Hw2].
  2:{ cbn. unfold stat. rewrite Hroot, fs_touched, lookup_insert_eq. eauto. }
  cbn [snd]. rewrite fs_touched.
  (* the first call *)
  unfold backup_writes in Hw1.
  run_step Hw1 Hd. apply backup_dirs_ok in Hd as ((t0 & G0 & ->) & _ & Hrel1 & _).
  run_step Hw1 Hc. injection Hw1 as <- <-. rename a into c1.
  apply backup_copy_auto_ok with (d := d1) in Hc
    as (t & G & Hne1 & Hc); try assumption;
    [|cbn; apply (grow_stat_file _ _ file_path d1) in G0; apply G0; assumption].
  cbn [server_backup_map set_fs tick] in Hc.
  rewrite <- Hrel1 in Hnone. rewrite Hnone in Hc.
  destruct Hc as (dst' & Hdst & Hned & Hnd & Hnd' & ->).
  set (b := join (before_path c1) [relative_path c1]) in *.
  set (a1 := join (after_path c1) [relative_path c1]) in *.
  cbn [fs with_new_entry set_map set_fs tick] in Hslot.
  assert (dst' = b) as ->.
  { destruct (decide (dst' = b)) as [|Hds]; [assumption|]. exfalso.
    assert (stat t b = Some Dir) as E.
    { unfold copy_target in Hdst. destruct (stat t b) as [[?|]|]; congruence. }
    assert (root_like b = false → t !! b = Some Dir) as E'.
    { intros Hr. unfold stat in E. rewrite Hr in E. assumption. }
    destruct (decide (a1 = b)) as [Hab|Hab].
    - apply Hnd'. rewrite Hab. unfold stat.
      destruct (root_like b); [reflexivity|].
      rewrite lookup_insert_ne by assumption. auto.
    - apply Hslot. unfold stat. destruct (root_like b); [reflexivity|].
      rewrite !lookup_insert_ne by assumption. auto. }
  (* the second call *)
  unfold backup_writes in Hw2.
  run_step Hw2 Hd. apply backup_dirs_ok in Hd as ((t0' & G0' & ->) & _ & Hrel2 & _).
  run_step Hw2 Hc. injection Hw2 as <- <-. rename a into c2.
  assert (relative_path c2 = relative_path c1) as Hrel.
  { rewrite Hrel1, Hrel2. unfold write_file, touched, with_new_entry.
    cbn. rewrite lookup_insert_eq. reflexivity. }
  cbn [fs write_file set_fs tick] in G0'. rewrite fs_touched in G0'.
  cbn [fs with_new_entry set_map set_fs tick] in G0'.
  apply backup_copy_auto_ok with (d := d2) in Hc
    as (t' & G' & Hne2 & Hc); try assumption.
  2:{ cbn. apply (grow_stat_file _ _ file_path d2) in G0'. apply G0'.
      unfold stat. rewrite Hroot. apply lookup_insert_eq. }
  cbn [fs set_fs] in G'.
  set (a := join (after_path c2) [relative_path c2]) in *.
  match type of Hc with
  | match server_backup_map ?x !! ?r with _ => _ end =>
      assert (is_Some (server_backup_map x !! r)) as [e He]
  end.
  { rewrite Hrel. unfold write_file, touched, with_new_entry. cbn.
    rewrite lookup_insert_eq. cbn. rewrite lookup_insert_eq. eauto. }
  rewrite He in Hc. subst w0.
  (* the last state *)
  split; [assumption|]. cbn [fs set_fs].
  split.
  - rewrite lookup_insert_ne by congruence.
    assert (grow (<[file_path := File d2]> (<[a1 := File d1]> (<[b := File d1]> t))) t')
      as [F _] by (eapply grow_trans; eassumption).
    apply F. rewrite lookup_insert_ne by congruence.
    destruct (decide (a1 = b)) as [->|Hab]; [apply lookup_insert_eq|].
    rewrite lookup_insert_ne by assumption. apply lookup_insert_eq.
  - apply lookup_insert_eq.
Qed.

(** ** Default mode, first call *)

(** A default-mode call on a relative path that has no entry, when it gets
    through its copies: both slots hold the source content and the entry is
    created, then touched. *)
Lemma default_mode_first (file_path : string)
    (server_name mode task_number : option string) (w w1 : state)
    (c : backup_ctx) (d : data) :
  mode ≠ Some "before" → mode ≠ Some "after" →
  is_excluded file_path = false →
  stat (fs w) file_path = Some (File d) →
  backup_writes file_path server_name mode task_number w = (Ok c, w1) →
  server_backup_map w !! relative_path c = None →
  stat (fs w1) (join (before_path c) [relative_path c]) ≠ Some Dir →
  let w' := after (backup_file file_path server_name mode task_number) w in
  fs w' !! join (before_path c) [relative_path c] = Some (File d)
  ∧ fs w' !! join (after_path c) [relative_path c] = Some (File d)
  ∧ server_backup_map w' !! relative_path c
    = Some (touch (site_name c) (clock w (ticks w + 2))
              (new_entry (strftime_stamp (clock w (ticks w + 1))) (site_name c))).
Proof.
  intros Hb Ha Hex Hf Hw Hnone Hslot. cbv zeta. unfold after.
  erewrite backup_file_after_writes by eauto. cbn [snd]. rewrite fs_touched.
  unfold backup_writes in Hw.
  run_step Hw Hd. apply backup_dirs_ok in Hd as ((t0 & G0 & ->) & _).
  run_step Hw Hc. injection Hw as <- <-.
  apply backup_copy_auto_ok with (d := d) in Hc
    as (t & G & Hne1 & Hc); try assumption;
    [|cbn; apply (grow_stat_file _ _ file_path d) in G0; apply G0; assumption].
  cbn [server_backup_map set_fs tick] in Hc. rewrite Hnone in Hc.
  destruct Hc as (dst' & Hdst & Hned & Hnd & Hnd' & ->).
  set (b := join (before_path a) [relative_path a]) in *.
  set (a1 := join (after_path a) [relative_path a]) in *.
  cbn [fs with_new_entry set_map set_fs tick] in Hslot |- *.
  assert (dst' = b) as ->.
  { destruct (decide (dst' = b)) as [|Hds]; [assumption|]. exfalso.
    assert (stat t b = Some Dir) as E.
    { unfold copy_target in Hdst. destruct (stat t b) as [[?|]|]; congruence. }
    assert (root_like b = false → t !! b = Some Dir) as E'.
    { intros Hr. unfold stat in E. rewrite Hr in E. assumption. }
    destruct (decide (a1 = b)) as [Hab|Hab].
    - apply Hnd'. rewrite Hab. unfold stat.
      destruct (root_like b); [reflexivity|].
      rewrite lookup_insert_ne by assumption. auto.
    - apply Hslot. unfold stat. destruct (root_like b); [reflexivity|].
      rewrite !lookup_insert_ne by assumption. auto. }
  split; [|split].
  - destruct (decide (a1 = b)) as [->|Hab]; [apply lookup_insert_eq|].
    rewrite lookup_insert_ne by assumption. apply lookup_insert_eq.
  - apply lookup_insert_eq.
  - replace (ticks w + 1) with (S (ticks w)) by lia.
    replace (ticks w + 2) with (S (S (ticks w))) by lia.
    unfold touched, with_new_entry. cbn. rewrite lookup_insert_eq. cbn.
    apply lookup_insert_eq.
Qed.

(** ** The layout of the example *)

Lemma join2_plain (path b : string) :
  startswith "/" b = false → path ≠ "" → endswith "/" path = false →
  join2 path b = path +:+ "/" +:+ b.
Proof.
  intros Hb Hp He. unfold join2. rewrite Hb, He.
  rewrite bool_decide_eq_false_2 by assumption. reflexivity.
Qed.

Lemma digit_no_sep (n : nat) : negb (bool_decide (digit n = sep)) = true.
Proof.
  unfold digit. pose proof (Nat.mod_upper_bound n 10 ltac:(lia)) as H.
  destruct (n mod 10) as [|[|[|[|[|[|[|[|[|[|k]]]]]]]]]]; try reflexivity. lia.
Qed.

Lemma no_sep_app (s t : string) : no_sep (s +:+ t) = no_sep s && no_sep t.
Proof.
  unfold no_sep. induction s as [|c s IH]; [reflexivity|].
  rewrite str_app_cons. cbn [str_forall]. rewrite IH, andb_assoc. reflexivity.
Qed.

Lemma pad2_no_sep (n : nat) : no_sep (pad2 n) = true.
Proof. unfold pad2, no_sep. cbn [str_forall]. rewrite !digit_no_sep. reflexivity. Qed.

Lemma month_name_no_sep (m : nat) : no_sep (month_name m) = true.
Proof.
  unfold month_name.
  destruct (m - 1) as [|[|[|[|[|[|[|[|[|[|[|[|k]]]]]]]]]]]]; reflexivity.
Qed.

(** The month folder name has no separator and is not empty. *)
Lemma month_year_no_sep (d : datetime) :
  no_sep (strftime_month_year d) = true ∧ strftime_month_year d ≠ "".
Proof.
  unfold strftime_month_year, pad4. split.
  - rewrite !no_sep_app, month_name_no_sep, !pad2_no_sep. reflexivity.
  - destruct (month_name (month d)); discriminate.
Qed.

Lemma startswith_sep_no_sep (p : string) :
  no_sep p = true → startswith "/" p = false.
Proof.
  destruct p as [|c p]; [reflexivity|]. unfold no_sep. cbn.
  intros H. apply andb_prop in H as [H _].
  destruct (decide (c = sep)) as [->|Hne]; [discriminate H|].
  rewrite bool_decide_eq_false_2 by (intros <-; apply Hne; reflexivity).
  reflexivity.
Qed.

(** The slot directories of site acme with task 42, for any month. *)
Lemma acme_task_folder (now : datetime) (leaf : string) :
  leaf = "before" ∨ leaf = "after" →
  join (join (task_folder_of "acme" (Some "42") now "/backup") [leaf])
    ["acme/index.php"]
  = "/backup/acme/" +:+ strftime_month_year now +:+ "/task_42/" +:+ leaf
    +:+ "/acme/index.php".
Proof.
  intros Hleaf. destruct (month_year_no_sep now) as [Hns Hne].
  set (my := strftime_month_year now) in *.
  unfold task_folder_of. fold my.
  change (truthy (Some "42")) with (Some "42").
  change (server_key_of "acme") with "acme".
  unfold join. cbn [foldl].
  change (join2 "/backup" "acme") with "/backup/acme".
  rewrite (join2_plain "/backup/acme" my)
    by (first [apply startswith_sep_no_sep; assumption | discriminate | reflexivity]).
  change ("task_" +:+ "42") with "task_42".
  rewrite (join2_plain _ "task_42");
    [|reflexivity|discriminate|].
  2:{ change ("/backup/acme" +:+ "/" +:+ my) with ("/backup/acme/" +:+ my).
      apply endswith_sep_app; assumption. }
  assert (∀ x y, y ≠ "" → no_sep y = true → endswith "/" (x +:+ "/" +:+ y) = false)
    as Hend.
  { intros x y Hy Hy'. rewrite <- app_assoc_str. apply endswith_sep_app; assumption. }
  rewrite (join2_plain _ leaf).
  2:{ destruct Hleaf as [-> | ->]; reflexivity. }
  2:{ discriminate. }
  2:{ apply Hend; [discriminate|reflexivity]. }
  rewrite (join2_plain _ "acme/index.php"); [|reflexivity|discriminate|].
  2:{ apply Hend; destruct Hleaf as [-> | ->]; (discriminate || reflexivity). }
  rewrite !app_assoc_str. reflexivity.
Qed.

(** What [backup_dirs] computes for the example file under root /backup. *)
Lemma acme_ctx_of (w w1 : state) (c : backup_ctx) :
  backup_root w = "/backup" →
  project_roots w = ["var\www\"; "www\"; "public_html\"; "local\"; "htdocs\"; "home\"] →
  backup_writes acme_file None None (Some "42") w = (Ok c, w1) →
  site_name c = "acme"
  ∧ relative_path c = "acme/index.php"
  ∧ ∀ leaf, leaf = "before" ∨ leaf = "after" →
      join (if bool_decide (leaf = "before") then before_path c else after_path c)
        [relative_path c]
      = "/backup/acme/" +:+ strftime_month_year (clock w (ticks w)) +:+ "/task_42/"
        +:+ leaf +:+ "/acme/index.php".
Proof.
  intros Hroot Hroots Hw. unfold backup_writes in Hw.
  run_step Hw Hd. apply backup_dirs_ok in Hd as (_ & Hsite & Hrel & Hbp & Hap).
  run_step Hw Hc. injection Hw as <- <-.
  assert (site_name a = "acme") as Hs by (rewrite Hsite; reflexivity).
  assert (relative_path a = "acme/index.php") as Hr
    by (rewrite Hrel, Hroots; reflexivity).
  split; [assumption|]. split; [assumption|].
  intros leaf Hleaf. rewrite Hr, Hbp, Hap, Hs, Hroot.
  rewrite <- (acme_task_folder _ leaf Hleaf).
  destruct Hleaf as [-> | ->]; reflexivity.
Qed.

(** C2 (amended): with backup root /backup, task 42 and no manifest entry
    for it, a default-mode call on /var/www/acme/index.php that gets through
    its copies writes the before copy to
    /backup/acme/<Month Year>/task_42/before/acme/index.php and the after copy
    to the same path under after/, <Month Year> being the month and year of
    the clock at the call, and the manifest gets the key acme/index.php with
    site acme. *)
Theorem acme_example (w w1 : state) (c : backup_ctx) (d : data) :
  backup_root w = "/backup" →
  project_roots w = ["var\www\"; "www\"; "public_html\"; "local\"; "htdocs\"; "home\"] →
  server_backup_map w !! "acme/index.php" = None →
  stat (fs w) "/var/www/acme/index.php" = Some (File d) →
  backup_writes "/var/www/acme/index.php" None None (Some "42") w = (Ok c, w1) →
  let month_year := strftime_month_year (clock w (ticks w)) in
  let before_copy :=
    "/backup/acme/" +:+ month_year +:+ "/task_42/before/acme/index.php" in
  let after_copy :=
    "/backup/acme/" +:+ month_year +:+ "/task_42/after/acme/index.php" in
  stat (fs w1) before_copy ≠ Some Dir →
  let w' := after (backup_file "/var/www/acme/index.php" None None (Some "42")) w in
  fs w' !! before_copy = Some (File d)
  ∧ fs w' !! after_copy = Some (File d)
  ∧ ∃ e, server_backup_map w' !! "acme/index.php" = Some e
         ∧ e !! "site" = Some "acme".
Proof.
  intros Hroot Hroots Hnone Hf Hw. cbv zeta. intros Hslot.
  destruct (acme_ctx_of w w1 c Hroot Hroots Hw) as (Hs & Hr & Hp).
  assert (join (before_path c) [relative_path c]
          = "/backup/acme/" +:+ strftime_month_year (clock w (ticks w))
            +:+ "/task_42/before/acme/index.php") as Hb
    by exact (Hp "before" (or_introl eq_refl)).
  assert (join (after_path c) [relative_path c]
          = "/backup/acme/" +:+ strftime_month_year (clock w (ticks w))
            +:+ "/task_42/after/acme/index.php") as Ha
    by exact (Hp "after" (or_intror eq_refl)).
  destruct (default_mode_first "/var/www/acme/index.php" None None (Some "42")
              w w1 c d) as (H1 & H2 & H3);
    try discriminate; try reflexivity; try assumption.
  - rewrite Hr. assumption.
  - rewrite Hb. assumption.
  - rewrite Hb in H1. rewrite Ha in H2. rewrite Hr, Hs in H3.
    split; [assumption|]. split; [assumption|].
    eexists. split; [exact H3|]. apply lookup_insert_eq.
Qed.

(** ** Triples for statements that may raise *)

Section Triples.
Context {A B : Type}.
Implicit Types (P E : state → Prop) (m : M A).

Lemma hoare_ret P (Q : A → state → Prop) E (a : A) :
  (∀ w, P w → Q a w) → hoare P (ret a) Q E.
Proof. intros H w HP. apply H, HP. Qed.

Lemma hoare_raise P (Q : A → state → Prop) E (e : exn) :
  (∀ w, P w → E w) → hoare P (raise e) Q E.
Proof. intros H w HP. apply H, HP. Qed.

Lemma hoare_bind P m (Q1 : A → state → Prop) (k : A → M B)
    (Q : B → state → Prop) E :
  hoare P m Q1 E → (∀ a, hoare (Q1 a) (k a) Q E) → hoare P (bind m k) Q E.
Proof.
  intros Hm Hk w HP. specialize (Hm w HP). unfold bind.
  destruct (m w) as [[a|e] w1]; [apply Hk, Hm|exact Hm].
Qed.

Lemma hoare_try P m (Q : A → state → Prop) (E1 E : state → Prop)
    (h : exn → M A) :
  hoare P m Q E1 → (∀ e, hoare E1 (h e) Q E) → hoare P (try_except m h) Q E.
Proof.
  intros Hm Hh w HP. specialize (Hm w HP). unfold try_except.
  destruct (m w) as [[a|e] w1]; [exact Hm|apply Hh, Hm].
Qed.

Lemma hoare_quiet P m :
  quiet m → mgr_only P → hoare P m (λ _, P) P.
Proof.
  intros Hq HP w Hw. destruct (Hq w) as [Hm Hr].
  destruct (m w) as [[a|e] w1]; cbn in *; eapply HP; eauto.
Qed.

Lemma quiet_ret (a : A) : quiet (ret a).
Proof. intros w. auto. Qed.

Lemma quiet_raise (e : exn) : quiet (@raise A e).
Proof. intros w. auto. Qed.

Lemma quiet_gets (f : state → A) : quiet (gets f).
Proof. intros w. auto. Qed.

Lemma quiet_bind m (k : A → M B) :
  quiet m → (∀ a, quiet (k a)) → quiet (bind m k).
Proof.
  intros Hm Hk w. unfold bind. specialize (Hm w).
  destruct (m w) as [[a|e] w1]; cbn in *; [|exact Hm].
  destruct (Hk a w1) as [E1 E2]. destruct Hm as [E3 E4].
  split; congruence.
Qed.

Lemma quiet_try m (h : exn → M A) :
  quiet m → (∀ e, quiet (h e)) → quiet (try_except m h).
Proof.
  intros Hm Hh w. unfold try_except. specialize (Hm w).
  destruct (m w) as [[a|e] w1]; cbn in *; [exact Hm|].
  destruct (Hh e w1) as [E1 E2]. destruct Hm as [E3 E4].
  split; congruence.
Qed.
End Triples.

Lemma quiet_when (b : bool) (m : M unit) : quiet m → quiet (when b m).
Proof. destruct b; [auto|intros _; apply quiet_ret]. Qed.

Lemma quiet_makedirs (p : string) : quiet (makedirs p).
Proof.
  intros w. unfold makedirs.
  repeat (destruct (_ : bool); [auto|]). auto.
Qed.

Lemma quiet_copy2 (src dst : string) : quiet (copy2 src dst).
Proof.
  intros w. unfold copy2.
  repeat match goal with
         | |- context [match ?x with _ => _ end] => destruct x
         end; auto.
Qed.

Lemma quiet_remove (p : string) : quiet (remove p).
Proof.
  intros w. unfold remove. destruct (stat (fs w) p) as [[?|]|]; auto.
Qed.

Lemma quiet_path_exists (p : string) : quiet (path_exists p).
Proof. apply quiet_gets. Qed.

Lemma quiet_datetime_now : quiet datetime_now.
Proof. intros w. auto. Qed.

Lemma quiet_extract_site_name (file_path : string) :
  quiet (extract_site_name file_path).
Proof.
  intros w. destruct (extract_site_name_run file_path w) as [s ->]. auto.
Qed.

Lemma quiet_self_call {A} (name : string) (m : M A) :
  quiet m → quiet (self_call name m).
Proof. unfold self_call. destruct (bool_decide _); [auto|intros _; apply quiet_raise]. Qed.

Create HintDb quiet.
#[local] Hint Resolve quiet_ret quiet_raise quiet_gets quiet_when quiet_makedirs
  quiet_copy2 quiet_remove quiet_path_exists quiet_datetime_now
  quiet_extract_site_name quiet_self_call : quiet.

Ltac quiet_steps :=
  repeat first
    [ apply quiet_bind; [|intros ?]
    | progress auto with quiet
    | match goal with
      | |- quiet (match ?x with _ => _ end) => destruct x
      | |- quiet (if ?x then _ else _) => destruct x
      end ].

Lemma quiet_backup_dirs (file_path : string) (server_name task_number : option string) :
  quiet (backup_dirs file_path server_name task_number).
Proof. unfold backup_dirs. quiet_steps. Qed.

Lemma quiet_refresh (file_path slot : string) :
  quiet (let* ex := path_exists slot in
         when ex (remove slot);;; copy2 file_path slot).
Proof. quiet_steps. Qed.

Lemma quiet_write_json (p : string) (m : manifest) : quiet (write_json p m).
Proof.
  intros w. unfold write_json. destruct (stat (fs w) p) as [[?|]|]; auto.
Qed.

Lemma quiet_save_config : quiet _save_config.
Proof.
  unfold _save_config. apply quiet_try; [|intros; apply quiet_ret].
  quiet_steps. apply quiet_write_json.
Qed.

(** ** What any call does to the manifest *)

Section Manifest.
Variables (rel0 : string) (roots0 : list string) (m0 : manifest)
  (mode : option string).

#[local] Abbreviation reach := (reachable rel0 m0 mode).
#[local] Abbreviation inv := (inv rel0 roots0 m0 mode).

Lemma mgr_only_inv : mgr_only inv.
Proof. intros w w' Hm Hr [H1 H2]. split; congruence. Qed.

Lemma reachable_create (m : manifest) (e : gmap string string) :
  mode ≠ Some "after" → m !! rel0 = None → reach m →
  reach (<[rel0 := e]> m).
Proof.
  intros Hmode Hnone [Hoth Hrel]. split.
  - intros k Hk. rewrite lookup_insert_ne by congruence. auto.
  - destruct (m0 !! rel0) as [e0|].
    + destruct Hrel as (e1 & He1 & _). congruence.
    + intros Hm. contradiction.
Qed.

Lemma reachable_touch (m : manifest) (e : gmap string string)
    (site : string) (now : datetime) :
  m !! rel0 = Some e → reach m →
  reach (<[rel0 := <["site" := site]>
                         (<["last_backup_time" := strftime_stamp now]> e)]> m).
Proof.
  intros He [Hoth Hrel]. split.
  - intros k Hk. rewrite lookup_insert_ne by congruence. auto.
  - destruct (m0 !! rel0) as [e0|].
    + destruct Hrel as (e1 & He1 & Hs). rewrite lookup_insert_eq.
      eexists. split; [reflexivity|].
      intros k Hk1 Hk2. rewrite !lookup_insert_ne by congruence.
      replace e with e1 by congruence. auto.
    + intros Hm. specialize (Hrel Hm). congruence.
Qed.

Lemma hoare_inv_quiet {A} (m : M A) : quiet m → hoare inv m (λ _, inv) inv.
Proof. intros H. apply hoare_quiet; [assumption|apply mgr_only_inv]. Qed.

Lemma hoare_backup_dirs (file_path : string)
    (server_name task_number : option string) :
  rel0 = _extract_relative_path roots0 file_path →
  hoare inv (backup_dirs file_path server_name task_number)
    (λ c w, inv w ∧ relative_path c = rel0) inv.
Proof.
  intros Hrel w Hw.
  pose proof (hoare_inv_quiet _ (quiet_backup_dirs file_path server_name task_number) w Hw) as H.
  destruct (backup_dirs file_path server_name task_number w) as [[c|e] w1] eqn:E;
    [|exact H].
  split; [exact H|].
  apply backup_dirs_ok in E as (_ & _ & -> & _).
  destruct Hw as [-> _]. congruence.
Qed.

Lemma hoare_new_entry (c : backup_ctx) :
  relative_path c = rel0 → mode ≠ Some "after" →
  hoare (λ w, inv w ∧ server_backup_map w !! rel0 = None)
    (let* now := datetime_now in
     modify (set_map <[relative_path c :=
                        new_entry (strftime_stamp now) (site_name c)]>))
    (λ _, inv) inv.
Proof.
  intros Hc Hmode w [[Hr Hm] Hnone]. cbn. split; [assumption|].
  rewrite Hc. apply reachable_create; assumption.
Qed.

Lemma hoare_create_entry_if_absent (c : backup_ctx) :
  relative_path c = rel0 → mode ≠ Some "after" →
  hoare inv (create_entry_if_absent c) (λ _, inv) inv.
Proof.
  intros Hc Hmode w Hw. unfold create_entry_if_absent, bind at 1, gets.
  destruct (server_backup_map w !! relative_path c) eqn:E; [exact Hw|].
  apply (hoare_new_entry c Hc Hmode). split; [assumption|congruence].
Qed.

Lemma hoare_touch_entry (c : backup_ctx) :
  relative_path c = rel0 → hoare inv (touch_entry c) (λ _, inv) inv.
Proof.
  intros Hc w [Hr Hm]. rewrite touch_entry_run. unfold touched.
  destruct (server_backup_map w !! relative_path c) as [e|] eqn:E;
    [|split; assumption].
  split; [assumption|]. cbn. rewrite Hc in *.
  apply reachable_touch; assumption.
Qed.

Lemma hoare_backup_copy (file_path : string) (c : backup_ctx) :
  relative_path c = rel0 →
  hoare inv (backup_copy file_path mode c) (λ _, inv) inv.
Proof.
  intros Hc. unfold backup_copy.
  destruct (bool_decide_reflect (mode = Some "before")) as [Hb|Hb].
  { eapply hoare_bind; [apply hoare_inv_quiet, quiet_makedirs|intros ?].
    eapply hoare_bind; [apply hoare_inv_quiet, quiet_copy2|intros ?].
    apply hoare_create_entry_if_absent; [assumption|]. rewrite Hb. discriminate. }
  destruct (bool_decide_reflect (mode = Some "after")) as [Ha|Ha].
  { apply hoare_inv_quiet. quiet_steps. }
  eapply hoare_bind; [apply hoare_inv_quiet, quiet_makedirs|intros ?].
  eapply hoare_bind; [apply hoare_inv_quiet, quiet_makedirs|intros ?].
  eapply hoare_bind with (Q1 := λ m w, inv w ∧ m = server_backup_map w);
    [intros w Hw; cbn; auto|intros m].
  eapply hoare_bind with (Q1 := λ _, inv);
    [|intros ?; apply hoare_inv_quiet, quiet_refresh].
  destruct (bool_decide_reflect (m !! relative_path c = None)) as [Hn|Hn]; cbn [when].
  - eapply hoare_bind
      with (Q1 := λ _ w, inv w ∧ server_backup_map w !! rel0 = None).
    + intros w [Hw ->].
      pose proof (quiet_copy2 file_path (join (before_path c) [relative_path c]) w)
        as [Hq1 Hq2].
      pose proof (hoare_inv_quiet _
        (quiet_copy2 file_path (join (before_path c) [relative_path c])) w Hw) as H.
      destruct (copy2 _ _ w) as [[[]|e] w1]; [|exact H].
      split; [exact H|]. cbn in Hq1. rewrite Hq1, <- Hc. assumption.
    + intros ?. apply hoare_new_entry; assumption.
  - apply hoare_ret. intros w [Hw _]. exact Hw.
Qed.

Lemma hoare_backup_file (file_path : string)
    (server_name task_number : option string) :
  rel0 = _extract_relative_path roots0 file_path →
  hoare inv (backup_file file_path server_name mode task_number)
    (λ _, inv) inv.
Proof.
  intros Hrel. unfold backup_file.
  eapply hoare_try with (E1 := inv); [|intros e; apply hoare_ret; auto].
  destruct (is_excluded file_path); [apply hoare_ret; auto|].
  eapply hoare_bind; [apply hoare_inv_quiet, quiet_path_exists|intros ex].
  destruct ex; cbn [negb]; [|apply hoare_ret; auto].
  eapply hoare_bind with (Q1 := λ c w, inv w ∧ relative_path c = rel0).
  - unfold backup_writes.
    eapply hoare_bind; [apply hoare_backup_dirs; assumption|intros c].
    eapply hoare_bind with (Q1 := λ _ w, inv w ∧ relative_path c = rel0).
    + intros w [Hw Hc]. pose proof (hoare_backup_copy file_path c Hc w Hw) as H.
      destruct (backup_copy file_path mode c w) as [[[]|e] w1]; auto.
    + intros ?. apply hoare_ret. auto.
  - intros c.
    eapply hoare_bind with (Q1 := λ _, inv).
    + intros w [Hw Hc]. apply (hoare_touch_entry c Hc w Hw).
    + intros ?. eapply hoare_bind with (Q1 := λ _, inv).
      * apply hoare_inv_quiet, quiet_self_call, quiet_save_config.
      * intros ?. apply hoare_ret. auto.
Qed.
End Manifest.

(** After any call, in any mode and whatever its outcome: entries of other
    relative paths are as before; an entry of the resolved path is still
    there and differs at most in the touched fields; and a missing one stays
    missing in mode "after". *)
Lemma backup_file_manifest (file_path : string)
    (server_name mode task_number : option string) (w : state) :
  reachable (_extract_relative_path (project_roots w) file_path)
    (server_backup_map w) mode
    (server_backup_map
       (after (backup_file file_path server_name mode task_number) w)).
Proof.
  pose proof (hoare_backup_file
                (_extract_relative_path (project_roots w) file_path)
                (project_roots w) (server_backup_map w) mode
                file_path server_name task_number eq_refl w) as H.
  unfold after.
  destruct (backup_file file_path server_name mode task_number w) as [[r|e] w1];
    apply H; (split; [reflexivity|]); (split; [auto|]);
    (destruct (server_backup_map w !! _) as [e0|] eqn:E;
       [exists e0; split; [reflexivity|intros k _ _; reflexivity]|auto]).
Qed.

(** ** Manifest and clock after the copies *)

Lemma backup_writes_ok (file_path : string)
    (server_name mode task_number : option string) (w w1 : state)
    (c : backup_ctx) (d : data) :
  stat (fs w) file_path = Some (File d) →
  backup_writes file_path server_name mode task_number w = (Ok c, w1) →
  relative_path c = _extract_relative_path (project_roots w) file_path
  ∧ site_name c = resolve_site file_path server_name w
  ∧ clock w1 = clock w
  ∧ (if bool_decide (mode = Some "after")
        || bool_decide (is_Some (server_backup_map w !! relative_path c))
     then server_backup_map w1 = server_backup_map w ∧ ticks w1 = S (ticks w)
     else server_backup_map w1
          = <[relative_path c :=
               new_entry (strftime_stamp (clock w (S (ticks w)))) (site_name c)]>
              (server_backup_map w)
          ∧ ticks w1 = S (S (ticks w))).
Proof.
  intros Hf Hw. unfold backup_writes in Hw.
  run_step Hw Hd. apply backup_dirs_ok in Hd as ((t0 & G0 & ->) & Hsite & Hrel & _).
  run_step Hw Hc. injection Hw as <- <-. rename a into c.
  split; [assumption|]. split; [assumption|].
  assert (stat (fs (set_fs (λ _, t0) (tick w))) file_path = Some (File d)) as Hf0.
  { cbn. apply (grow_stat_file _ _ file_path d) in G0. apply G0. assumption. }
  destruct (decide (mode = Some "after")) as [->|Ha].
  { apply backup_copy_after_ok with (d := d) in Hc as (t & _ & _ & ->); [|assumption].
    rewrite bool_decide_eq_true_2 by reflexivity. cbn. auto. }
  rewrite (bool_decide_eq_false_2 _ Ha). cbn [orb].
  destruct (decide (mode = Some "before")) as [->|Hb].
  - apply backup_copy_before_ok with (d := d) in Hc as (t & dst' & _ & _ & _ & _ & ->);
      [|assumption].
    cbn [server_backup_map set_fs tick].
    destruct (server_backup_map w !! relative_path c) eqn:E.
    + rewrite bool_decide_eq_true_2 by eauto. cbn. auto.
    + rewrite bool_decide_eq_false_2 by (intros [? ?]; discriminate). cbn. auto.
  - apply backup_copy_auto_ok with (d := d) in Hc as (t & _ & _ & Hc); try assumption.
    cbn [server_backup_map set_fs tick] in Hc.
    destruct (server_backup_map w !! relative_path c) eqn:E.
    + rewrite bool_decide_eq_true_2 by eauto. subst w0. cbn. auto.
    + rewrite bool_decide_eq_false_2 by (intros [? ?]; discriminate).
      destruct Hc as (dst' & _ & _ & _ & _ & ->). cbn. auto.
Qed.

(** C1 (amended): when the source file exists, is not excluded and the
    copies are made, and the mode is "before" or default or the manifest has
    an entry for the resolved relative path, the call leaves an entry for
    that path whose [last_backup_time] is the clock reading taken after the
    copies and whose [site] is the site name of the call. *)
Theorem successful_call_touches_entry (file_path : string)
    (server_name mode task_number : option string) (w w1 : state)
    (c : backup_ctx) (d : data) :
  is_excluded file_path = false →
  stat (fs w) file_path = Some (File d) →
  backup_writes file_path server_name mode task_number w = (Ok c, w1) →
  mode ≠ Some "after"
  ∨ is_Some (server_backup_map w !! _extract_relative_path (project_roots w) file_path) →
  ∃ e,
    server_backup_map
      (after (backup_file file_path server_name mode task_number) w)
    !! _extract_relative_path (project_roots w) file_path = Some e
    ∧ e !! "last_backup_time" = Some (strftime_stamp (clock w1 (ticks w1)))
    ∧ e !! "site" = Some (resolve_site file_path server_name w).
Proof.
  intros Hex Hf Hw Hcase. unfold after.
  erewrite backup_file_after_writes by eauto. cbn [snd].
  destruct (backup_writes_ok _ _ _ _ _ _ _ _ Hf Hw) as (Hrel & Hsite & _ & Hmap).
  rewrite <- Hrel in *. rewrite <- Hsite.
  assert (is_Some (server_backup_map w1 !! relative_path c)) as [e He].
  { destruct (bool_decide_reflect (mode = Some "after")) as [Ha|Ha]; cbn [orb] in Hmap.
    - destruct Hmap as [-> _]. destruct Hcase; [contradiction|assumption].
    - destruct (bool_decide_reflect (is_Some (server_backup_map w !! relative_path c)))
        as [Hs|Hs].
      + destruct Hmap as [-> _]. assumption.
      + destruct Hmap as [-> _]. rewrite lookup_insert_eq. eauto. }
  unfold touched. rewrite He. cbn. rewrite lookup_insert_eq.
  eexists. split; [reflexivity|]. split.
  - rewrite lookup_insert_ne by discriminate. apply lookup_insert_eq.
  - apply lookup_insert_eq.
Qed.

(** C9: an entry that exists before a call, for any relative path, is still
    there after it, in any mode and whatever the outcome, with the same
    [first_backup_time]; only [last_backup_time] and [site] may differ. *)
Theorem first_backup_time_kept (file_path : string)
    (server_name mode task_number : option string) (w : state)
    (rel : string) (e : gmap string string) :
  server_backup_map w !! rel = Some e →
  ∃ e',
    server_backup_map
      (after (backup_file file_path server_name mode task_number) w) !! rel
    = Some e'
    ∧ e' !! "first_backup_time" = e !! "first_backup_time"
    ∧ ∀ k, k ≠ "last_backup_time" → k ≠ "site" → e' !! k = e !! k.
Proof.
  intros He.
  destruct (backup_file_manifest file_path server_name mode task_number w)
    as [Hoth Hrel].
  destruct (decide (rel = _extract_relative_path (project_roots w) file_path))
    as [->|Hne].
  - rewrite He in Hrel. destruct Hrel as (e' & He' & Hs).
    exists e'. split; [assumption|]. split; [|exact Hs].
    apply Hs; discriminate.
  - exists e. rewrite Hoth by assumption. auto.
Qed.

(** C10: in mode "after" a call never makes an entry for the resolved
    relative path when there is none; when there is one and the call gets
    through its copy, the entry is the old one with [last_backup_time] and
    [site] rewritten; and in every mode the entries of all other relative
    paths are as before. *)
Theorem after_mode_manifest (file_path : string)
    (server_name mode task_number : option string) (w : state) :
  let rel := _extract_relative_path (project_roots w) file_path in
  let w' := after (backup_file file_path server_name mode task_number) w in
  (mode = Some "after" → server_backup_map w !! rel = None →
   server_backup_map w' !! rel = None)
  ∧ (∀ e d c w1,
       mode = Some "after" → server_backup_map w !! rel = Some e →
       is_excluded file_path = false →
       stat (fs w) file_path = Some (File d) →
       backup_writes file_path server_name mode task_number w = (Ok c, w1) →
       server_backup_map w' !! rel
       = Some (touch (resolve_site file_path server_name w)
                 (clock w (S (ticks w))) e))
  ∧ (∀ k, k ≠ rel → server_backup_map w' !! k = server_backup_map w !! k).
Proof.
  cbv zeta.
  destruct (backup_file_manifest file_path server_name mode task_number w)
    as [Hoth Hrel].
  split; [|split; [|exact Hoth]].
  - intros Hmode Hnone. rewrite Hnone in Hrel. auto.
  - intros e d c w1 Hmode He Hex Hf Hw. unfold after.
    erewrite backup_file_after_writes by eauto. cbn [snd].
    destruct (backup_writes_ok _ _ _ _ _ _ _ _ Hf Hw) as (Hrel' & Hsite & Hclock & Hmap).
    rewrite (bool_decide_eq_true_2 _ Hmode) in Hmap. cbn [orb] in Hmap.
    destruct Hmap as [Hm Ht]. rewrite <- Hrel' in *. rewrite <- Hsite.
    unfold touched. rewrite Hm, He, Hclock, Ht. cbn. apply lookup_insert_eq.
Qed.

(** ** Where the archive goes *)

(** The directory [zip_target] picks for a path of clean segments. *)
Lemma zip_target_abs (parts : list string) (folder_type : option string)
    (now : datetime) :
  forallb clean_part parts = true →
  fst (zip_target (abs_path parts) folder_type now)
  = zip_dir_of (abs_path parts) parts.
Proof.
  intros H. unfold zip_target. cbn [fst].
  rewrite normpath_abs, folder_parts_of_abs by assumption. reflexivity.
Qed.

(** C4 (amended): for a folder given by a normalised absolute path, the
    archive goes to the prefix of the path up to its first task_-prefixed
    segment when there is one (the task folder, for the task folder itself
    and everything below it); otherwise to the parent of the folder, and to
    the parent of that parent when the folder is named before or after (for
    a before/after leaf directly under a month folder that is the site
    folder). *)
Theorem zip_target_dir (parts : list string) (folder_type : option string)
    (now : datetime) :
  forallb clean_part parts = true →
  fst (zip_target (abs_path parts) folder_type now)
  = match find_index (startswith "task_") parts with
    | Some i => abs_path (take (S i) parts)
    | None =>
        if bool_decide (default "" (last parts) ∈ ["before"; "after"])
        then abs_path (removelast (removelast parts))
        else abs_path (removelast parts)
    end.
Proof.
  intros H. rewrite zip_target_abs by assumption. apply zip_dir_of_abs, H.
Qed.

Lemma find_index_app_none {A} (p : A → bool) (l1 l2 : list A) :
  existsb p l1 = false →
  find_index p (l1 ++ l2) = (λ i, length l1 + i) <$> find_index p l2.
Proof.
  induction l1 as [|x l1 IH]; intros H; simpl.
  - destruct (find_index p l2); reflexivity.
  - simpl in H. apply orb_false_elim in H as [-> H].
    rewrite IH by assumption. destruct (find_index p l2); reflexivity.
Qed.

(** The same, on the five kinds of folder of the backup tree. *)
Corollary zip_dir_layout (root : list string) (site month task leaf : string)
    (folder_type : option string) (now : datetime) :
  forallb clean_part (root ++ [site; month; "task_" +:+ task]) = true →
  existsb (startswith "task_") (root ++ [site; month]) = false →
  bool_decide (site ∈ ["before"; "after"]) = false →
  bool_decide (month ∈ ["before"; "after"]) = false →
  bool_decide (leaf ∈ ["before"; "after"]) = true →
  let dir_for parts := fst (zip_target (abs_path parts) folder_type now) in
  dir_for (root ++ [site]) = abs_path root
  ∧ dir_for (root ++ [site; month]) = abs_path (root ++ [site])
  ∧ dir_for (root ++ [site; month; leaf]) = abs_path (root ++ [site])
  ∧ dir_for (root ++ [site; month; "task_" +:+ task])
    = abs_path (root ++ [site; month; "task_" +:+ task])
  ∧ dir_for (root ++ [site; month; "task_" +:+ task; leaf])
    = abs_path (root ++ [site; month; "task_" +:+ task]).
Proof.
  intros Hclean Htask Hsite Hmonth Hleaf. cbv zeta.
  assert (clean_part leaf = true) as Hcl.
  { apply bool_decide_eq_true in Hleaf.
    apply elem_of_cons in Hleaf as [->|Hleaf]; [reflexivity|].
    apply elem_of_cons in Hleaf as [->|Hleaf]; [reflexivity|].
    apply elem_of_nil in Hleaf. contradiction. }
  assert (startswith "task_" leaf = false) as Htl.
  { apply bool_decide_eq_true in Hleaf.
    apply elem_of_cons in Hleaf as [->|Hleaf]; [reflexivity|].
    apply elem_of_cons in Hleaf as [->|Hleaf]; [reflexivity|].
    apply elem_of_nil in Hleaf. contradiction. }
  rewrite forallb_app in Hclean. apply andb_prop in Hclean as [Hroot Hrest].
  cbn [forallb] in Hrest. apply andb_prop in Hrest as (Hs & Hrest).
  apply andb_prop in Hrest as (Hm & Hrest). apply andb_prop in Hrest as (Ht & _).
  rewrite existsb_app in Htask. apply orb_false_elim in Htask as [Hroot' Hsm].
  cbn [existsb] in Hsm. apply orb_false_elim in Hsm as [Hs' Hsm].
  apply orb_false_elim in Hsm as [Hm' _].
  rewrite !zip_target_abs, !zip_dir_of_abs
    by (rewrite forallb_app; cbn [forallb];
        rewrite ?Hroot, ?Hs, ?Hm, ?Ht, ?Hcl; reflexivity).
  rewrite !find_index_app_none by assumption. cbn [find_index].
  rewrite Hs', Hm', Htl. cbn [fmap option_fmap option_map].
  assert (startswith "task_" ("task_" +:+ task) = true) as -> by reflexivity.
  cbn [fmap option_fmap option_map].
  assert (root ++ [site; month] = (root ++ [site]) ++ [month]) as E2
    by (rewrite <- app_assoc; reflexivity).
  assert (root ++ [site; month; leaf] = (root ++ [site; month]) ++ [leaf]) as E3
    by (rewrite <- app_assoc; reflexivity).
  assert (∀ x, root ++ [site; month; "task_" +:+ task; x]
               = (root ++ [site; month; "task_" +:+ task]) ++ [x]) as E4
    by (intros x; rewrite <- app_assoc; reflexivity).
  repeat split.
  - rewrite last_snoc. cbn [from_option id]. rewrite Hsite, removelast_last. reflexivity.
  - rewrite E2, last_snoc. cbn [from_option id].
    rewrite Hmonth, removelast_last. reflexivity.
  - rewrite E3, last_snoc. cbn [from_option id].
    rewrite Hleaf, removelast_last, E2, removelast_last. reflexivity.
  - rewrite take_ge; [reflexivity|]. rewrite !length_app. cbn. lia.
  - rewrite E4, take_app_length'; [reflexivity|]. rewrite !length_app. cbn. lia.
Qed.

(** The site token of the archive name is the first segment that looks
    like a name: for a folder of the backup tree, the first segment of the
    backup root. *)
Lemma zip_site_name_first (first : string) (rest : list string) :
  names_site first = true → zip_site_name (first :: rest) = first.
Proof. intros H. unfold zip_site_name. cbn. rewrite H. reflexivity. Qed.

(** The archive of a run that returns one is named and placed by
    [zip_target], with the clock reading of the call. *)
Lemma create_zip_archive_path (folder_path : string) (folder_type : option string)
    (w : state) (zip_path : string) :
  result (create_zip_archive folder_path folder_type) w = Ok (Some zip_path) →
  zip_path
  = join (fst (zip_target folder_path folder_type (clock w (ticks w))))
      [snd (zip_target folder_path folder_type (clock w (ticks w)))].
Proof.
  intros H. unfold result, create_zip_archive, try_except in H.
  match type of H with
  | context [match ?m w with _ => _ end] => destruct (m w) as [[r|e] w1] eqn:E
  end; cbn in H; [|discriminate].
  injection H as ->. run_read E.
  destruct (bool_decide _); cbn [negb] in E; [|discriminate].
  run_read E. run_step E Hs. run_step E Hs'. run_step E Hs''.
  cbv [ret] in E. injection E as <- _. reflexivity.
Qed.

(** ** Evaluating closed statements *)

Lemma run_eq {A} (m : M A) (w : state) (a : A) :
  result m w = Ok a → m w = (Ok a, after m w).
Proof. unfold result, after. destruct (m w) as [r w']. cbn. intros ->. reflexivity. Qed.

Ltac conjs := repeat match goal with |- _ ∧ _ => split end.

(** Settle a closed goal by evaluation. *)
Ltac by_eval :=
  lazymatch goal with
  | |- ?m ?w = (Ok ?a, _) => apply (run_eq m w a); vm_compute; reflexivity
  | |- _ ≠ _ => let H := fresh in intros H; vm_compute in H; discriminate H
  | |- _ = _ =>
      first [ apply (bool_decide_eq_true_1 _); vm_compute; reflexivity
            | vm_compute; reflexivity ]
  | |- _ => apply (bool_decide_eq_true_1 _); vm_compute; reflexivity
  end.

(** ** The worked example: site acme, task 42, 3 November 2026 *)

(** C1 (as stated) fails: an "after" call on a file that exists and is not
    excluded makes its copy, yet no manifest entry is updated or inserted
    (none is there), the configuration file is not written and the answer is
    the sentinel. *)
Lemma after_mode_call_leaves_no_entry :
  is_excluded acme_file = false
  ∧ stat (fs acme_world) acme_file = Some (File (Raw "<?php v1"))
  ∧ result (backup_writes acme_file None (Some "after") (Some "42")) acme_world
    = Ok acme_ctx
  ∧ fs (save (Some "after") acme_world) !! acme_after_slot
    = Some (File (Raw "<?php v1"))
  ∧ server_backup_map (save (Some "after") acme_world) !! acme_rel = None
  ∧ config_path acme_world = "/backup/backup_config.json"
  ∧ fs (save (Some "after") acme_world) !! "/backup/backup_config.json" = None
  ∧ result (backup_file acme_file None (Some "after") (Some "42")) acme_world
    = Ok (None, None).
Proof. conjs; by_eval. Qed.

Lemma successful_call_touches_entry_witness :
  (is_excluded acme_file = false
   ∧ stat (fs acme_world) acme_file = Some (File (Raw "<?php v1"))
   ∧ backup_writes acme_file None None (Some "42") acme_world
     = (Ok acme_ctx, writes None acme_world))
  ∧ ∃ e,
      server_backup_map (after (backup_file acme_file None None (Some "42")) acme_world)
      !! _extract_relative_path (project_roots acme_world) acme_file = Some e
      ∧ e !! "last_backup_time"
        = Some (strftime_stamp
                  (clock (writes None acme_world) (ticks (writes None acme_world))))
      ∧ e !! "site" = Some (resolve_site acme_file None acme_world).
Proof.
  split; [conjs; by_eval|].
  apply (successful_call_touches_entry acme_file None None (Some "42") acme_world
           (writes None acme_world) acme_ctx (Raw "<?php v1"));
    [by_eval..|left; discriminate].
Defined.

(** C2 (as stated) fails: nothing is written at [before/index.php] and the
    manifest has no key [index.php]. *)
Lemma acme_example_not_at_index_php :
  fs (save None acme_world) !! (acme_task_dir +:+ "/before/index.php") = None
  ∧ fs (save None acme_world) !! (acme_task_dir +:+ "/after/index.php") = None
  ∧ server_backup_map (save None acme_world) !! "index.php" = None.
Proof. conjs; by_eval. Qed.

(** The example on 3 November 2026, evaluated: the two copies, the one
    manifest key and its site. *)
Example acme_example_nov_2026 :
  backup_root acme_world = "/backup"
  ∧ map_to_list (server_backup_map acme_world) = []
  ∧ fs (save None acme_world)
      !! "/backup/acme/November 2026/task_42/before/acme/index.php"
    = Some (File (Raw "<?php v1"))
  ∧ fs (save None acme_world)
      !! "/backup/acme/November 2026/task_42/after/acme/index.php"
    = Some (File (Raw "<?php v1"))
  ∧ (map_to_list (server_backup_map (save None acme_world))).*1
    = ["acme/index.php"]
  ∧ server_backup_map (save None acme_world) !! "acme/index.php" ≫= (.!! "site")
    = Some "acme".
Proof. conjs; by_eval. Qed.

Lemma acme_example_witness :
  (backup_root acme_world = "/backup"
   ∧ project_roots acme_world
     = ["var\www\"; "www\"; "public_html\"; "local\"; "htdocs\"; "home\"]
   ∧ server_backup_map acme_world !! "acme/index.php" = None
   ∧ stat (fs acme_world) "/var/www/acme/index.php" = Some (File (Raw "<?php v1"))
   ∧ backup_writes "/var/www/acme/index.php" None None (Some "42") acme_world
     = (Ok acme_ctx, writes None acme_world)
   ∧ stat (fs (writes None acme_world))
       ("/backup/acme/" +:+ strftime_month_year (clock acme_world (ticks acme_world))
        +:+ "/task_42/before/acme/index.php") ≠ Some Dir)
  ∧ fs (after (backup_file "/var/www/acme/index.php" None None (Some "42")) acme_world)
      !! ("/backup/acme/" +:+ strftime_month_year (clock acme_world (ticks acme_world))
          +:+ "/task_42/before/acme/index.php")
    = Some (File (Raw "<?php v1"))
  ∧ fs (after (backup_file "/var/www/acme/index.php" None None (Some "42")) acme_world)
      !! ("/backup/acme/" +:+ strftime_month_year (clock acme_world (ticks acme_world))
          +:+ "/task_42/after/acme/index.php")
    = Some (File (Raw "<?php v1"))
  ∧ ∃ e,
      server_backup_map
        (after (backup_file "/var/www/acme/index.php" None None (Some "42")) acme_world)
      !! "acme/index.php" = Some e
      ∧ e !! "site" = Some "acme".
Proof.
  split; [conjs; by_eval|].
  apply (acme_example acme_world (writes None acme_world) acme_ctx (Raw "<?php v1"));
    by_eval.
Defined.

(** C3: the archive of the before folder of task 42 is placed in the task
    folder, and its name carries the first segment of the path, backup, where
    the site was meant. *)
Theorem acme_before_archive :
  result (create_zip_archive (acme_task_dir +:+ "/before") (Some "before"))
    (save None acme_world)
  = Ok (Some "/backup/acme/November 2026/task_42/backup_backup_before_03.11.2026.1300.zip")
  ∧ zip_site_name (folder_parts_of (acme_task_dir +:+ "/before")) = "backup".
Proof. conjs; by_eval. Qed.

(** C4 (as stated) fails: the archive of a before leaf directly under the
    month folder goes to the site folder, not to the month folder. *)
Lemma month_leaf_archive_in_site_folder :
  stat (fs acme_no_task) "/backup/acme/November 2026/before" = Some Dir
  ∧ result (create_zip_archive "/backup/acme/November 2026/before" (Some "before"))
      acme_no_task
    = Ok (Some "/backup/acme/backup_backup_before_03.11.2026.1300.zip")
  ∧ fst (zip_target "/backup/acme/November 2026/before" (Some "before") (nov 13 0 3))
    = "/backup/acme"
  ∧ fst (zip_target "/backup/acme/November 2026/before" (Some "before") (nov 13 0 3))
    ≠ "/backup/acme/November 2026".
Proof. conjs; by_eval. Qed.

Lemma zip_target_dir_witness :
  forallb clean_part ["backup"; "acme"; "November 2026"; "task_42"; "before"] = true
  ∧ fst (zip_target
           (abs_path ["backup"; "acme"; "November 2026"; "task_42"; "before"])
           (Some "before") (nov 13 0 3))
    = match find_index (startswith "task_")
              ["backup"; "acme"; "November 2026"; "task_42"; "before"] with
      | Some i =>
          abs_path (take (S i) ["backup"; "acme"; "November 2026"; "task_42"; "before"])
      | None =>
          if bool_decide
               (default ""
                  (last ["backup"; "acme"; "November 2026"; "task_42"; "before"])
                ∈ ["before"; "after"])
          then abs_path
                 (removelast
                    (removelast
                       ["backup"; "acme"; "November 2026"; "task_42"; "before"]))
          else abs_path
                 (removelast ["backup"; "acme"; "November 2026"; "task_42"; "before"])
      end.
Proof.
  split; [reflexivity|].
  apply (zip_target_dir ["backup"; "acme"; "November 2026"; "task_42"; "before"]).
  reflexivity.
Defined.

(** C5 (as stated) fails: with an entry already in the manifest, two
    default-mode calls in a row (the file holding v2, then v3) leave the
    before slot with the content of an earlier call, v1. *)
Lemma default_mode_twice_with_entry :
  is_Some (server_backup_map acme_edited !! acme_rel)
  ∧ stat (fs acme_edited) acme_file = Some (File (Raw "<?php v2"))
  ∧ stat (fs (edit "<?php v3" (save None acme_edited))) acme_file
    = Some (File (Raw "<?php v3"))
  ∧ fs (save None (edit "<?php v3" (save None acme_edited))) !! acme_before_slot
    = Some (File (Raw "<?php v1"))
  ∧ fs (save None (edit "<?php v3" (save None acme_edited))) !! acme_after_slot
    = Some (File (Raw "<?php v3")).
Proof. conjs; by_eval. Qed.

Lemma default_mode_twice_witness :
  (is_excluded acme_file = false
   ∧ server_backup_map acme_world
       !! _extract_relative_path (project_roots acme_world) acme_file = None
   ∧ stat (fs acme_world) acme_file = Some (File (Raw "<?php v1"))
   ∧ backup_writes acme_file None None (Some "42") acme_world
     = (Ok acme_ctx, writes None acme_world)
   ∧ backup_writes acme_file None None (Some "42")
       (write_file acme_file (Raw "<?php v2")
          (after (backup_file acme_file None None (Some "42")) acme_world))
     = (Ok acme_ctx, writes None acme_edited)
   ∧ stat (fs (writes None acme_world))
       (join (before_path acme_ctx) [relative_path acme_ctx]) ≠ Some Dir
   ∧ join (before_path acme_ctx) [relative_path acme_ctx]
     ≠ join (after_path acme_ctx) [relative_path acme_ctx])
  ∧ relative_path acme_ctx = relative_path acme_ctx
  ∧ fs (after (backup_file acme_file None None (Some "42"))
          (write_file acme_file (Raw "<?php v2")
             (after (backup_file acme_file None None (Some "42")) acme_world)))
      !! join (before_path acme_ctx) [relative_path acme_ctx]
    = Some (File (Raw "<?php v1"))
  ∧ fs (after (backup_file acme_file None None (Some "42"))
          (write_file acme_file (Raw "<?php v2")
             (after (backup_file acme_file None None (Some "42")) acme_world)))
      !! join (after_path acme_ctx) [relative_path acme_ctx]
    = Some (File (Raw "<?php v2")).
Proof.
  split; [conjs; by_eval|].
  apply (default_mode_twice acme_file None None (Some "42") acme_world
           (writes None acme_world) (writes None acme_edited)
           acme_ctx acme_ctx (Raw "<?php v1") (Raw "<?php v2"));
    [discriminate|discriminate|by_eval..].
Defined.


Lemma first_backup_time_kept_witness :
  server_backup_map acme_edited !! acme_rel = Some acme_entry
  ∧ ∃ e',
      server_backup_map
        (after (backup_file acme_file None (Some "before") (Some "42")) acme_edited)
      !! acme_rel = Some e'
      ∧ e' !! "first_backup_time" = acme_entry !! "first_backup_time"
      ∧ ∀ k, k ≠ "last_backup_time" → k ≠ "site" → e' !! k = acme_entry !! k.
Proof.
  split; [by_eval|].
  apply (first_backup_time_kept acme_file None (Some "before") (Some "42") acme_edited).
  by_eval.
Defined.

Lemma after_mode_manifest_witness :
  server_backup_map (save (Some "after") acme_world) !! acme_rel = None
  ∧ server_backup_map (save (Some "after") acme_edited) !! acme_rel
    = Some (touch (resolve_site acme_file None acme_edited)
              (clock acme_edited (S (ticks acme_edited))) acme_entry).
Proof.
  destruct (after_mode_manifest acme_file None (Some "after") (Some "42") acme_world)
    as (Hnone & _ & _).
  destruct (after_mode_manifest acme_file None (Some "after") (Some "42") acme_edited)
    as (_ & Hsome & _).
  split.
  - apply Hnone; by_eval.
  - apply (Hsome _ (Raw "<?php v2") acme_ctx (writes (Some "after") acme_edited));
      by_eval.
Defined.

(** * Further properties *)

(** ** Prefixes, substrings and [split] *)

Lemma length_app_str (s t : string) :
  String.length (s +:+ t) = String.length s + String.length t.
Proof. induction s as [|c s IH]; [reflexivity|]. rewrite str_app_cons. cbn. lia. Qed.

Lemma startswith_app (p s : string) : startswith p (p +:+ s) = true.
Proof.
  induction p as [|a p IH]; [reflexivity|]. rewrite str_app_cons. cbn.
  rewrite bool_decide_eq_true_2 by reflexivity. exact IH.
Qed.

Lemma startswith_inv (p s : string) :
  startswith p s = true → s = p +:+ str_drop (String.length p) s.
Proof.
  revert s. induction p as [|a p IH]; intros s H; [reflexivity|].
  destruct s as [|b s]; [discriminate|]. cbn in H.
  apply andb_prop in H as [Hab H]. apply bool_decide_eq_true in Hab as <-.
  rewrite str_app_cons. cbn [String.length str_drop]. f_equal. apply IH, H.
Qed.

Lemma drop_app_length (a s : string) : str_drop (String.length a) (a +:+ s) = s.
Proof. induction a as [|c a IH]; [reflexivity|]. rewrite str_app_cons. exact IH. Qed.

Lemma startswith_lacks (c : ascii) (p s : string) :
  startswith p s = true → lacks c s = true → lacks c p = true.
Proof.
  revert s. induction p as [|a p IH]; intros s H L; [reflexivity|].
  destruct s as [|b s]; [discriminate|]. cbn in H, L |- *.
  apply andb_prop in H as [Hab H]. apply bool_decide_eq_true in Hab as <-.
  apply andb_prop in L as [-> L]. cbn. eapply IH; eassumption.
Qed.

Lemma str_in_lacks (c : ascii) (p s : string) :
  str_in p s = true → lacks c s = true → lacks c p = true.
Proof.
  induction s as [|b s IH]; cbn [str_in]; intros H L.
  - rewrite orb_false_r in H. eapply startswith_lacks; eassumption.
  - apply orb_prop in H as [H|H]; [eapply startswith_lacks; eassumption|].
    cbn in L. apply andb_prop in L as [_ L]. auto.
Qed.

Lemma lacks_replace (c d : ascii) (s : string) :
  c ≠ d → lacks c (replace_chr c d s) = true.
Proof.
  intros Hcd. unfold lacks, replace_chr in *.
  induction s as [|a s IH]; [reflexivity|].
  cbn [str_map str_forall]. rewrite IH, andb_true_r.
  destruct (decide (a = c)); apply negb_true_iff, bool_decide_eq_false; congruence.
Qed.

Lemma lacks_str_in (c : ascii) (sub s : string) :
  lacks c sub = false → lacks c s = true → str_in sub s = false.
Proof.
  intros Hsub Hs. destruct (str_in sub s) eqn:E; [|reflexivity].
  rewrite (str_in_lacks c sub s E Hs) in Hsub. discriminate.
Qed.

Lemma str_in_app (sub pre rest : string) : str_in sub (pre +:+ sub +:+ rest) = true.
Proof.
  induction pre as [|a pre IH].
  - rewrite str_app_nil_l. destruct (sub +:+ rest) eqn:E; cbn [str_in];
      rewrite <- E, startswith_app; reflexivity.
  - rewrite str_app_cons. cbn [str_in]. rewrite IH. apply orb_true_r.
Qed.

Lemma str_in_tail (sub : string) (c : ascii) (s : string) :
  str_in sub (String c s) = false → str_in sub s = false.
Proof. cbn [str_in]. intros H. apply orb_false_elim in H as [_ H]. exact H. Qed.

Lemma str_in_startswith (sub s : string) :
  str_in sub s = false → startswith sub s = false.
Proof. destruct s; cbn [str_in]; intros H; apply orb_false_elim in H as [H _]; exact H. Qed.

(** [s.split(sep, 1)] cuts at the first occurrence of [sep]. *)
Lemma str_split1_found (sub s : string) :
  str_in sub s = true →
  ∃ pre rest,
    str_split1 sub s = [pre; rest]
    ∧ s = pre +:+ sub +:+ rest
    ∧ ∀ pre' rest', s = pre' +:+ sub +:+ rest' → String.length pre ≤ String.length pre'.
Proof.
  induction s as [|c t IH]; intros H.
  - cbn in H. rewrite orb_false_r in H.
    exists "", (str_drop (String.length sub) ""). cbn [str_split1]. rewrite H.
    split; [reflexivity|]. split; [|intros; cbn; lia].
    rewrite str_app_nil_l. apply startswith_inv, H.
  - cbn [str_in str_split1] in *.
    destruct (startswith sub (String c t)) eqn:E.
    + exists "", (str_drop (String.length sub) (String c t)).
      split; [reflexivity|]. split; [|intros; cbn; lia].
      rewrite str_app_nil_l. apply startswith_inv, E.
    + cbn [orb] in H. destruct (IH H) as (pre & rest & Hs & Ht & Hmin).
      exists (String c pre), rest. rewrite Hs.
      split; [reflexivity|]. split; [rewrite str_app_cons; congruence|].
      intros pre' rest' Heq. destruct pre' as [|c' pre'].
      * rewrite str_app_nil_l in Heq. rewrite Heq, startswith_app in E. discriminate.
      * rewrite str_app_cons in Heq. injection Heq as -> Heq.
        specialize (Hmin _ _ Heq). cbn. lia.
Qed.

Lemma str_in_inv (sub s : string) :
  str_in sub s = true → ∃ pre rest, s = pre +:+ sub +:+ rest.
Proof.
  intros H. destruct (str_split1_found _ _ H) as (pre & rest & _ & E & _). eauto.
Qed.

Lemma str_in_trans (a b s : string) :
  str_in a b = true → str_in b s = true → str_in a s = true.
Proof.
  intros Hab Hbs.
  apply str_in_inv in Hab as (p1 & r1 & ->). apply str_in_inv in Hbs as (p2 & r2 & ->).
  rewrite !app_assoc_str, <- (app_assoc_str p2 p1). apply str_in_app.
Qed.

Lemma rsplit_sep_eq (p : string) : fst (rsplit_sep p) +:+ snd (rsplit_sep p) = p.
Proof.
  induction p as [|c p IH]; [reflexivity|]. simpl.
  destruct (rsplit_sep p) as [h t]. cbn [fst snd] in *.
  destruct h as [|a h].
  - rewrite str_app_nil_l in IH. subst t.
    destruct (decide (c = sep)); reflexivity.
  - cbn [fst snd]. rewrite !str_app_cons in *. congruence.
Qed.

Lemma str_in_basename (p : string) : str_in (basename p) p = true.
Proof.
  unfold basename. rewrite <- (rsplit_sep_eq p) at 2.
  rewrite <- (str_app_nil_r (snd (rsplit_sep p))) at 2. apply str_in_app.
Qed.

Lemma endswith_app (p s : string) : endswith p (s +:+ p) = true.
Proof.
  unfold endswith. rewrite length_app_str.
  replace (String.length s + String.length p - String.length p) with (String.length s)
    by lia.
  rewrite drop_app_length, bool_decide_eq_true_2 by reflexivity.
  rewrite andb_true_r. apply Nat.leb_le. lia.
Qed.

Lemma endswith_app_nonempty (x y : string) :
  y ≠ "" → endswith "/" (x +:+ y) = endswith "/" y.
Proof.
  intros Hy. induction x as [|a x IH]; [rewrite str_app_nil_l; reflexivity|].
  rewrite str_app_cons, <- IH. unfold endswith. change (String.length "/") with 1.
  assert (x +:+ y ≠ "") as Hne.
  { destruct x; [rewrite str_app_nil_l; assumption|discriminate]. }
  rewrite str_drop_last by assumption.
  destruct (x +:+ y); [congruence|reflexivity].
Qed.

Lemma str_drop_while_length (p : ascii → bool) (s : string) :
  String.length (str_drop_while p s) ≤ String.length s.
Proof.
  induction s as [|c t IH]; [reflexivity|]. cbn [str_drop_while].
  destruct (p c); cbn [String.length]; lia.
Qed.

Lemma str_take_drop_while (p : ascii → bool) (s : string) :
  str_take (String.length s - String.length (str_drop_while p s)) s
  = str_take_while p s.
Proof.
  induction s as [|c t IH]; [reflexivity|]. cbn [str_drop_while str_take_while].
  destruct (p c).
  - pose proof (str_drop_while_length p t).
    replace (String.length (String c t) - String.length (str_drop_while p t))
      with (S (String.length t - String.length (str_drop_while p t)))
      by (cbn [String.length]; lia).
    cbn [str_take]. rewrite IH. reflexivity.
  - rewrite Nat.sub_diag. reflexivity.
Qed.

Lemma str_take_while_segment (c : ascii) (seg rest : string) :
  lacks c seg = true → startswith (String c "") rest = true ∨ rest = "" →
  str_take_while (λ x, negb (bool_decide (x = c))) (seg +:+ rest) = seg.
Proof.
  intros Hseg Hrest. induction seg as [|a seg IH].
  - rewrite str_app_nil_l. destruct Hrest as [H| ->]; [|reflexivity].
    destruct rest as [|b rest]; [discriminate|]. cbn in H |- *.
    rewrite andb_true_r in H. apply bool_decide_eq_true in H as <-.
    rewrite bool_decide_eq_true_2 by reflexivity. reflexivity.
  - cbn in Hseg. apply andb_prop in Hseg as [Ha Hseg].
    rewrite str_app_cons. cbn [str_take_while]. rewrite Ha, IH by assumption.
    reflexivity.
Qed.

Lemma str_take_while_all (p : ascii → bool) (s : string) :
  str_forall p s = true → str_take_while p s = s.
Proof.
  induction s as [|c s IH]; [reflexivity|]. cbn. intros H.
  apply andb_prop in H as [-> H]. rewrite IH by assumption. reflexivity.
Qed.

Lemma truthy_some (o : option string) (n : string) :
  truthy o = Some n → o = Some n ∧ n ≠ "".
Proof.
  destruct o as [[|c s]|]; cbn; intros [= <-]. split; [reflexivity|discriminate].
Qed.

(** ** Literals, alternatives and repetition in a pattern *)

Lemma rmatch_rlit {A} (a s : string) (g : option string)
    (k : string → option string → option A) :
  rmatch (rlit a) s g k
  = if startswith a s then k (str_drop (String.length a) s) g else None.
Proof.
  revert s. induction a as [|c a IH]; intros s; [reflexivity|].
  cbn [rlit rmatch]. destruct s as [|c' s]; [reflexivity|].
  cbn [startswith String.length str_drop].
  destruct (decide (c = c')) as [<-|Hne].
  - rewrite bool_decide_eq_true_2 by reflexivity. apply IH.
  - rewrite bool_decide_eq_false_2 by assumption. reflexivity.
Qed.

(** A pattern that begins with a literal is found only where the literal
    occurs. *)
Lemma re_search_literal (a : string) (r : regex) (s : string) :
  str_in a s = false → re_search (RSeq (rlit a) r) s = None.
Proof.
  induction s as [|c s IH]; intros H.
  - cbn [re_search]. unfold re_match. cbn [rmatch]. rewrite rmatch_rlit.
    rewrite (str_in_startswith _ _ H). reflexivity.
  - cbn [re_search]. unfold re_match. cbn [rmatch]. rewrite rmatch_rlit.
    rewrite (str_in_startswith _ _ H). apply IH. eapply str_in_tail, H.
Qed.

Lemma rmatch_ralts_cons {A} (a : string) (rest : list string) (s : string)
    (g : option string) (k : string → option string → option A) :
  rmatch (ralts (a :: rest)) s g k
  = match rmatch (rlit a) s g k with
    | Some x => Some x
    | None => rmatch (ralts rest) s g k
    end.
Proof.
  destruct rest as [|b rest]; [|reflexivity].
  cbn [ralts]. destruct (rmatch (rlit a) s g k); [reflexivity|].
  destruct s; reflexivity.
Qed.

Lemma rmatch_ralts_none {A} (alts : list string) (s : string) (g : option string)
    (k : string → option string → option A) :
  existsb (λ a, startswith a s) alts = false → rmatch (ralts alts) s g k = None.
Proof.
  induction alts as [|a alts IH]; intros H.
  - destruct s; reflexivity.
  - cbn in H. apply orb_false_elim in H as [Ha H].
    rewrite rmatch_ralts_cons, rmatch_rlit, Ha. apply IH, H.
Qed.

Lemma rmatch_ralts_first {A} (alts1 alts2 : list string) (a s : string)
    (g : option string) (k : string → option string → option A) (x : A) :
  existsb (λ a, startswith a s) alts1 = false →
  startswith a s = true →
  k (str_drop (String.length a) s) g = Some x →
  rmatch (ralts (alts1 ++ a :: alts2)) s g k = Some x.
Proof.
  intros H1 Ha Hk. induction alts1 as [|b alts1 IH]; cbn [app].
  - rewrite rmatch_ralts_cons, rmatch_rlit, Ha, Hk. reflexivity.
  - cbn in H1. apply orb_false_elim in H1 as [Hb H1].
    rewrite rmatch_ralts_cons, rmatch_rlit, Hb. apply IH, H1.
Qed.

(** Before a continuation that accepts everything, [[...]+] takes the
    longest run. *)
Lemma rmatch_plus_set_total {A} (p : ascii → bool) (s : string) (g : option string)
    (k : string → option string → option A) :
  (∀ s' g', k s' g' ≠ None) →
  rmatch (RPlus (RSet p)) s g k
  = match s with
    | String c _ => if p c then k (str_drop_while p s) g else None
    | EmptyString => None
    end.
Proof.
  intros Hk. cbn [rmatch].
  assert (String.length s ≤ String.length s) as Hn by reflexivity.
  revert Hn. generalize (String.length s) at 2 3 as n. intros n. revert s.
  induction n as [|n IH]; intros s Hn; destruct s as [|c t]; try reflexivity.
  - cbn in Hn. lia.
  - cbn [str_drop_while]. destruct (p c); [|reflexivity].
    rewrite IH by (cbn in Hn; lia).
    destruct t as [|c' t']; [reflexivity|]. cbn [str_drop_while].
    destruct (p c'); [|reflexivity].
    destruct (k (str_drop_while p t') g) eqn:E; [reflexivity|].
    exfalso. eapply Hk, E.
Qed.

Lemma re_capture_plus_set (p : ascii → bool) (s : string) (g : option string) :
  rmatch (RGrp (RPlus (RSet p))) s g (λ _ g', Some g')
  = match s with
    | String c _ => if p c then Some (Some (str_take_while p s)) else None
    | EmptyString => None
    end.
Proof.
  change (rmatch (RGrp (RPlus (RSet p))) s g (λ _ g', Some g'))
    with (rmatch (RPlus (RSet p)) s g
            (λ s' _, Some (Some (str_take (String.length s - String.length s') s)))).
  rewrite rmatch_plus_set_total by discriminate.
  destruct s as [|c t]; [reflexivity|]. destruct (p c); [|reflexivity].
  rewrite str_take_drop_while. reflexivity.
Qed.

Lemma rmatch_plus {A} (r : regex) (s : string) (g : option string)
    (k : string → option string → option A) :
  rmatch (RPlus r) s g k = plus_iter r k (String.length s) s g.
Proof. reflexivity. Qed.

Lemma plus_iter_eq {A} (r : regex) (k : string → option string → option A)
    (n : nat) (s : string) (g : option string) :
  plus_iter r k n s g
  = rmatch r s g (λ s' g',
      match n with
      | S n' =>
          match plus_iter r k n' s' g' with
          | Some x => Some x
          | None => k s' g'
          end
      | O => k s' g'
      end).
Proof. destruct n; reflexivity. Qed.

Lemma rmatch_chr_head {A} (c : ascii) (rest : string) (g : option string)
    (k : string → option string → option A) :
  rmatch (RChr c) (String c rest) g k = k rest g.
Proof. cbn. destruct (decide (c = c)); [reflexivity|congruence]. Qed.

Lemma rmatch_chr_other {A} (c b : ascii) (rest : string) (g : option string)
    (k : string → option string → option A) :
  negb (bool_decide (b = c)) = true → rmatch (RChr c) (String b rest) g k = None.
Proof.
  intros H. apply negb_true_iff, bool_decide_eq_false in H. cbn.
  destruct (decide (c = b)); [congruence|reflexivity].
Qed.

Lemma plus_iter_segment {A} (c : ascii) (rest : string) (g : option string)
    (k : string → option string → option A) (n : nat) (seg : string) :
  seg ≠ "" → lacks c seg = true → String.length seg ≤ S n →
  plus_iter (rnot c) (λ s' g', rmatch (RChr c) s' g' k) n (seg +:+ String c rest) g
  = k rest g.
Proof.
  revert seg. induction n as [|n IH]; intros seg Hne Hseg Hlen;
    (destruct seg as [|a s]; [congruence|]);
    cbn in Hseg; apply andb_prop in Hseg as [Ha Hs];
    rewrite str_app_cons, plus_iter_eq; unfold rnot at 1; cbn [rmatch]; rewrite Ha.
  - destruct s; [|cbn in Hlen; lia]. rewrite str_app_nil_l. apply rmatch_chr_head.
  - destruct s as [|b s].
    + rewrite str_app_nil_l, plus_iter_eq. unfold rnot at 1. cbn [rmatch].
      rewrite bool_decide_eq_true_2 by reflexivity. cbn [negb].
      apply rmatch_chr_head.
    + rewrite IH; [|discriminate|exact Hs|cbn in *; lia].
      destruct (k rest g) eqn:Ek; [reflexivity|].
      rewrite str_app_cons. apply rmatch_chr_other.
      cbn in Hs. apply andb_prop in Hs as [Hb _]. exact Hb.
Qed.

Lemma rmatch_plus_segment {A} (c : ascii) (seg rest : string) (g : option string)
    (k : string → option string → option A) :
  seg ≠ "" → lacks c seg = true →
  rmatch (RSeq (RPlus (rnot c)) (RChr c)) (seg +:+ String c rest) g k = k rest g.
Proof.
  intros Hne Hseg.
  change (rmatch (RSeq (RPlus (rnot c)) (RChr c)) (seg +:+ String c rest) g k)
    with (rmatch (RPlus (rnot c)) (seg +:+ String c rest) g
            (λ s' g', rmatch (RChr c) s' g' k)).
  rewrite rmatch_plus. apply plus_iter_segment; [assumption..|].
  rewrite length_app_str. lia.
Qed.

Lemma starts_none_tail (subs : list string) (k : nat) (c : ascii) (t : string) :
  starts_none subs (S k) (String c t) = true → starts_none subs k t = true.
Proof. cbn [starts_none]. intros H. apply andb_prop in H as [_ H]. exact H. Qed.

Lemma starts_none_head (subs : list string) (k : nat) (t : string) :
  starts_none subs (S k) t = true → existsb (λ a, startswith a t) subs = false.
Proof.
  cbn [starts_none]. intros H. apply andb_prop in H as [H _].
  apply negb_true_iff, H.
Qed.

Lemma re_search_skip (r : regex) (pre s : string) (P : nat → string → bool) :
  (∀ k t, P (S k) t = true → re_match r t = None) →
  (∀ k c t, P (S k) (String c t) = true → P k t = true) →
  P (String.length pre) (pre +:+ s) = true →
  re_search r (pre +:+ s) = re_search r s.
Proof.
  intros Hnone Hstep. induction pre as [|c pre IH]; intros HP.
  - rewrite str_app_nil_l. reflexivity.
  - rewrite str_app_cons in *. cbn [String.length] in HP. cbn [re_search].
    rewrite (Hnone _ _ HP). apply IH. eapply Hstep, HP.
Qed.

(** ** The path resolvers *)

(** X2: the second site pattern, [ftp://([^/]+)], never matches: it is
    searched in the path with every slash replaced by a backslash (line 105).
    Dropping it from the list of patterns changes no result. *)
Theorem ftp_pattern_never_matches (file_path : string) :
  site_by_pattern site_patterns (normalized file_path)
  = site_by_pattern (delete 1 site_patterns) (normalized file_path).
Proof.
  unfold site_patterns. cbn [delete list_delete site_by_pattern].
  rewrite (re_search_literal "ftp://").
  - reflexivity.
  - apply (lacks_str_in "/"); [reflexivity|].
    apply lacks_replace. discriminate.
Qed.

Lemma relative_by_root_none (roots : list string) (n : string) :
  existsb (λ r, str_in r n) roots = false → relative_by_root roots n = None.
Proof.
  induction roots as [|r roots IH]; [reflexivity|]. cbn.
  intros H. apply orb_false_elim in H as [-> H]. auto.
Qed.

Lemma relative_by_root_app (roots1 roots2 : list string) (n : string) :
  existsb (λ r, str_in r n) roots1 = false →
  relative_by_root (roots1 ++ roots2) n = relative_by_root roots2 n.
Proof.
  induction roots1 as [|r roots1 IH]; [reflexivity|]. cbn.
  intros H. apply orb_false_elim in H as [-> H]. auto.
Qed.

(** X3: when a root marker occurs in the path (slashes read as
    backslashes), the relative path is what follows the first occurrence of
    the first marker of the list that occurs at all, with backslashes turned
    into slashes: a marker earlier in the list wins over one that occurs
    earlier in the path. The result has no backslash. *)
Theorem relative_path_after_marker (roots1 roots2 : list string)
    (root file_path : string) :
  existsb (λ r, str_in r (normalized file_path)) roots1 = false →
  str_in root (normalized file_path) = true →
  ∃ pre rest,
    normalized file_path = pre +:+ root +:+ rest
    ∧ (∀ pre' rest', normalized file_path = pre' +:+ root +:+ rest' →
         String.length pre ≤ String.length pre')
    ∧ _extract_relative_path (roots1 ++ root :: roots2) file_path
      = replace_chr "\"%char "/"%char rest
    ∧ lacks "\"%char (_extract_relative_path (roots1 ++ root :: roots2) file_path) = true.
Proof.
  intros H1 Hin.
  destruct (str_split1_found _ _ Hin) as (pre & rest & Hs & Hn & Hmin).
  exists pre, rest. split; [assumption|]. split; [assumption|].
  assert (_extract_relative_path (roots1 ++ root :: roots2) file_path
          = replace_chr "\"%char "/"%char rest) as ->.
  { unfold _extract_relative_path. fold (normalized file_path).
    rewrite relative_by_root_app by assumption. cbn [relative_by_root].
    rewrite Hin, Hs. reflexivity. }
  split; [reflexivity|]. apply lacks_replace. discriminate.
Qed.

(** X4: a path in which no root marker and no [Temp\] occurs resolves to
    its base name, [os.path.basename] of the path as given. *)
Theorem relative_path_fallback (roots : list string) (file_path : string) :
  existsb (λ r, str_in r (normalized file_path)) roots = false →
  str_in "Temp\" (normalized file_path) = false →
  _extract_relative_path roots file_path = basename file_path.
Proof.
  intros H1 H2. unfold _extract_relative_path. fold (normalized file_path).
  rewrite relative_by_root_none by assumption.
  unfold temp_pattern. rewrite re_search_literal by assumption. reflexivity.
Qed.

(** X5: when the path holds one of the six markers of the first site
    pattern, the site name is the path segment that follows the leftmost
    occurrence of a marker: [pre] is the text before that occurrence (no
    marker starts inside it) and [seg] the run of characters up to the next
    backslash or the end of the path. The state is left as it was. *)
Theorem site_after_leftmost_marker (file_path pre m seg rest : string) (w : state) :
  normalized file_path = pre +:+ m +:+ seg +:+ rest →
  m ∈ site_markers →
  starts_none site_markers (String.length pre) (normalized file_path) = true →
  seg ≠ "" → lacks "\"%char seg = true →
  startswith "\" rest = true ∨ rest = "" →
  extract_site_name file_path w = (Ok seg, w).
Proof.
  intros Hn Hm Hfree Hseg Hlacks Hrest.
  unfold extract_site_name, try_except. fold (normalized file_path).
  assert (site_by_pattern site_patterns (normalized file_path) = Some seg) as ->;
    [|reflexivity].
  unfold site_patterns. cbn [site_by_pattern].
  fold site_markers.
  set (r := RSeq (ralts site_markers) (RGrp (RPlus (rnot "\"%char)))).
  assert (re_search r (normalized file_path) = Some (Some seg)) as ->; [|reflexivity].
  rewrite Hn in Hfree |- *.
  rewrite (re_search_skip r pre _ (starts_none site_markers)); [| | |assumption].
  - (* at the marker *)
    assert (re_match r (m +:+ seg +:+ rest) = Some (Some seg)) as Hmatch.
    { unfold re_match, r. cbn [rmatch].
      assert (∃ alts1 alts2, site_markers = alts1 ++ m :: alts2
                ∧ existsb (λ a, startswith a (m +:+ seg +:+ rest)) alts1 = false)
        as (alts1 & alts2 & -> & Hnot).
      { unfold site_markers in *.
        repeat (apply elem_of_cons in Hm as [->|Hm]).
        - eexists [], _. split; reflexivity.
        - eexists ["var\www\"], _. split; reflexivity.
        - eexists ["var\www\"; "www\"], _. split; reflexivity.
        - eexists ["var\www\"; "www\"; "public_html\"], _. split; reflexivity.
        - eexists ["var\www\"; "www\"; "public_html\"; "local\"], _. split; reflexivity.
        - eexists ["var\www\"; "www\"; "public_html\"; "local\"; "htdocs\"], _.
          split; reflexivity.
        - apply elem_of_nil in Hm. contradiction. }
      apply rmatch_ralts_first; [assumption|apply startswith_app|].
      rewrite drop_app_length.
      change (rmatch (RGrp (RPlus (rnot "\"%char))) (seg +:+ rest) None (λ _ g, Some g)
              = Some (Some seg)).
      unfold rnot. rewrite re_capture_plus_set.
      rewrite (str_take_while_segment "\"%char) by assumption.
      destruct seg as [|c seg]; [congruence|].
      rewrite str_app_cons. cbn in Hlacks. apply andb_prop in Hlacks as [-> _].
      reflexivity. }
    destruct (m +:+ seg +:+ rest) eqn:E; cbn [re_search]; rewrite Hmatch; reflexivity.
  - intros k t H. apply starts_none_head in H. unfold re_match, r. cbn [rmatch].
    apply rmatch_ralts_none, H.
  - apply starts_none_tail.
Qed.

(** X6: a path with no root marker, whose leftmost [Temp\] is followed by
    a folder name [seg] and a backslash, resolves to what comes after that
    folder (a non-empty [rest] without a line break), with backslashes turned
    into slashes. *)
Theorem relative_path_after_temp_folder (roots : list string)
    (file_path pre seg rest : string) :
  normalized file_path = pre +:+ "Temp\" +:+ seg +:+ "\" +:+ rest →
  existsb (λ r, str_in r (normalized file_path)) roots = false →
  starts_none ["Temp\"] (String.length pre) (normalized file_path) = true →
  seg ≠ "" → lacks "\"%char seg = true →
  rest ≠ "" → lacks "010"%char rest = true →
  _extract_relative_path roots file_path = replace_chr "\"%char "/"%char rest.
Proof.
  intros Hn Hroots Hpre Hseg Hlacks Hrest Hnl.
  unfold _extract_relative_path. fold (normalized file_path).
  rewrite relative_by_root_none by assumption.
  assert (re_search temp_pattern (normalized file_path) = Some (Some rest)) as ->;
    [|reflexivity].
  rewrite Hn in Hpre |- *. clear Hn Hroots.
  rewrite (re_search_skip temp_pattern pre _ (starts_none ["Temp\"]));
    [| |apply starts_none_tail|assumption].
  - assert (re_match temp_pattern ("Temp\" +:+ seg +:+ "\" +:+ rest) = Some (Some rest))
      as Hmatch; [|change ("Temp\" +:+ seg +:+ "\" +:+ rest)
                     with (String "T" ("emp\" +:+ seg +:+ "\" +:+ rest)) in *;
                   cbn [re_search]; rewrite Hmatch; reflexivity].
    unfold re_match, temp_pattern. cbn [rmatch]. rewrite rmatch_rlit.
    rewrite startswith_app, drop_app_length.
    change (rmatch (RSeq (RPlus (rnot "\"%char)) (RChr "\"%char))
              (seg +:+ String "\"%char rest) None
              (λ s' g', rmatch (RGrp (RPlus rdot)) s' g' (λ _ g, Some g))
            = Some (Some rest)).
    rewrite rmatch_plus_segment by assumption.
    unfold rdot, rnot. rewrite re_capture_plus_set.
    rewrite str_take_while_all by exact Hnl.
    destruct rest as [|c rest]; [congruence|].
    cbn in Hnl. apply andb_prop in Hnl as [-> _]. reflexivity.
  - intros k t H. apply starts_none_head in H. cbn [existsb] in H.
    rewrite orb_false_r in H.
    unfold re_match, temp_pattern. cbn [rmatch]. rewrite rmatch_rlit, H. reflexivity.
Qed.

(** ** What a call leaves alone in the file tree *)

Lemma kept_refl (t : gmap string node) (p : string) : kept t t p.
Proof. left. reflexivity. Qed.

Lemma kept_trans (t0 t1 t2 : gmap string node) (p : string) :
  kept t0 t1 p → kept t1 t2 p → kept t0 t2 p.
Proof.
  unfold kept. intros [E1|[N1 D1]] [E2|[N2 D2]].
  - left. congruence.
  - right. split; congruence.
  - right. split; congruence.
  - congruence.
Qed.

Lemma frame_refl (P : string → Prop) (t : gmap string node) : frame P t t.
Proof. split; [intros; apply kept_refl|auto]. Qed.

Lemma frame_trans (P : string → Prop) (t0 t1 t2 : gmap string node) :
  frame P t0 t1 → frame P t1 t2 → frame P t0 t2.
Proof.
  intros [K1 D1] [K2 D2]. split; [|auto].
  intros p Hp. eapply kept_trans; eauto.
Qed.

Lemma frame_weaken (P Q : string → Prop) (t0 t : gmap string node) :
  (∀ p, P p → Q p) → frame Q t0 t → frame P t0 t.
Proof. intros H [K D]. split; auto. Qed.

Lemma grow_frame (P : string → Prop) (t t' : gmap string node) :
  grow t t' → frame P t t'.
Proof.
  intros [F D]. split; [|exact D]. intros p _. unfold kept.
  destruct (t !! p) as [[d|]|] eqn:E.
  - left. apply F, E.
  - left. apply D, E.
  - destruct (t' !! p) as [[d|]|] eqn:E'; auto.
    apply F in E'. congruence.
Qed.

Lemma insert_frame (P : string → Prop) (t : gmap string node) (q : string) (d : data) :
  (∀ p, P p → p ≠ q) → stat t q ≠ Some Dir → frame P t (<[q := File d]> t).
Proof.
  intros HP Hq. split.
  - intros p Hp. left. apply lookup_insert_ne. intros <-. eapply HP; eauto.
  - intros p Hd. rewrite lookup_insert_ne; [assumption|]. intros <-.
    apply Hq. unfold stat. destruct (root_like q); congruence.
Qed.

Lemma delete_frame (P : string → Prop) (t : gmap string node) (q : string) (d : data) :
  (∀ p, P p → p ≠ q) → stat t q = Some (File d) → frame P t (delete q t).
Proof.
  intros HP Hq. split.
  - intros p Hp. left. apply lookup_delete_ne. intros <-. eapply HP; eauto.
  - intros p Hd. rewrite lookup_delete_ne; [assumption|]. intros <-.
    unfold stat in Hq. destruct (root_like q); congruence.
Qed.

Lemma frame_stat_dir (P : string → Prop) (t t' : gmap string node) (p : string) :
  frame P t t' → stat t p = Some Dir → stat t' p = Some Dir.
Proof.
  intros [_ D]. unfold stat. destruct (root_like p); [tauto|apply D].
Qed.

Section Spares.
Context {A B : Type}.
Implicit Types (P : string → Prop) (m : M A).

Lemma spares_weaken P Q m : (∀ p, P p → Q p) → spares Q m → spares P m.
Proof. intros H Hm w. eapply frame_weaken; eauto. Qed.

Lemma spares_fs P m : (∀ w, fs (snd (m w)) = fs w) → spares P m.
Proof. intros H w. rewrite H. apply frame_refl. Qed.

Lemma spares_ret P (a : A) : spares P (ret a).
Proof. apply spares_fs. reflexivity. Qed.

Lemma spares_raise P (e : exn) : spares P (@raise A e).
Proof. apply spares_fs. reflexivity. Qed.

Lemma spares_gets P (f : state → A) : spares P (gets f).
Proof. apply spares_fs. reflexivity. Qed.

Lemma spares_bind P m (k : A → M B) :
  spares P m → (∀ a, spares P (k a)) → spares P (bind m k).
Proof.
  intros Hm Hk w. unfold bind. specialize (Hm w).
  destruct (m w) as [[a|e] w1]; cbn [snd] in *; [|exact Hm].
  eapply frame_trans; [exact Hm|apply Hk].
Qed.

Lemma spares_try P m (h : exn → M A) :
  spares P m → (∀ e, spares P (h e)) → spares P (try_except m h).
Proof.
  intros Hm Hh w. unfold try_except. specialize (Hm w).
  destruct (m w) as [[a|e] w1]; cbn [snd] in *; [exact Hm|].
  eapply frame_trans; [exact Hm|apply Hh].
Qed.
End Spares.

Lemma spares_when (P : string → Prop) (b : bool) (m : M unit) :
  spares P m → spares P (when b m).
Proof. destruct b; [auto|intros _; apply spares_ret]. Qed.

Lemma spares_modify (P : string → Prop) (f : state → state) :
  (∀ w, fs (f w) = fs w) → spares P (modify f).
Proof. intros H. apply spares_fs. intros w. apply H. Qed.

Lemma spares_path_exists (P : string → Prop) (p : string) : spares P (path_exists p).
Proof. apply spares_gets. Qed.

Lemma spares_datetime_now (P : string → Prop) : spares P datetime_now.
Proof. apply spares_fs. reflexivity. Qed.

Lemma spares_extract_site_name (P : string → Prop) (file_path : string) :
  spares P (extract_site_name file_path).
Proof.
  apply spares_fs. intros w.
  destruct (extract_site_name_run file_path w) as [s ->]. reflexivity.
Qed.

Lemma spares_self_call {A} (P : string → Prop) (name : string) (m : M A) :
  spares P m → spares P (self_call name m).
Proof. unfold self_call. destruct (bool_decide _); [auto|intros _; apply spares_raise]. Qed.

Lemma spares_makedirs (P : string → Prop) (p : string) : spares P (makedirs p).
Proof.
  intros w. destruct (makedirs p w) as [[[]|e] w'] eqn:E; cbn [snd].
  - apply makedirs_ok in E as (t & G & ->). apply grow_frame, G.
  - assert (w' = w) as ->; [|apply frame_refl].
    unfold makedirs in E.
    repeat (destruct (_ : bool) in E; [injection E as _ <-; reflexivity|]).
    discriminate.
Qed.

Lemma copy2_raises (src dst : string) (w w' : state) (e : exn) :
  copy2 src dst w = (Raise e, w') → w' = w.
Proof.
  unfold copy2.
  repeat match goal with
         | |- context [match ?x with _ => _ end] => destruct x
         end; intros [= _ <-]; reflexivity.
Qed.

Lemma spares_copy2 (src dst : string) :
  spares (λ p, p = src ∨ (p ≠ dst ∧ p ≠ join2 dst (basename src))) (copy2 src dst).
Proof.
  intros w. destruct (copy2 src dst w) as [[[]|e] w'] eqn:E; cbn [snd].
  - apply copy2_ok in E as (d & dst' & Hsrc & Hdst & Hne & Hnd & ->). cbn [fs set_fs].
    apply insert_frame; [|assumption].
    intros p [->|[H1 H2]]; [assumption|].
    rewrite Hdst. destruct (stat (fs w) dst) as [[?|]|]; assumption.
  - apply copy2_raises in E as ->. apply frame_refl.
Qed.

Lemma spares_remove (q : string) : spares (λ p, p ≠ q) (remove q).
Proof.
  intros w. unfold remove. destruct (stat (fs w) q) as [[d|]|] eqn:E; cbn [snd].
  - cbn [fs set_fs]. eapply delete_frame; [|exact E]. auto.
  - apply frame_refl.
  - apply frame_refl.
Qed.

(** Lines 216-219 and 237-240: only the slot itself can change. *)
Lemma spares_refresh (file_path slot : string) :
  spares (λ p, p ≠ slot)
    (let* ex := path_exists slot in
     when ex (remove slot);;; copy2 file_path slot).
Proof.
  intros w. unfold bind at 1. unfold path_exists, gets.
  destruct (bool_decide_reflect (is_Some (stat (fs w) slot))) as [Hex|Hex].
  - unfold bind, when.
    destruct (remove slot w) as [[[]|e] w1] eqn:E.
    + apply remove_ok in E as (d0 & Hslot & ->).
      eapply frame_trans.
      { eapply delete_frame; [|exact Hslot]. auto. }
      destruct (copy2 file_path slot (set_fs (delete slot) w)) as [[[]|e] w2] eqn:E2;
        cbn [snd].
      * apply copy2_ok in E2 as (d & dst' & Hsrc & Hdst & Hne & Hnd & ->).
        cbn [fs set_fs] in *.
        assert (dst' = slot) as ->.
        { rewrite Hdst. unfold stat in *. destruct (root_like slot); [discriminate|].
          rewrite lookup_delete_eq. reflexivity. }
        apply insert_frame; auto.
      * apply copy2_raises in E2 as ->. apply frame_refl.
    + pose proof (spares_remove slot w) as H. rewrite E in H. exact H.
  - unfold bind, when, ret.
    destruct (copy2 file_path slot w) as [[[]|e] w2] eqn:E2; cbn [snd].
    + apply copy2_ok in E2 as (d & dst' & Hsrc & Hdst & Hne & Hnd & ->).
      cbn [fs set_fs] in *.
      assert (dst' = slot) as ->.
      { rewrite Hdst. destruct (stat (fs w) slot) eqn:E; [|reflexivity].
        exfalso. apply Hex. eauto. }
      apply insert_frame; auto.
    + apply copy2_raises in E2 as ->. apply frame_refl.
Qed.

Create HintDb spares.
#[local] Hint Resolve spares_ret spares_raise spares_gets spares_when spares_makedirs
  spares_path_exists spares_datetime_now spares_extract_site_name spares_self_call
  : spares.

Ltac spares_steps :=
  repeat first
    [ apply spares_bind; [|intros ?]
    | progress auto with spares
    | apply spares_modify; intros ?; reflexivity
    | match goal with
      | |- spares _ (match ?x with _ => _ end) => destruct x
      | |- spares _ (if ?x then _ else _) => destruct x
      end ].

Lemma spares_backup_dirs (P : string → Prop) (file_path : string)
    (server_name task_number : option string) :
  spares P (backup_dirs file_path server_name task_number).
Proof. unfold backup_dirs. spares_steps. Qed.

Lemma spares_backup_copy (file_path : string) (mode : option string) (c : backup_ctx) :
  spares (spared mode file_path (join (before_path c) [relative_path c])
            (join (after_path c) [relative_path c]))
    (backup_copy file_path mode c).
Proof.
  unfold backup_copy.
  destruct (bool_decide_reflect (mode = Some "before")) as [Hb|Hb];
    [|destruct (bool_decide_reflect (mode = Some "after")) as [Ha|Ha]].
  - apply spares_bind; [apply spares_makedirs|intros _].
    apply spares_bind; [|intros _; unfold create_entry_if_absent; spares_steps].
    eapply spares_weaken; [|apply spares_copy2].
    intros p [[H|[H|H]] _]; subst; auto; discriminate.
  - apply spares_bind; [apply spares_makedirs|intros _].
    eapply spares_weaken; [|apply spares_refresh].
    intros p [_ [H|H]]; subst; [discriminate|assumption].
  - apply spares_bind; [apply spares_makedirs|intros _].
    apply spares_bind; [apply spares_makedirs|intros _].
    apply spares_bind; [apply spares_gets|intros m].
    apply spares_bind.
    + apply spares_when. apply spares_bind; [|intros _; spares_steps].
      eapply spares_weaken; [|apply spares_copy2].
      intros p [[H|[H|H]] _]; subst; auto; contradiction.
    + intros _. eapply spares_weaken; [|apply spares_refresh].
      intros p [_ [H|H]]; subst; [contradiction|assumption].
Qed.

(** The file tree a call leaves is the one its copies leave. *)
Lemma backup_file_fs (file_path : string)
    (server_name mode task_number : option string) (w : state) :
  fs (after (backup_file file_path server_name mode task_number) w) = fs w
  ∨ fs (after (backup_file file_path server_name mode task_number) w)
    = fs (snd (backup_writes file_path server_name mode task_number w)).
Proof.
  unfold after.
  destruct (is_excluded file_path) eqn:Hex.
  { left. unfold backup_file, try_except. rewrite Hex. reflexivity. }
  destruct (bool_decide (is_Some (stat (fs w) file_path))) eqn:Hst.
  - right.
    destruct (backup_writes file_path server_name mode task_number w) as [[c|e] w1] eqn:Hw.
    + rewrite (backup_file_after_writes _ _ _ _ _ _ _ Hex (bool_decide_eq_true_1 _ Hst) Hw).
      apply fs_touched.
    + unfold backup_file, try_except. rewrite Hex.
      unfold bind at 1, path_exists, gets. rewrite Hst. cbn [negb].
      unfold bind at 1. rewrite Hw. reflexivity.
  - left. unfold backup_file, try_except. rewrite Hex.
    unfold bind at 1, path_exists, gets. rewrite Hst. reflexivity.
Qed.

Lemma backup_file_frame (file_path : string)
    (server_name mode task_number : option string) (w : state) :
  frame (spared mode file_path
           (slot_of "before" file_path server_name task_number w)
           (slot_of "after" file_path server_name task_number w))
    (fs w) (fs (after (backup_file file_path server_name mode task_number) w)).
Proof.
  destruct (backup_file_fs file_path server_name mode task_number w) as [-> | ->];
    [apply frame_refl|].
  unfold backup_writes, bind.
  pose proof (spares_backup_dirs
                (spared mode file_path
                   (slot_of "before" file_path server_name task_number w)
                   (slot_of "after" file_path server_name task_number w))
                file_path server_name task_number w) as Hd.
  destruct (backup_dirs file_path server_name task_number w) as [[c|e] w1] eqn:E;
    cbn [snd] in *; [|exact Hd].
  apply backup_dirs_ok in E as (_ & Hsite & Hrel & Hb & Ha).
  eapply frame_trans; [exact Hd|].
  pose proof (spares_backup_copy file_path mode c w1) as Hc.
  rewrite Hb, Ha, Hrel, Hsite in Hc. fold (slot_of "before" file_path server_name task_number w) in Hc.
  fold (slot_of "after" file_path server_name task_number w) in Hc.
  destruct (backup_copy file_path mode c w1) as [[[]|e] w2]; exact Hc.
Qed.

(** X7: whatever its outcome, a call changes the file tree at its two
    slots only (and, when the before slot is a directory, at the file named
    after the source inside it): every other path keeps its node or becomes
    a new directory, and no directory is removed or replaced. Mode "before"
    leaves the after slot alone and mode "after" the before slot. The
    configuration file in particular is never written. (The log file is not
    part of the modelled tree.) *)
Theorem backup_file_writes_slots_only (file_path : string)
    (server_name mode task_number : option string) (w : state) :
  let w' := after (backup_file file_path server_name mode task_number) w in
  let b := slot_of "before" file_path server_name task_number w in
  let a := slot_of "after" file_path server_name task_number w in
  (∀ p,
     mode = Some "after" ∨ (p ≠ b ∧ p ≠ join2 b (basename file_path)) →
     mode = Some "before" ∨ p ≠ a →
     fs w' !! p = fs w !! p ∨ (fs w !! p = None ∧ fs w' !! p = Some Dir))
  ∧ (∀ p, fs w !! p = Some Dir → fs w' !! p = Some Dir).
Proof.
  cbv zeta.
  destruct (backup_file_frame file_path server_name mode task_number w) as [K D].
  split; [|exact D]. intros p H1 H2. apply K. split; auto.
Qed.

(** X8: a call never changes or deletes the source file, whatever its
    outcome, unless the source is the after slot of the call itself (and the
    mode is not "before"). *)
Theorem backup_file_keeps_source (file_path : string)
    (server_name mode task_number : option string) (w : state) (d : data) :
  fs w !! file_path = Some (File d) →
  mode = Some "before"
  ∨ file_path ≠ slot_of "after" file_path server_name task_number w →
  fs (after (backup_file file_path server_name mode task_number) w) !! file_path
  = Some (File d).
Proof.
  intros Hf Hm.
  destruct (backup_file_frame file_path server_name mode task_number w) as [K _].
  destruct (K file_path) as [E|[E _]]; [|congruence..].
  split; [left; reflexivity|exact Hm].
Qed.

(** ** Files the call skips *)

(** The test of lines 151-152 is a substring test on the whole path: the
    base-name test and the first list entry add nothing. *)
Lemma is_excluded_substring (file_path : string) :
  is_excluded file_path
  = existsb (λ ext, str_in ext file_path) [".sublime-commands"; ".DS_Store"; "Thumbs.db"].
Proof.
  unfold is_excluded, excluded_files. cbn [existsb].
  destruct (str_in ".sublime-commands" file_path) eqn:E1;
    [cbn; rewrite !orb_true_r; reflexivity|].
  assert (str_in "default.sublime-commands" file_path = false) as ->.
  { destruct (str_in "default.sublime-commands" file_path) eqn:E; [|reflexivity].
    rewrite (str_in_trans ".sublime-commands" "default.sublime-commands") in E1;
      [discriminate|reflexivity|assumption]. }
  cbn [orb].
  destruct (str_in ".DS_Store" file_path) eqn:E2; [apply orb_true_r|].
  destruct (str_in "Thumbs.db" file_path) eqn:E3; [apply orb_true_r|].
  cbn [orb]. rewrite orb_false_r. apply bool_decide_eq_false.
  intros Hin. pose proof (str_in_basename file_path) as Hb.
  repeat (apply elem_of_cons in Hin as [Hin|Hin]; [rewrite Hin in Hb|]).
  - rewrite (str_in_trans ".sublime-commands" "default.sublime-commands") in E1;
      [discriminate|reflexivity|assumption].
  - congruence.
  - congruence.
  - congruence.
  - apply elem_of_nil in Hin. contradiction.
Qed.

(** X9: a path that contains [.sublime-commands], [.DS_Store] or
    [Thumbs.db] anywhere (in the file name or in a folder name), or that
    names nothing, is skipped: the call answers [(None, None)] and leaves
    the whole state as it was, clock included (it only logs). *)
Theorem backup_file_skips (file_path : string)
    (server_name mode task_number : option string) (w : state) :
  existsb (λ ext, str_in ext file_path) [".sublime-commands"; ".DS_Store"; "Thumbs.db"]
  = true
  ∨ stat (fs w) file_path = None →
  backup_file file_path server_name mode task_number w = (Ok (None, None), w).
Proof.
  intros H. unfold backup_file, try_except.
  rewrite is_excluded_substring.
  destruct (existsb _ _); [reflexivity|].
  destruct H as [H|H]; [discriminate|].
  unfold bind, path_exists, gets.
  rewrite bool_decide_eq_false_2; [reflexivity|].
  rewrite H. intros [? ?]. discriminate.
Qed.

(** ** The slot directories *)

Lemma makedirs_dir (p : string) (w w' : state) :
  makedirs p w = (Ok tt, w') → stat (fs w') p = Some Dir.
Proof.
  unfold makedirs.
  destruct (bool_decide_reflect (p = "")) as [|Hne]; [discriminate|].
  destruct (is_file (fs w) p); [discriminate|].
  destruct (existsb (is_file (fs w)) (ancestors p)); [discriminate|].
  intros [= <-]. unfold stat. destruct (root_like p) eqn:Hr; [reflexivity|].
  cbn [fs set_fs]. rewrite lookup_mkdirs.
  rewrite bool_decide_eq_true_2; [reflexivity|].
  unfold ancestors. destruct p as [|c p]; [congruence|].
  cbn [String.length ancestors_upto]. rewrite Hr.
  rewrite bool_decide_eq_false_2 by assumption. cbn [orb]. apply elem_of_cons. auto.
Qed.

Lemma backup_dirs_slots (file_path : string) (server_name task_number : option string)
    (w w' : state) (c : backup_ctx) :
  backup_dirs file_path server_name task_number w = (Ok c, w') →
  stat (fs w') (before_path c) = Some Dir ∧ stat (fs w') (after_path c) = Some Dir.
Proof.
  unfold backup_dirs. intros H.
  run_step H Hs. clear Hs.
  run_read H. run_read H. run_read H.
  run_step H Hs. clear Hs.
  run_read H.
  run_step H Hs. clear Hs.
  run_read H.
  run_step H Hs. clear Hs.
  run_step H Hs. apply makedirs_dir in Hs as Hb.
  run_step H Hs'. apply makedirs_dir in Hs' as Ha.
  apply makedirs_ok in Hs' as (t & G & ->).
  run_read H. injection H as <- <-. cbn [before_path after_path].
  cbn [fs set_fs] in *. split; [|assumption].
  eapply grow_stat_dir; eassumption.
Qed.

(** X10: after a call that gets through its copies, in any mode, the
    [before] and the [after] directory of the task folder both exist: mode
    "after" makes the [before] directory too, and mode "before" the [after]
    one. *)
Theorem slot_directories_made (file_path : string)
    (server_name mode task_number : option string) (w w1 : state) (c : backup_ctx) :
  is_excluded file_path = false →
  is_Some (stat (fs w) file_path) →
  backup_writes file_path server_name mode task_number w = (Ok c, w1) →
  let w' := after (backup_file file_path server_name mode task_number) w in
  let task_folder :=
    task_folder_of (resolve_site file_path server_name w) task_number
      (clock w (ticks w)) (backup_root w) in
  stat (fs w') (join task_folder ["before"]) = Some Dir
  ∧ stat (fs w') (join task_folder ["after"]) = Some Dir.
Proof.
  intros Hex Hf Hw. cbv zeta. unfold after.
  rewrite (backup_file_after_writes _ _ _ _ _ _ _ Hex Hf Hw). cbn [snd].
  rewrite fs_touched.
  unfold backup_writes in Hw. run_step Hw Hd. run_step Hw Hc.
  injection Hw as <- <-.
  pose proof (backup_dirs_slots _ _ _ _ _ _ Hd) as [Hb Ha].
  apply backup_dirs_ok in Hd as (_ & Hsite & _ & Eb & Ea).
  rewrite <- Hsite, <- Eb, <- Ea.
  pose proof (spares_backup_copy file_path mode a w0) as Hframe.
  rewrite Hc in Hframe. cbn [snd] in Hframe.
  split; eapply frame_stat_dir; eassumption.
Qed.

(** ** Mode "after" *)

(** X11: the exception of X8 is real. When the file handed to a call in
    mode "after" is the after slot of that call (a copy made by an earlier
    call, opened and saved again), and the directories can be made, the call
    removes the file (line 217), finds nothing to copy (line 219) and leaves
    no file at that path. *)
Theorem after_mode_on_own_slot_deletes (file_path : string)
    (server_name task_number : option string) (w w1 w2 : state) (c : backup_ctx)
    (d : data) :
  is_excluded file_path = false →
  stat (fs w) file_path = Some (File d) →
  file_path = slot_of "after" file_path server_name task_number w →
  backup_dirs file_path server_name task_number w = (Ok c, w1) →
  makedirs (dirname file_path) w1 = (Ok tt, w2) →
  fs (after (backup_file file_path server_name (Some "after") task_number) w)
    !! file_path = None.
Proof.
  intros Hex Hst Hslot Hd Hm.
  assert (root_like file_path = false) as Hroot.
  { unfold stat in Hst. destruct (root_like file_path); [discriminate|reflexivity]. }
  assert (fs w !! file_path = Some (File d)) as Hf.
  { unfold stat in Hst. rewrite Hroot in Hst. exact Hst. }
  pose proof Hd as Hd'.
  apply backup_dirs_ok in Hd' as ((t1 & G1 & ->) & Hsite & Hrel & _ & Ha).
  apply makedirs_ok in Hm as Hm'. destruct Hm' as (t2 & G2 & ->).
  cbn [fs set_fs tick] in *.
  assert (join (after_path c) [relative_path c] = file_path) as Hown.
  { rewrite Ha, Hrel, Hsite. symmetry. exact Hslot. }
  assert (t2 !! file_path = Some (File d)) as Hf2.
  { apply G2, G1, Hf. }
  unfold after, backup_file, try_except. rewrite Hex.
  unfold bind at 1, path_exists, gets.
  rewrite bool_decide_eq_true_2.
  2:{ unfold stat. rewrite Hroot, Hf. eauto. }
  cbn [negb]. unfold bind at 1, backup_writes. unfold bind at 1. rewrite Hd.
  unfold bind at 1, backup_copy. cbn [bool_decide decide_rel].
  rewrite bool_decide_eq_false_2 by discriminate.
  rewrite bool_decide_eq_true_2 by reflexivity.
  rewrite Hown. unfold bind at 1. rewrite Hm.
  unfold bind at 1, path_exists, gets. cbn [fs set_fs].
  rewrite bool_decide_eq_true_2.
  2:{ unfold stat. rewrite Hroot, Hf2. eauto. }
  unfold bind at 1, when, remove. cbn [fs set_fs]. unfold stat at 1. rewrite Hroot, Hf2.
  unfold copy2. cbn [fs set_fs]. unfold stat at 1. rewrite Hroot, lookup_delete_eq.
  cbn. apply lookup_delete_eq.
Qed.

Lemma stat_file_lookup (t : gmap string node) (p : string) (d : data) :
  stat t p = Some (File d) → root_like p = false ∧ t !! p = Some (File d).
Proof. unfold stat. destruct (root_like p); [discriminate|auto]. Qed.

(** A "before" call that gets through its copy leaves the source content in
    the before slot and the source as it was. *)
Lemma before_writes_slot (file_path : string) (server_name task_number : option string)
    (w w1 : state) (c : backup_ctx) (d : data) :
  stat (fs w) file_path = Some (File d) →
  backup_writes file_path server_name (Some "before") task_number w = (Ok c, w1) →
  stat (fs w1) (join (before_path c) [relative_path c]) ≠ Some Dir →
  fs w1 !! join (before_path c) [relative_path c] = Some (File d)
  ∧ file_path ≠ join (before_path c) [relative_path c]
  ∧ fs w1 !! file_path = Some (File d).
Proof.
  intros Hf Hw Hslot. unfold backup_writes in Hw.
  run_step Hw Hd. apply backup_dirs_ok in Hd as ((t1 & G1 & ->) & _).
  run_step Hw Hc. injection Hw as <- <-.
  apply backup_copy_before_ok with (d := d) in Hc
    as (t & dst' & G & Hdst & Hne & Hnd & ->);
    [|cbn; apply (grow_stat_file _ _ file_path d) in G1; apply G1; assumption].
  set (slot := join (before_path a) [relative_path a]) in *.
  match goal with
  | |- context [fs ?x !! slot] => set (w1 := x) in *
  end.
  assert (fs w1 = <[dst' := File d]> t) as Hfs.
  { unfold w1. destruct (server_backup_map _ !! relative_path a); reflexivity. }
  clearbody w1. rewrite Hfs in *. clear Hfs. cbn [fs set_fs tick] in G.
  assert (dst' = slot) as ->.
  { destruct (decide (dst' = slot)) as [|Hds]; [assumption|].
    exfalso. apply Hslot.
    assert (stat t slot = Some Dir) as E.
    { unfold copy_target in Hdst. destruct (stat t slot) as [[?|]|]; congruence. }
    unfold stat in E |- *. destruct (root_like slot); [reflexivity|].
    rewrite lookup_insert_ne by assumption. assumption. }
  split; [apply lookup_insert_eq|]. split; [assumption|].
  rewrite lookup_insert_ne by congruence.
  apply stat_file_lookup in Hf as [_ Hf]. apply G, G1, Hf.
Qed.

(** An "after" call that gets through its copy writes the after slot and
    no other file. *)
Lemma after_writes_slot (file_path : string) (server_name task_number : option string)
    (w w1 : state) (c : backup_ctx) (d : data) :
  stat (fs w) file_path = Some (File d) →
  backup_writes file_path server_name (Some "after") task_number w = (Ok c, w1) →
  file_path ≠ join (after_path c) [relative_path c]
  ∧ ∃ t, grow (fs w) t ∧ fs w1 = <[join (after_path c) [relative_path c] := File d]> t.
Proof.
  intros Hf Hw. unfold backup_writes in Hw.
  run_step Hw Hd. apply backup_dirs_ok in Hd as ((t1 & G1 & ->) & _).
  run_step Hw Hc. injection Hw as <- <-.
  apply backup_copy_after_ok with (d := d) in Hc as (t & G & Hne & ->);
    [|cbn; apply (grow_stat_file _ _ file_path d) in G1; apply G1; assumption].
  split; [assumption|]. exists t. split; [|reflexivity].
  cbn [fs set_fs tick] in *. eapply grow_trans; eassumption.
Qed.

(** X12: for a file that exists and is not excluded, an "after" call that
    gets through its copy leaves the source content in the after slot,
    whatever the slot held, and the source as it was; the slot is the join
    of the task folder, [after] and the relative path. *)
Theorem after_mode_overwrites_slot (file_path : string)
    (server_name task_number : option string) (w w1 : state) (c : backup_ctx)
    (d : data) :
  is_excluded file_path = false →
  stat (fs w) file_path = Some (File d) →
  backup_writes file_path server_name (Some "after") task_number w = (Ok c, w1) →
  let w' := after (backup_file file_path server_name (Some "after") task_number) w in
  fs w' !! slot_of "after" file_path server_name task_number w = Some (File d)
  ∧ fs w' !! file_path = Some (File d)
  ∧ file_path ≠ slot_of "after" file_path server_name task_number w.
Proof.
  intros Hex Hf Hw. cbv zeta. unfold after.
  rewrite (backup_file_after_writes _ _ _ _ _ _ _ Hex (ex_intro _ _ Hf) Hw). cbn [snd].
  rewrite fs_touched.
  destruct (after_writes_slot _ _ _ _ _ _ _ Hf Hw) as (Hne & t & G & Hfs).
  assert (join (after_path c) [relative_path c]
          = slot_of "after" file_path server_name task_number w) as E.
  { unfold backup_writes in Hw. run_step Hw Hd. run_step Hw Hc. injection Hw as <- _.
    apply backup_dirs_ok in Hd as (_ & Hsite & Hrel & _ & Ha).
    unfold slot_of. rewrite Ha, Hrel, Hsite. reflexivity. }
  rewrite E in *. rewrite Hfs. split; [apply lookup_insert_eq|].
  split; [|assumption].
  rewrite lookup_insert_ne by (intros E'; apply Hne; symmetry; exact E').
  apply stat_file_lookup in Hf as [_ Hf]. apply G, Hf.
Qed.

(** ** Default mode on a path that has an entry *)

Lemma spares_backup_copy_entry (file_path : string) (mode : option string)
    (c : backup_ctx) (e : gmap string string) (w : state) :
  mode ≠ Some "before" → mode ≠ Some "after" →
  server_backup_map w !! relative_path c = Some e →
  frame (λ p, p ≠ join (after_path c) [relative_path c]) (fs w)
    (fs (snd (backup_copy file_path mode c w))).
Proof.
  intros Hb Ha He. unfold backup_copy.
  rewrite !bool_decide_eq_false_2 by assumption.
  set (P := λ p, p ≠ join (after_path c) [relative_path c]).
  unfold bind at 1.
  pose proof (spares_makedirs P (dirname (join (before_path c) [relative_path c])) w)
    as F1.
  destruct (quiet_makedirs (dirname (join (before_path c) [relative_path c])) w)
    as [M1 _].
  destruct (makedirs _ w) as [[[]|x] w1]; cbn [snd] in *; [|exact F1].
  eapply frame_trans; [exact F1|]. clear F1.
  unfold bind at 1.
  pose proof (spares_makedirs P (dirname (join (after_path c) [relative_path c])) w1)
    as F2.
  destruct (quiet_makedirs (dirname (join (after_path c) [relative_path c])) w1)
    as [M2 _].
  destruct (makedirs _ w1) as [[[]|x] w2]; cbn [snd] in *; [|exact F2].
  eapply frame_trans; [exact F2|]. clear F2.
  unfold bind at 1, gets. rewrite M2, M1, He.
  rewrite bool_decide_eq_false_2 by discriminate.
  unfold bind at 1, when, ret.
  apply (spares_refresh file_path (join (after_path c) [relative_path c]) w2).
Qed.

(** X13: once the manifest has an entry for the relative path, a call in
    default mode changes nothing but the after slot, whatever its outcome:
    the before copy stays as it is. *)
Theorem default_mode_keeps_before_copy (file_path : string)
    (server_name mode task_number : option string) (w : state)
    (e : gmap string string) :
  mode ≠ Some "before" → mode ≠ Some "after" →
  server_backup_map w !! _extract_relative_path (project_roots w) file_path = Some e →
  let w' := after (backup_file file_path server_name mode task_number) w in
  ∀ p, p ≠ slot_of "after" file_path server_name task_number w →
    fs w' !! p = fs w !! p ∨ (fs w !! p = None ∧ fs w' !! p = Some Dir).
Proof.
  intros Hb Ha He. cbv zeta.
  assert (frame (λ p, p ≠ slot_of "after" file_path server_name task_number w) (fs w)
            (fs (after (backup_file file_path server_name mode task_number) w)))
    as [K _]; [|exact K].
  destruct (backup_file_fs file_path server_name mode task_number w) as [-> | ->];
    [apply frame_refl|].
  unfold backup_writes, bind.
  pose proof (spares_backup_dirs
                (λ p, p ≠ slot_of "after" file_path server_name task_number w)
                file_path server_name task_number w) as Hd.
  destruct (quiet_backup_dirs file_path server_name task_number w) as [Hm _].
  destruct (backup_dirs file_path server_name task_number w) as [[c|x] w1] eqn:E;
    cbn [snd] in *; [|exact Hd].
  apply backup_dirs_ok in E as (_ & Hsite & Hrel & _ & Hafter).
  eapply frame_trans; [exact Hd|].
  assert (server_backup_map w1 !! relative_path c = Some e) as He1
    by (rewrite Hm, Hrel; exact He).
  pose proof (spares_backup_copy_entry file_path mode c e w1 Hb Ha He1) as Hc.
  rewrite Hafter, Hrel, Hsite in Hc.
  fold (slot_of "after" file_path server_name task_number w) in Hc.
  destruct (backup_copy file_path mode c w1) as [[[]|x] w2]; exact Hc.
Qed.

(** ** The layout of the backup tree *)

Lemma server_key_no_sep (site : string) : no_sep (server_key_of site) = true.
Proof.
  unfold no_sep, server_key_of, re_sub_class.
  induction site as [|c s IH]; [reflexivity|]. cbn [str_map str_forall].
  rewrite IH, andb_true_r.
  destruct (keeps_in_key c) eqn:E; cbn [negb]; [|reflexivity].
  apply negb_true_iff, bool_decide_eq_false. intros ->. discriminate E.
Qed.

(** X14: the slot of a call is
    [<root>/<site key>/<Month Year>[/task_<n>]/<before|after>/<relative path>],
    for a root that is not empty and does not end with a slash, a site key
    that is not empty, a task number that does not end with a slash and a
    relative path that does not start with one. *)
Theorem slot_layout (leaf file_path : string) (server_name task_number : option string)
    (w : state) :
  let root := backup_root w in
  let key := server_key_of (resolve_site file_path server_name w) in
  let rel := _extract_relative_path (project_roots w) file_path in
  leaf = "before" ∨ leaf = "after" →
  root ≠ "" → endswith "/" root = false →
  key ≠ "" →
  endswith "/" (default "" task_number) = false →
  startswith "/" rel = false →
  slot_of leaf file_path server_name task_number w
  = root +:+ "/" +:+ key +:+ "/" +:+ strftime_month_year (clock w (ticks w))
    +:+ task_part task_number +:+ "/" +:+ leaf +:+ "/" +:+ rel.
Proof.
  cbv zeta. intros Hleaf Hroot Hend Hkey Htask Hrel.
  unfold slot_of, task_folder_of, task_part.
  set (key := server_key_of _) in *.
  set (rel := _extract_relative_path _ _) in *.
  destruct (month_year_no_sep (clock w (ticks w))) as [Hns Hne].
  set (my := strftime_month_year _) in *.
  assert (no_sep key = true) as Hk by apply server_key_no_sep.
  assert (leaf ≠ "" ∧ no_sep leaf = true) as [Hl1 Hl2].
  { destruct Hleaf as [-> | ->]; split; (discriminate || reflexivity). }
  unfold join. cbn [foldl].
  rewrite (join2_plain (backup_root w) key)
    by (first [apply startswith_sep_no_sep; assumption | assumption]).
  rewrite (join2_plain _ my); [|apply startswith_sep_no_sep; assumption| |].
  2:{ destruct (backup_root w); [congruence|discriminate]. }
  2:{ rewrite <- app_assoc_str. apply endswith_sep_app; assumption. }
  destruct (truthy task_number) as [n|] eqn:Et.
  - apply truthy_some in Et as [-> Hn]. cbn [from_option id] in Htask.
    cbn [foldl].
    rewrite (join2_plain _ ("task_" +:+ n)); [|reflexivity| |].
    2:{ destruct (backup_root w); [congruence|discriminate]. }
    2:{ rewrite <- !app_assoc_str. apply endswith_sep_app; assumption. }
    rewrite (join2_plain _ leaf); [|apply startswith_sep_no_sep; assumption| |].
    2:{ destruct (backup_root w); [congruence|discriminate]. }
    2:{ rewrite <- !app_assoc_str, endswith_app_nonempty; assumption. }
    rewrite (join2_plain _ rel); [|assumption| |].
    2:{ destruct (backup_root w); [congruence|discriminate]. }
    2:{ rewrite <- !app_assoc_str. apply endswith_sep_app; assumption. }
    rewrite !app_assoc_str. reflexivity.
  - cbn [foldl].
    rewrite (join2_plain _ leaf); [|apply startswith_sep_no_sep; assumption| |].
    2:{ destruct (backup_root w); [congruence|discriminate]. }
    2:{ rewrite <- !app_assoc_str. apply endswith_sep_app; assumption. }
    rewrite (join2_plain _ rel); [|assumption| |].
    2:{ destruct (backup_root w); [congruence|discriminate]. }
    2:{ rewrite <- !app_assoc_str. apply endswith_sep_app; assumption. }
    rewrite !app_assoc_str. reflexivity.
Qed.

(** ** The module global *)

Section SameTask.
Context {A B : Type}.
Implicit Types (m : M A).

Lemma same_task_ret (a : A) : same_task (ret a).
Proof. intros w. reflexivity. Qed.

Lemma same_task_raise (e : exn) : same_task (@raise A e).
Proof. intros w. reflexivity. Qed.

Lemma same_task_gets (f : state → A) : same_task (gets f).
Proof. intros w. reflexivity. Qed.

Lemma same_task_bind m (k : A → M B) :
  same_task m → (∀ a, same_task (k a)) → same_task (bind m k).
Proof.
  intros Hm Hk w. unfold bind. specialize (Hm w).
  destruct (m w) as [[a|e] w1]; cbn [snd] in *; [|exact Hm].
  rewrite Hk. exact Hm.
Qed.

Lemma same_task_try m (h : exn → M A) :
  same_task m → (∀ e, same_task (h e)) → same_task (try_except m h).
Proof.
  intros Hm Hh w. unfold try_except. specialize (Hm w).
  destruct (m w) as [[a|e] w1]; cbn [snd] in *; [exact Hm|].
  rewrite Hh. exact Hm.
Qed.
End SameTask.

Lemma same_task_when (b : bool) (m : M unit) : same_task m → same_task (when b m).
Proof. destruct b; [auto|intros _; apply same_task_ret]. Qed.

Lemma same_task_makedirs (p : string) : same_task (makedirs p).
Proof.
  intros w. unfold makedirs.
  repeat (destruct (_ : bool); [reflexivity|]). reflexivity.
Qed.

Lemma same_task_copy2 (src dst : string) : same_task (copy2 src dst).
Proof.
  intros w. unfold copy2.
  repeat match goal with
         | |- context [match ?x with _ => _ end] => destruct x
         end; reflexivity.
Qed.

Lemma same_task_remove (p : string) : same_task (remove p).
Proof. intros w. unfold remove. destruct (stat (fs w) p) as [[?|]|]; reflexivity. Qed.

Lemma same_task_write_zip (zip_path folder_path : string) :
  same_task (write_zip zip_path folder_path).
Proof. intros w. unfold write_zip. destruct (stat (fs w) zip_path) as [[?|]|]; reflexivity. Qed.

Lemma same_task_path_exists (p : string) : same_task (path_exists p).
Proof. apply same_task_gets. Qed.

Lemma same_task_datetime_now : same_task datetime_now.
Proof. intros w. reflexivity. Qed.

Lemma same_task_extract_site_name (file_path : string) :
  same_task (extract_site_name file_path).
Proof.
  intros w. destruct (extract_site_name_run file_path w) as [s ->]. reflexivity.
Qed.

Lemma same_task_self_call {A} (name : string) (m : M A) :
  same_task m → same_task (self_call name m).
Proof.
  unfold self_call. destruct (bool_decide _); [auto|intros _; apply same_task_raise].
Qed.

Lemma same_task_set_map (f : manifest → manifest) : same_task (modify (set_map f)).
Proof. intros w. reflexivity. Qed.

Create HintDb same_task.
#[local] Hint Resolve same_task_ret same_task_raise same_task_gets same_task_when
  same_task_makedirs same_task_copy2 same_task_remove same_task_write_zip
  same_task_path_exists same_task_datetime_now same_task_extract_site_name
  same_task_self_call same_task_set_map : same_task.

Ltac same_task_steps :=
  repeat first
    [ progress auto with same_task
    | apply same_task_bind; [|intros ?]
    | apply same_task_try; [|intros ?]
    | apply same_task_when
    | match goal with
      | |- same_task (match ?x with _ => _ end) => destruct x
      | |- same_task (if ?x then _ else _) => destruct x
      end ].

Lemma same_task_backup_file (file_path : string)
    (server_name mode task_number : option string) :
  same_task (backup_file file_path server_name mode task_number).
Proof.
  unfold backup_file, backup_writes, backup_dirs, backup_copy, touch_entry,
    create_entry_if_absent.
  same_task_steps.
Qed.

(** ** The archive *)

Lemma spares_write_zip (zip_path folder_path : string) :
  spares (λ p, p ≠ zip_path) (write_zip zip_path folder_path).
Proof.
  intros w. unfold write_zip.
  destruct (stat (fs w) zip_path) as [[d|]|] eqn:E; cbn [snd fs set_fs];
    try apply frame_refl.
  - eapply frame_trans; apply insert_frame; auto.
    + congruence.
    + unfold stat in *. destruct (root_like zip_path); [discriminate|].
      rewrite lookup_insert_eq. discriminate.
  - eapply frame_trans; apply insert_frame; auto.
    + congruence.
    + unfold stat in *. destruct (root_like zip_path); [discriminate|].
      rewrite lookup_insert_eq. discriminate.
Qed.

(** What a call that does not stop at a missing folder runs. *)
Lemma create_zip_archive_run (folder_path : string) (folder_type : option string)
    (w : state) :
  is_Some (stat (fs w) folder_path) →
  create_zip_archive folder_path folder_type w
  = try_except
      (makedirs (dirname (zip_path_of folder_path folder_type w));;;
       write_zip (zip_path_of folder_path folder_type w) (normpath folder_path);;;
       modify (set_task None);;;
       ret (Some (zip_path_of folder_path folder_type w)))
      (λ _, ret None) (tick w).
Proof.
  intros H. unfold create_zip_archive, try_except.
  unfold bind at 1, path_exists, gets.
  rewrite bool_decide_eq_true_2 by assumption. reflexivity.
Qed.

Lemma create_zip_archive_missing (folder_path : string) (folder_type : option string)
    (w : state) :
  stat (fs w) folder_path = None →
  create_zip_archive folder_path folder_type w = (Ok None, w).
Proof.
  intros Hst. unfold create_zip_archive, try_except, bind, path_exists, gets.
  rewrite Hst. rewrite bool_decide_eq_false_2; [reflexivity|].
  intros [? ?]. discriminate.
Qed.

(** The two ways a call on an existing folder ends. *)
Lemma create_zip_archive_cases (folder_path : string) (folder_type : option string)
    (w : state) :
  is_Some (stat (fs w) folder_path) →
  (∃ w', create_zip_archive folder_path folder_type w = (Ok None, w')
         ∧ CURRENT_TASK_NUMBER w' = CURRENT_TASK_NUMBER w)
  ∨ (∃ w' members,
       create_zip_archive folder_path folder_type w
       = (Ok (Some (zip_path_of folder_path folder_type w)), set_task None w')
       ∧ fs w' !! zip_path_of folder_path folder_type w = Some (File (Zip members))).
Proof.
  intros Hst. rewrite create_zip_archive_run by assumption.
  set (zp := zip_path_of folder_path folder_type w).
  unfold try_except, bind.
  pose proof (same_task_makedirs (dirname zp) (tick w)) as T1.
  destruct (makedirs (dirname zp) (tick w)) as [[[]|e] w1]; cbn [snd] in T1.
  2:{ left. eexists. split; [reflexivity|exact T1]. }
  pose proof (same_task_write_zip zp (normpath folder_path) w1) as T2.
  destruct (write_zip zp (normpath folder_path) w1) as [[[]|e] w2] eqn:E2; cbn [snd] in T2.
  2:{ left. eexists. split; [reflexivity|rewrite T2, T1; reflexivity]. }
  right. unfold write_zip in E2.
  destruct (stat (fs w1) zp) as [[?|]|]; try discriminate; injection E2 as <-;
    eexists _, _; (split; [reflexivity|apply lookup_insert_eq]).
Qed.

(** X15: [create_zip_archive] never raises. For a folder that does not
    exist it answers [None] and changes nothing at all. When it answers
    [None] the task number is as before; when it answers a path, that path is
    the join of the target directory and the archive name for the clock
    reading of the call, an archive is there, and the task number is reset
    to [None]. *)
Theorem create_zip_archive_outcomes (folder_path : string)
    (folder_type : option string) (w : state) :
  let w' := after (create_zip_archive folder_path folder_type) w in
  (stat (fs w) folder_path = None →
   create_zip_archive folder_path folder_type w = (Ok None, w))
  ∧ (result (create_zip_archive folder_path folder_type) w = Ok None →
     CURRENT_TASK_NUMBER w' = CURRENT_TASK_NUMBER w)
  ∧ (∀ zip_path,
       result (create_zip_archive folder_path folder_type) w = Ok (Some zip_path) →
       CURRENT_TASK_NUMBER w' = None
       ∧ zip_path = zip_path_of folder_path folder_type w
       ∧ ∃ members, fs w' !! zip_path = Some (File (Zip members)))
  ∧ (result (create_zip_archive folder_path folder_type) w = Ok None
     ∨ result (create_zip_archive folder_path folder_type) w
       = Ok (Some (zip_path_of folder_path folder_type w))).
Proof.
  cbv zeta. unfold result, after.
  split; [apply create_zip_archive_missing|].
  destruct (stat (fs w) folder_path) as [nd|] eqn:Hst.
  2:{ rewrite (create_zip_archive_missing _ _ _ Hst).
      cbn. split; [reflexivity|]. split; [discriminate|]. left. reflexivity. }
  destruct (create_zip_archive_cases folder_path folder_type w) as
    [(w' & -> & Ht)|(w' & members & -> & Hz)]; [rewrite Hst; eauto| |]; cbn [fst snd].
  - split; [auto|]. split; [discriminate|]. left. reflexivity.
  - split; [discriminate|]. split; [|right; reflexivity].
    intros zip_path [= <-]. split; [reflexivity|]. split; [reflexivity|].
    exists members. exact Hz.
Qed.

Lemma write_zip_members (zip_path folder_path : string) (w w' : state) :
  write_zip zip_path folder_path w = (Ok tt, w') →
  ∃ members,
    fs w' !! zip_path = Some (File (Zip members))
    ∧ ∀ n d,
        (n, d) ∈ members
        ↔ ∃ k, startswith (join2 folder_path "") k = true
               ∧ n = relpath k folder_path
               ∧ (k = zip_path ∧ d = Zip []
                  ∨ k ≠ zip_path ∧ fs w !! k = Some (File d)).
Proof.
  unfold write_zip. intros H.
  set (t1 := <[zip_path := File (Zip [])]> (fs w)) in *.
  set (pick := λ kv : string * node,
         match kv with
         | (k, File d) =>
             if startswith (join2 folder_path "") k
             then Some (relpath k folder_path, d) else None
         | (_, Dir) => None
         end) in *.
  assert (w' = set_fs (λ _, <[zip_path := File (Zip (omap pick (map_to_list t1)))]> t1) w)
    as ->.
  { destruct (stat (fs w) zip_path) as [[?|]|]; try discriminate;
      injection H as <-; reflexivity. }
  clear H. eexists. split; [apply lookup_insert_eq|].
  intros n d. rewrite list_elem_of_omap. split.
  - intros ([k nd] & Hin & Hpick). apply elem_of_map_to_list in Hin.
    unfold pick in Hpick. destruct nd as [d'|]; [|discriminate].
    destruct (startswith _ k) eqn:Hsw; [|discriminate].
    injection Hpick as <- <-. exists k. split; [assumption|]. split; [reflexivity|].
    unfold t1 in Hin. destruct (decide (k = zip_path)) as [->|Hne].
    + rewrite lookup_insert_eq in Hin. injection Hin as <-. auto.
    + rewrite lookup_insert_ne in Hin by congruence. auto.
  - intros (k & Hsw & -> & Hk). exists (k, File d). split.
    + apply elem_of_map_to_list. unfold t1.
      destruct Hk as [[-> ->]|[Hne Hk]].
      * apply lookup_insert_eq.
      * rewrite lookup_insert_ne by congruence. exact Hk.
    + unfold pick. rewrite Hsw. reflexivity.
Qed.

(** X16: the archive of a call that answers a path holds the files below
    the (normalised) folder, each under its path relative to the folder and
    with its content: every member but the archive itself is such a file,
    and every such file but the archive itself is a member. *)
Theorem archive_members (folder_path : string) (folder_type : option string)
    (w : state) (zip_path : string) :
  result (create_zip_archive folder_path folder_type) w = Ok (Some zip_path) →
  let w' := after (create_zip_archive folder_path folder_type) w in
  let file_of n := join2 (normpath folder_path) "" +:+ n in
  ∃ members,
    fs w' !! zip_path = Some (File (Zip members))
    ∧ (∀ n d, (n, d) ∈ members →
         file_of n = zip_path ∨ fs w !! file_of n = Some (File d))
    ∧ (∀ n d, file_of n ≠ zip_path → fs w !! file_of n = Some (File d) →
         (n, d) ∈ members).
Proof.
  intros Hres. cbv zeta. unfold result, after in *.
  destruct (stat (fs w) folder_path) as [nd|] eqn:Hst.
  2:{ rewrite (create_zip_archive_missing _ _ _ Hst) in Hres. discriminate. }
  rewrite create_zip_archive_run in * by (rewrite Hst; eauto).
  unfold try_except in *.
  set (zp := zip_path_of folder_path folder_type w) in *.
  unfold bind at 1 in Hres. unfold bind at 1.
  destruct (makedirs (dirname zp) (tick w)) as [[[]|e] w1] eqn:E1; [|discriminate].
  apply makedirs_ok in E1 as (t & [GF GD] & ->).
  unfold bind at 1 in Hres. unfold bind at 1.
  destruct (write_zip zp (normpath folder_path) _) as [[[]|e] w2] eqn:E2; [|discriminate].
  cbn in Hres. injection Hres as <-. cbn [snd].
  apply write_zip_members in E2 as (members & Hzip & Hmem).
  exists members. split; [exact Hzip|]. cbn [fs set_fs tick] in Hmem.
  split.
  - intros n d Hin. apply Hmem in Hin as (k & Hsw & -> & Hk).
    unfold relpath. rewrite <- (startswith_inv _ _ Hsw).
    destruct Hk as [[? _]|[_ Hk]]; [auto|]. right. apply GF, Hk.
  - intros n d Hne Hk. apply Hmem. eexists. split; [apply startswith_app|]. split.
    + unfold relpath. rewrite drop_app_length. reflexivity.
    + right. split; [assumption|]. apply GF, Hk.
Qed.

(** X17: whatever its outcome, [create_zip_archive] changes the file tree
    at the path of the archive only: every other path keeps its node or
    becomes a new directory, and no directory is removed or replaced. (The
    log file is not part of the modelled tree.) *)
Theorem create_zip_archive_writes_archive_only (folder_path : string)
    (folder_type : option string) (w : state) :
  let w' := after (create_zip_archive folder_path folder_type) w in
  (∀ p, p ≠ zip_path_of folder_path folder_type w →
     fs w' !! p = fs w !! p ∨ (fs w !! p = None ∧ fs w' !! p = Some Dir))
  ∧ (∀ p, fs w !! p = Some Dir → fs w' !! p = Some Dir).
Proof.
  cbv zeta.
  assert (frame (λ p, p ≠ zip_path_of folder_path folder_type w) (fs w)
            (fs (after (create_zip_archive folder_path folder_type) w))) as [K D];
    [|split; [exact K|exact D]].
  unfold after.
  destruct (stat (fs w) folder_path) as [nd|] eqn:Hst.
  2:{ rewrite (create_zip_archive_missing _ _ _ Hst). apply frame_refl. }
  rewrite create_zip_archive_run by (rewrite Hst; eauto).
  change (fs w) with (fs (tick w)) at 1.
  apply spares_try; [|intros; apply spares_ret].
  apply spares_bind; [apply spares_makedirs|intros _].
  apply spares_bind; [apply spares_write_zip|intros _].
  apply spares_bind; [apply spares_modify; reflexivity|intros _].
  apply spares_ret.
Qed.

Lemma path_unsafe_sub_no_sep (s : string) :
  no_sep (re_sub_class path_unsafe "_"%char s) = true.
Proof.
  unfold no_sep, re_sub_class.
  induction s as [|c s IH]; [reflexivity|]. cbn [str_map str_forall].
  rewrite IH, andb_true_r.
  destruct (path_unsafe c) eqn:E; [reflexivity|].
  apply negb_true_iff, bool_decide_eq_false. intros ->. discriminate E.
Qed.

Lemma strftime_zip_no_sep (d : datetime) : no_sep (strftime_zip d) = true.
Proof.
  unfold strftime_zip, pad4. rewrite !no_sep_app, !pad2_no_sep. reflexivity.
Qed.

Lemma zip_name_clean (folder_parts : list string) (folder_type : option string)
    (now : datetime) :
  no_sep (default "" folder_type) = true →
  clean_part (zip_name_of folder_parts folder_type now) = true.
Proof.
  intros Ht. unfold clean_part. apply andb_true_intro. split.
  - unfold zip_name_of. destruct (truthy folder_type) as [t|] eqn:E.
    + apply truthy_some in E as [-> _]. cbn [from_option id] in Ht.
      rewrite !no_sep_app, path_unsafe_sub_no_sep, strftime_zip_no_sep, Ht. reflexivity.
    + rewrite !no_sep_app, path_unsafe_sub_no_sep, strftime_zip_no_sep. reflexivity.
  - apply negb_true_iff, bool_decide_eq_false.
    unfold zip_name_of. destruct (truthy folder_type);
      intros Hin;
      repeat (apply elem_of_cons in Hin as [Hin|Hin]; [discriminate Hin|]);
      apply elem_of_nil in Hin; contradiction.
Qed.

Lemma join_abs_snoc (parts : list string) (x : string) :
  forallb clean_part parts = true → clean_part x = true →
  join (abs_path parts) [x] = abs_path (parts ++ [x]).
Proof.
  intros Hp Hx. rewrite <- !join_root_abs.
  - unfold join. rewrite foldl_app. reflexivity.
  - rewrite forallb_snoc, Hp, Hx. reflexivity.
  - assumption.
Qed.

(** X18: for a folder given by a normalised absolute path and a folder
    type without a slash, the archive is a file directly in the target
    directory: the directory part of its path is the target directory and
    the last part is the archive name, which begins with [backup_] and ends
    with [.zip]. *)
Theorem archive_in_target_dir (parts : list string) (folder_type : option string)
    (w : state) :
  forallb clean_part parts = true →
  no_sep (default "" folder_type) = true →
  let target := zip_target (abs_path parts) folder_type (clock w (ticks w)) in
  dirname (zip_path_of (abs_path parts) folder_type w) = fst target
  ∧ basename (zip_path_of (abs_path parts) folder_type w) = snd target
  ∧ startswith "backup_" (snd target) = true
  ∧ endswith ".zip" (snd target) = true.
Proof.
  intros Hp Ht. cbv zeta. unfold zip_path_of.
  set (now := clock w (ticks w)).
  pose proof (zip_name_clean (folder_parts_of (normpath (abs_path parts)))
                folder_type now Ht) as Hname.
  assert (∃ dir, forallb clean_part dir = true
                 ∧ fst (zip_target (abs_path parts) folder_type now) = abs_path dir)
    as (dir & Hdir & Hfst).
  { rewrite zip_target_abs, zip_dir_of_abs by assumption.
    destruct (find_index _ parts); [|destruct (bool_decide _)];
      eexists; (split; [|reflexivity]);
      auto using forallb_take, forallb_removelast. }
  change (snd (zip_target (abs_path parts) folder_type now))
    with (zip_name_of (folder_parts_of (normpath (abs_path parts))) folder_type now).
  set (name := zip_name_of _ _ _) in *.
  rewrite Hfst, join_abs_snoc by assumption.
  rewrite dirname_abs_snoc, basename_abs_snoc
    by (rewrite forallb_snoc, Hdir, Hname; reflexivity).
  split; [reflexivity|]. split; [reflexivity|].
  unfold name, zip_name_of. destruct (truthy folder_type); split;
    first [reflexivity | rewrite <- !app_assoc_str; apply endswith_app].
Qed.

(** ** The commands *)

Example strip_samples :
  map strip ["  42 "; "42"; ""; "   "; " a b "; String "009"%char ("7" +:+ String "010"%char "")]
  = ["42"; "42"; ""; ""; "a b"; "7"].
Proof. reflexivity. Qed.

Lemma rstrip_cons (a : ascii) (t : string) :
  rstrip (String a t)
  = match rstrip t with
    | EmptyString => if isspace a then EmptyString else String a EmptyString
    | t' => String a t'
    end.
Proof. reflexivity. Qed.

Lemma rstrip_idem (s : string) : rstrip (rstrip s) = rstrip s.
Proof.
  induction s as [|a s IH]; [reflexivity|]. rewrite rstrip_cons.
  destruct (rstrip s) as [|b t] eqn:E.
  - destruct (isspace a) eqn:Ea; [reflexivity|]. cbn [rstrip]. rewrite Ea. reflexivity.
  - rewrite rstrip_cons, IH. reflexivity.
Qed.

Lemma lstrip_rstrip (s : string) :
  match s with String c _ => isspace c = false | EmptyString => True end →
  lstrip (rstrip s) = rstrip s.
Proof.
  destruct s as [|c t]; [reflexivity|]. intros Hc. cbn [rstrip].
  destruct (rstrip t); [rewrite Hc|]; cbn [lstrip]; rewrite Hc; reflexivity.
Qed.

Lemma lstrip_head (s : string) :
  match lstrip s with String c _ => isspace c = false | EmptyString => True end.
Proof.
  induction s as [|c t IH]; [exact I|]. cbn [lstrip].
  destruct (isspace c) eqn:E; [exact IH|exact E].
Qed.

Lemma strip_idem (s : string) : strip (strip s) = strip s.
Proof.
  unfold strip. rewrite lstrip_rstrip by apply lstrip_head. apply rstrip_idem.
Qed.

Lemma same_task_write_text (p content : string) : same_task (write_text p content).
Proof.
  intros w. unfold write_text.
  repeat match goal with
         | |- context [match ?x with _ => _ end] => destruct x
         end; reflexivity.
Qed.

Lemma same_task_load_config : same_task _load_config.
Proof.
  unfold _load_config. apply same_task_try; [|intros; apply same_task_ret].
  apply same_task_bind; [apply same_task_gets|intros p].
  apply same_task_bind; [apply same_task_path_exists|intros ex].
  destruct ex; [|apply same_task_ret].
  intros w. destruct (stat (fs w) p) as [[[]|]|]; reflexivity.
Qed.

Lemma same_task_init (root : string) : same_task (FtpBackupManager_init root).
Proof.
  unfold FtpBackupManager_init.
  apply same_task_bind; [intros w; reflexivity|intros _].
  apply same_task_bind; [apply same_task_makedirs|intros _].
  apply same_task_bind; [apply same_task_makedirs|intros _].
  apply same_task_self_call, same_task_load_config.
Qed.

(** Whatever happens afterwards, a command leaves in the global what its
    first statements put there. *)
Lemma task_after_set {A} (t : option string) (m : M A) (h : exn → M A) (w : state) :
  same_task m → (∀ e, same_task (h e)) →
  CURRENT_TASK_NUMBER (after (try_except (modify (set_task t);;; m) h) w) = t.
Proof.
  intros Hm Hh. unfold after, try_except, bind, modify.
  specialize (Hm (set_task t w)).
  destruct (m (set_task t w)) as [[a|e] w1]; cbn [snd] in *; [exact Hm|].
  rewrite Hh. exact Hm.
Qed.

Lemma save_with_backup_task (file_path content : string) (task_number : option string)
    (w : state) :
  CURRENT_TASK_NUMBER (after (save_with_backup file_path task_number content) w)
  = stripped_task task_number.
Proof.
  unfold save_with_backup. apply task_after_set; [|intros; apply same_task_ret].
  apply same_task_bind; [apply same_task_init|intros _].
  apply same_task_bind; [apply same_task_backup_file|intros _].
  apply same_task_bind; [apply same_task_write_text|intros _].
  apply same_task_bind; [apply same_task_backup_file|intros _].
  apply same_task_ret.
Qed.

(** X19: each of the three commands leaves in [CURRENT_TASK_NUMBER] the
    task number it was given, stripped of surrounding white space ([None]
    for no or empty input), whatever happens afterwards: a backup that fails
    does not undo it. *)
Theorem commands_store_task (file_path content : string) (task_number : option string)
    (w : state) :
  CURRENT_TASK_NUMBER (after (save_with_backup file_path task_number content) w)
  = stripped_task task_number
  ∧ CURRENT_TASK_NUMBER (after (create_before_backup file_path task_number) w)
    = stripped_task task_number
  ∧ CURRENT_TASK_NUMBER (after (create_after_backup file_path task_number) w)
    = stripped_task task_number.
Proof.
  split; [apply save_with_backup_task|].
  split.
  - unfold create_before_backup. apply task_after_set; [|intros; apply same_task_ret].
    apply same_task_bind; [apply same_task_init|intros _].
    apply same_task_bind; [apply same_task_backup_file|intros _].
    apply same_task_ret.
  - unfold create_after_backup. apply task_after_set; [|intros; apply same_task_ret].
    apply same_task_bind; [apply same_task_init|intros _].
    apply same_task_bind; [apply same_task_backup_file|intros _].
    apply same_task_ret.
Qed.

(** X20: once a save has stored a task number that is not blank, the next
    save does not use the input panel: it runs with the stored number,
    whatever is typed, and the stored number stays. *)
Theorem task_number_sticks (file_path1 file_path2 input content1 content2 : string)
    (panel : option string) (w : state) :
  file_path1 ≠ "" → file_path2 ≠ "" →
  truthy (CURRENT_TASK_NUMBER w) = None →
  strip input ≠ "" →
  let w1 := after (FtpBackupSaveCommand_run content1 (Some file_path1) (Some input)) w in
  let w2 := after (FtpBackupSaveCommand_run content2 (Some file_path2) panel) w1 in
  CURRENT_TASK_NUMBER w1 = Some (strip input)
  ∧ w2 = after (save_with_backup file_path2 (Some (strip input)) content2) w1
  ∧ CURRENT_TASK_NUMBER w2 = Some (strip input).
Proof.
  intros Hf1 Hf2 Hnone Hinput. cbv zeta.
  assert (∀ f, f ≠ "" → truthy (Some f) = Some f) as Htr.
  { intros [|c f] H; [congruence|reflexivity]. }
  assert (input ≠ "") as Hin by (intros ->; apply Hinput; reflexivity).
  assert (CURRENT_TASK_NUMBER
            (after (FtpBackupSaveCommand_run content1 (Some file_path1) (Some input)) w)
          = Some (strip input)) as H1.
  { unfold FtpBackupSaveCommand_run. rewrite (Htr _ Hf1).
    unfold after, bind at 1, gets. rewrite Hnone.
    fold (after (save_with_backup file_path1 (Some input) content1) w).
    rewrite save_with_backup_task. unfold stripped_task. rewrite (Htr _ Hin).
    reflexivity. }
  split; [exact H1|].
  set (w1 := after (FtpBackupSaveCommand_run content1 (Some file_path1) (Some input)) w)
    in *.
  assert (after (FtpBackupSaveCommand_run content2 (Some file_path2) panel) w1
          = after (save_with_backup file_path2 (Some (strip input)) content2) w1) as ->.
  { unfold FtpBackupSaveCommand_run. rewrite (Htr _ Hf2).
    unfold after, bind at 1, gets. rewrite H1, (Htr _ Hinput). reflexivity. }
  split; [reflexivity|].
  rewrite save_with_backup_task. unfold stripped_task.
  rewrite (Htr _ Hinput), strip_idem. reflexivity.
Qed.

Lemma load_config_run (w : state) :
  _load_config w
  = (Ok tt,
     match stat (fs w) (config_path w) with
     | Some (File (Json m)) => set_map (λ _, m) w
     | _ => w
     end).
Proof.
  unfold _load_config, try_except, bind, path_exists, gets. cbn beta.
  destruct (stat (fs w) (config_path w)) as [[[]|]|] eqn:E.
  - rewrite bool_decide_eq_true_2 by eauto. rewrite E. reflexivity.
  - rewrite bool_decide_eq_true_2 by eauto. rewrite E. reflexivity.
  - rewrite bool_decide_eq_true_2 by eauto. rewrite E. reflexivity.
  - rewrite bool_decide_eq_true_2 by eauto. rewrite E. reflexivity.
  - rewrite bool_decide_eq_false_2; [reflexivity|]. intros [? ?]. discriminate.
Qed.

Lemma grow_loaded_manifest (root : string) (t t' : gmap string node) :
  grow t t' → loaded_manifest root t' = loaded_manifest root t.
Proof.
  intros G. unfold loaded_manifest.
  pose proof (λ x, grow_stat_file t t' (join root ["backup_config.json"]) x G) as H.
  destruct (stat t' (join root ["backup_config.json"])) as [[x|]|] eqn:E.
  - rewrite (proj1 (H x) eq_refl). reflexivity.
  - destruct (stat t (join root ["backup_config.json"])) as [[y|]|]; try reflexivity.
    specialize (proj2 (H y) eq_refl). discriminate.
  - destruct (stat t (join root ["backup_config.json"])) as [[y|]|]; try reflexivity.
    specialize (proj2 (H y) eq_refl). discriminate.
Qed.

(** X21: a manager that is constructed without error has the given root,
    the configuration path [<root>/backup_config.json], and as manifest the
    JSON content of that file, or the empty manifest when the file is
    missing, is a directory or does not hold JSON; the root and its [logs]
    folder exist. *)
Theorem fresh_manager (root : string) (w w' : state) :
  FtpBackupManager_init root w = (Ok tt, w') →
  backup_root w' = root
  ∧ config_path w' = join root ["backup_config.json"]
  ∧ server_backup_map w' = loaded_manifest root (fs w)
  ∧ stat (fs w') root = Some Dir
  ∧ stat (fs w') (join root ["logs"]) = Some Dir.
Proof.
  unfold FtpBackupManager_init. intros H.
  run_step H Hs. cbv [modify] in Hs. injection Hs as <-.
  run_step H Hs1. apply makedirs_dir in Hs1 as Hlogs.
  apply makedirs_ok in Hs1 as (t1 & G1 & ->).
  run_step H Hs2. apply makedirs_dir in Hs2 as Hroot.
  apply makedirs_ok in Hs2 as (t2 & G2 & ->).
  change (self_call "_load_config" _load_config) with _load_config in H.
  rewrite load_config_run in H. injection H as <-.
  cbn [fs set_fs config_path] in *.
  assert (grow (fs w) t2) as G by (eapply grow_trans; eassumption).
  rewrite <- (grow_loaded_manifest root _ _ G). unfold loaded_manifest.
  assert (stat t2 (join root ["logs"]) = Some Dir) as Hlogs'
    by exact (grow_stat_dir _ _ _ G2 Hlogs).
  unfold join in *. cbn [foldl] in *.
  destruct (stat t2 (join2 root "backup_config.json")) as [[[s|m|l]|]|];
    cbn; conjs; first [reflexivity | assumption].
Qed.

Lemma init_grow (root : string) (w w' : state) :
  FtpBackupManager_init root w = (Ok tt, w') → grow (fs w) (fs w').
Proof.
  unfold FtpBackupManager_init. intros H.
  run_step H Hs. cbv [modify] in Hs. injection Hs as <-.
  run_step H Hs1. apply makedirs_ok in Hs1 as (t1 & G1 & ->).
  run_step H Hs2. apply makedirs_ok in Hs2 as (t2 & G2 & ->).
  change (self_call "_load_config" _load_config) with _load_config in H.
  rewrite load_config_run in H. injection H as <-.
  cbn [fs set_fs] in *.
  assert (grow (fs w) t2) as G by (eapply grow_trans; eassumption).
  destruct (stat t2 _) as [[[s|m|l]|]|]; exact G.
Qed.

Lemma write_text_file (p content : string) (d : data) (w : state) :
  p ≠ "" → stat (fs w) p = Some (File d) →
  write_text p content w = (Ok tt, write_file p (Raw content) w).
Proof.
  intros Hp Hst. unfold write_text. rewrite bool_decide_eq_false_2 by assumption.
  rewrite Hst. reflexivity.
Qed.

(** X22: a save with backup whose manager is constructed and whose two
    calls get through their copies leaves the text of the view in the file
    and in the after slot, and the content the file had on disk before the
    save in the before slot (the before slot not being a directory nor the
    after slot); the task number stored is the stripped input. *)
Theorem save_with_backup_slots (file_path content : string)
    (task_number : option string) (w wi w1 w2 : state) (c1 c2 : backup_ctx)
    (d0 : data) :
  file_path ≠ "" →
  is_excluded file_path = false →
  stat (fs w) file_path = Some (File d0) →
  let task := stripped_task task_number in
  FtpBackupManager_init BACKUP_ROOT (set_task task w) = (Ok tt, wi) →
  backup_writes file_path None (Some "before") task wi = (Ok c1, w1) →
  let wmid := write_file file_path (Raw content) (touched c1 w1) in
  backup_writes file_path None (Some "after") task wmid = (Ok c2, w2) →
  let before_slot := join (before_path c1) [relative_path c1] in
  let after_slot := join (after_path c2) [relative_path c2] in
  stat (fs w1) before_slot ≠ Some Dir →
  before_slot ≠ after_slot →
  let wfin := after (save_with_backup file_path task_number content) w in
  fs wfin !! file_path = Some (File (Raw content))
  ∧ fs wfin !! before_slot = Some (File d0)
  ∧ fs wfin !! after_slot = Some (File (Raw content))
  ∧ CURRENT_TASK_NUMBER wfin = task.
Proof.
  intros Hne Hex Hf. cbv zeta. intros Hinit Hw1 Hw2 Hslot Hdiff.
  set (task := stripped_task task_number) in *.
  set (b := join (before_path c1) [relative_path c1]) in *.
  set (a := join (after_path c2) [relative_path c2]) in *.
  apply init_grow in Hinit as G0. cbn [fs set_task] in G0.
  assert (stat (fs wi) file_path = Some (File d0)) as Hfi.
  { apply (grow_stat_file _ _ file_path d0) in G0. apply G0, Hf. }
  destruct (before_writes_slot _ _ _ _ _ _ _ Hfi Hw1 Hslot) as (Hb & Hfb & Hf1).
  apply stat_file_lookup in Hf as [Hroot _].
  assert (stat (fs (touched c1 w1)) file_path = Some (File d0)) as Hft.
  { rewrite fs_touched. unfold stat. rewrite Hroot. exact Hf1. }
  assert (stat (fs (write_file file_path (Raw content) (touched c1 w1))) file_path
          = Some (File (Raw content))) as Hfm.
  { cbn [fs write_file set_fs]. unfold stat. rewrite Hroot. apply lookup_insert_eq. }
  destruct (after_writes_slot _ _ _ _ _ _ _ Hfm Hw2) as (Hfa & t & G & Hfs).
  fold a in Hfa, Hfs. cbn [fs write_file set_fs] in G. rewrite fs_touched in G.
  split; [|split; [|split]]; [..|apply save_with_backup_task].
  all: assert (after (save_with_backup file_path task_number content) w = touched c2 w2)
         as ->.
  1,3,5: unfold after, save_with_backup; fold task; unfold try_except;
    rewrite (bind_run _ _ w (set_task task w) tt) by reflexivity;
    rewrite (bind_run _ _ _ _ _ Hinit);
    rewrite (bind_run _ _ _ _ _
               (backup_file_after_writes _ _ _ _ _ _ _ Hex
                  (ex_intro _ _ Hfi) Hw1));
    rewrite (bind_run _ _ _ _ _ (write_text_file _ content _ _ Hne Hft));
    rewrite (bind_run _ _ _ _ _
               (backup_file_after_writes _ _ _ _ _ _ _ Hex
                  (ex_intro _ _ Hfm) Hw2));
    reflexivity.
  all: rewrite fs_touched, Hfs.
  - rewrite lookup_insert_ne by (intros E; apply Hfa; symmetry; exact E).
    apply G, lookup_insert_eq.
  - rewrite lookup_insert_ne by (intros E; apply Hdiff; symmetry; exact E).
    apply G. rewrite lookup_insert_ne by exact Hfb. exact Hb.
  - apply lookup_insert_eq.
Qed.

(** ** The further properties on the examples *)

Lemma relative_path_after_marker_witness :
  (existsb (λ r, str_in r (normalized "/srv/www/shop/cart.php")) ["var\www\"] = false
   ∧ str_in "www\" (normalized "/srv/www/shop/cart.php") = true)
  ∧ ∃ pre rest,
      normalized "/srv/www/shop/cart.php" = pre +:+ "www\" +:+ rest
      ∧ (∀ pre' rest', normalized "/srv/www/shop/cart.php" = pre' +:+ "www\" +:+ rest' →
           String.length pre ≤ String.length pre')
      ∧ _extract_relative_path (["var\www\"] ++ "www\" :: ["public_html\"])
          "/srv/www/shop/cart.php"
        = replace_chr "\"%char "/"%char rest
      ∧ lacks "\"%char
          (_extract_relative_path (["var\www\"] ++ "www\" :: ["public_html\"])
             "/srv/www/shop/cart.php") = true.
Proof.
  split; [conjs; reflexivity|].
  apply (relative_path_after_marker ["var\www\"] ["public_html\"] "www\"
           "/srv/www/shop/cart.php"); reflexivity.
Defined.

Lemma relative_path_fallback_witness :
  (existsb (λ r, str_in r (normalized "/etc/hosts")) site_markers = false
   ∧ str_in "Temp\" (normalized "/etc/hosts") = false)
  ∧ _extract_relative_path site_markers "/etc/hosts" = basename "/etc/hosts".
Proof.
  split; [conjs; reflexivity|].
  apply (relative_path_fallback site_markers "/etc/hosts"); reflexivity.
Defined.

Lemma site_after_leftmost_marker_witness :
  (normalized "/srv/ftp/public_html/shop/cart.php"
   = "\srv\ftp\" +:+ "public_html\" +:+ "shop" +:+ "\cart.php"
   ∧ starts_none site_markers (String.length "\srv\ftp\")
       (normalized "/srv/ftp/public_html/shop/cart.php") = true
   ∧ lacks "\"%char "shop" = true)
  ∧ extract_site_name "/srv/ftp/public_html/shop/cart.php" acme_world
    = (Ok "shop", acme_world).
Proof.
  split; [conjs; reflexivity|].
  apply (site_after_leftmost_marker "/srv/ftp/public_html/shop/cart.php"
           "\srv\ftp\" "public_html\" "shop" "\cart.php" acme_world);
    [reflexivity|by_eval|reflexivity|discriminate|reflexivity|left; reflexivity].
Defined.

Lemma relative_path_after_temp_folder_witness :
  (normalized "C:\Users\me\AppData\Local\Temp\ftp1\site\a.php"
   = "C:\Users\me\AppData\Local\" +:+ "Temp\" +:+ "ftp1" +:+ "\" +:+ "site\a.php"
   ∧ existsb (λ r, str_in r (normalized "C:\Users\me\AppData\Local\Temp\ftp1\site\a.php"))
       site_markers = false
   ∧ starts_none ["Temp\"] (String.length "C:\Users\me\AppData\Local\")
       (normalized "C:\Users\me\AppData\Local\Temp\ftp1\site\a.php") = true)
  ∧ _extract_relative_path site_markers "C:\Users\me\AppData\Local\Temp\ftp1\site\a.php"
    = replace_chr "\"%char "/"%char "site\a.php".
Proof.
  split; [conjs; reflexivity|].
  apply (relative_path_after_temp_folder site_markers
           "C:\Users\me\AppData\Local\Temp\ftp1\site\a.php"
           "C:\Users\me\AppData\Local\" "ftp1" "site\a.php");
    first [reflexivity | discriminate].
Defined.

Lemma backup_file_writes_slots_only_witness :
  fs (save None acme_world) !! "/var/www/acme" = fs acme_world !! "/var/www/acme"
  ∨ (fs acme_world !! "/var/www/acme" = None
     ∧ fs (save None acme_world) !! "/var/www/acme" = Some Dir).
Proof.
  destruct (backup_file_writes_slots_only acme_file None None (Some "42") acme_world)
    as [K _].
  apply K; right; conjs; by_eval.
Defined.

Lemma backup_file_keeps_source_witness :
  fs acme_world !! acme_file = Some (File (Raw "<?php v1"))
  ∧ acme_file ≠ slot_of "after" acme_file None (Some "42") acme_world
  ∧ fs (after (backup_file acme_file None None (Some "42")) acme_world) !! acme_file
    = Some (File (Raw "<?php v1")).
Proof.
  split; [by_eval|]. split; [by_eval|].
  apply (backup_file_keeps_source acme_file None None (Some "42") acme_world);
    [by_eval|right; by_eval].
Defined.

Lemma backup_file_skips_witness :
  existsb (λ ext, str_in ext "/var/www/acme/.DS_Store")
    [".sublime-commands"; ".DS_Store"; "Thumbs.db"] = true
  ∧ backup_file "/var/www/acme/.DS_Store" None None (Some "42") acme_world
    = (Ok (None, None), acme_world).
Proof.
  split; [reflexivity|].
  apply (backup_file_skips "/var/www/acme/.DS_Store" None None (Some "42") acme_world).
  left. reflexivity.
Defined.

Lemma slot_directories_made_witness :
  (is_excluded acme_file = false
   ∧ is_Some (stat (fs acme_world) acme_file)
   ∧ backup_writes acme_file None (Some "after") (Some "42") acme_world
     = (Ok acme_ctx, writes (Some "after") acme_world))
  ∧ stat (fs (after (backup_file acme_file None (Some "after") (Some "42")) acme_world))
      (join (task_folder_of (resolve_site acme_file None acme_world) (Some "42")
               (clock acme_world (ticks acme_world)) (backup_root acme_world))
         ["before"]) = Some Dir
  ∧ stat (fs (after (backup_file acme_file None (Some "after") (Some "42")) acme_world))
      (join (task_folder_of (resolve_site acme_file None acme_world) (Some "42")
               (clock acme_world (ticks acme_world)) (backup_root acme_world))
         ["after"]) = Some Dir.
Proof.
  split; [conjs; by_eval|].
  apply (slot_directories_made acme_file None (Some "after") (Some "42") acme_world
           (writes (Some "after") acme_world) acme_ctx); by_eval.
Defined.

Lemma after_mode_on_own_slot_deletes_witness :
  (is_excluded own_slot = false
   ∧ stat (fs own_slot_world) own_slot = Some (File (Raw "draft"))
   ∧ own_slot = slot_of "after" own_slot None None own_slot_world
   ∧ backup_dirs own_slot None None own_slot_world
     = (Ok own_slot_ctx, after (backup_dirs own_slot None None) own_slot_world)
   ∧ makedirs (dirname own_slot) (after (backup_dirs own_slot None None) own_slot_world)
     = (Ok tt,
        after (makedirs (dirname own_slot))
          (after (backup_dirs own_slot None None) own_slot_world)))
  ∧ fs (after (backup_file own_slot None (Some "after") None) own_slot_world)
      !! own_slot = None.
Proof.
  split; [conjs; by_eval|].
  apply (after_mode_on_own_slot_deletes own_slot None None own_slot_world
           (after (backup_dirs own_slot None None) own_slot_world)
           (after (makedirs (dirname own_slot))
              (after (backup_dirs own_slot None None) own_slot_world))
           own_slot_ctx (Raw "draft")); by_eval.
Defined.

Lemma after_mode_overwrites_slot_witness :
  (is_excluded acme_file = false
   ∧ stat (fs acme_edited) acme_file = Some (File (Raw "<?php v2"))
   ∧ backup_writes acme_file None (Some "after") (Some "42") acme_edited
     = (Ok acme_ctx, writes (Some "after") acme_edited))
  ∧ fs acme_edited !! acme_after_slot = Some (File (Raw "<?php v1"))
  ∧ fs (after (backup_file acme_file None (Some "after") (Some "42")) acme_edited)
      !! slot_of "after" acme_file None (Some "42") acme_edited
    = Some (File (Raw "<?php v2"))
  ∧ fs (after (backup_file acme_file None (Some "after") (Some "42")) acme_edited)
      !! acme_file = Some (File (Raw "<?php v2"))
  ∧ acme_file ≠ slot_of "after" acme_file None (Some "42") acme_edited.
Proof.
  split; [conjs; by_eval|]. split; [by_eval|].
  apply (after_mode_overwrites_slot acme_file None (Some "42") acme_edited
           (writes (Some "after") acme_edited) acme_ctx (Raw "<?php v2")); by_eval.
Defined.

Lemma default_mode_keeps_before_copy_witness :
  server_backup_map acme_edited !! _extract_relative_path (project_roots acme_edited) acme_file
  = Some acme_entry
  ∧ fs acme_edited !! acme_before_slot = Some (File (Raw "<?php v1"))
  ∧ (fs (after (backup_file acme_file None None (Some "42")) acme_edited)
       !! acme_before_slot
     = fs acme_edited !! acme_before_slot
     ∨ (fs acme_edited !! acme_before_slot = None
        ∧ fs (after (backup_file acme_file None None (Some "42")) acme_edited)
            !! acme_before_slot = Some Dir)).
Proof.
  split; [by_eval|]. split; [by_eval|].
  apply (default_mode_keeps_before_copy acme_file None None (Some "42") acme_edited
           acme_entry); [discriminate|discriminate|by_eval|by_eval].
Defined.

Lemma slot_layout_witness :
  slot_of "before" acme_file None (Some "42") acme_world
  = backup_root acme_world +:+ "/"
    +:+ server_key_of (resolve_site acme_file None acme_world) +:+ "/"
    +:+ strftime_month_year (clock acme_world (ticks acme_world))
    +:+ task_part (Some "42") +:+ "/" +:+ "before" +:+ "/"
    +:+ _extract_relative_path (project_roots acme_world) acme_file.
Proof.
  apply (slot_layout "before" acme_file None (Some "42") acme_world);
    [left; reflexivity|by_eval..].
Defined.

Lemma create_zip_archive_outcomes_witness :
  stat (fs acme_world) "/backup/acme/June 2026" = None
  ∧ create_zip_archive "/backup/acme/June 2026" None acme_world = (Ok None, acme_world).
Proof.
  split; [by_eval|].
  destruct (create_zip_archive_outcomes "/backup/acme/June 2026" None acme_world)
    as [H _].
  apply H. by_eval.
Defined.

Lemma archive_members_witness :
  result (create_zip_archive (acme_task_dir +:+ "/before") (Some "before"))
    (save None acme_world) = Ok (Some acme_before_zip)
  ∧ ∃ members,
      fs (after (create_zip_archive (acme_task_dir +:+ "/before") (Some "before"))
            (save None acme_world)) !! acme_before_zip
      = Some (File (Zip members))
      ∧ (∀ n d, (n, d) ∈ members →
           join2 (normpath (acme_task_dir +:+ "/before")) "" +:+ n = acme_before_zip
           ∨ fs (save None acme_world)
               !! (join2 (normpath (acme_task_dir +:+ "/before")) "" +:+ n)
             = Some (File d))
      ∧ (∀ n d,
           join2 (normpath (acme_task_dir +:+ "/before")) "" +:+ n ≠ acme_before_zip →
           fs (save None acme_world)
             !! (join2 (normpath (acme_task_dir +:+ "/before")) "" +:+ n)
           = Some (File d) →
           (n, d) ∈ members).
Proof.
  split; [by_eval|].
  apply (archive_members (acme_task_dir +:+ "/before") (Some "before")
           (save None acme_world) acme_before_zip).
  by_eval.
Defined.

Lemma create_zip_archive_writes_archive_only_witness :
  fs (after (create_zip_archive (acme_task_dir +:+ "/before") (Some "before"))
        (save None acme_world)) !! acme_before_slot
  = fs (save None acme_world) !! acme_before_slot
  ∨ (fs (save None acme_world) !! acme_before_slot = None
     ∧ fs (after (create_zip_archive (acme_task_dir +:+ "/before") (Some "before"))
             (save None acme_world)) !! acme_before_slot = Some Dir).
Proof.
  destruct (create_zip_archive_writes_archive_only (acme_task_dir +:+ "/before")
              (Some "before") (save None acme_world)) as [K _].
  apply K. by_eval.
Defined.

Lemma archive_in_target_dir_witness :
  (forallb clean_part ["backup"; "acme"; "November 2026"; "task_42"; "before"] = true
   ∧ no_sep (default "" (Some "before")) = true)
  ∧ dirname (zip_path_of
               (abs_path ["backup"; "acme"; "November 2026"; "task_42"; "before"])
               (Some "before") acme_world)
    = fst (zip_target (abs_path ["backup"; "acme"; "November 2026"; "task_42"; "before"])
             (Some "before") (clock acme_world (ticks acme_world)))
  ∧ basename (zip_path_of
                (abs_path ["backup"; "acme"; "November 2026"; "task_42"; "before"])
                (Some "before") acme_world)
    = snd (zip_target (abs_path ["backup"; "acme"; "November 2026"; "task_42"; "before"])
             (Some "before") (clock acme_world (ticks acme_world)))
  ∧ startswith "backup_"
      (snd (zip_target (abs_path ["backup"; "acme"; "November 2026"; "task_42"; "before"])
              (Some "before") (clock acme_world (ticks acme_world)))) = true
  ∧ endswith ".zip"
      (snd (zip_target (abs_path ["backup"; "acme"; "November 2026"; "task_42"; "before"])
              (Some "before") (clock acme_world (ticks acme_world)))) = true.
Proof.
  split; [conjs; reflexivity|].
  apply (archive_in_target_dir ["backup"; "acme"; "November 2026"; "task_42"; "before"]
           (Some "before") acme_world); reflexivity.
Defined.

Lemma task_number_sticks_witness :
  (truthy (CURRENT_TASK_NUMBER acme_bare) = None ∧ strip " 42 " = "42")
  ∧ CURRENT_TASK_NUMBER
      (after (FtpBackupSaveCommand_run "<?php v2" (Some acme_file) (Some " 42 "))
         acme_bare)
    = Some (strip " 42 ")
  ∧ after (FtpBackupSaveCommand_run "<?php v3" (Some acme_file) (Some "43"))
      (after (FtpBackupSaveCommand_run "<?php v2" (Some acme_file) (Some " 42 "))
         acme_bare)
    = after (save_with_backup acme_file (Some (strip " 42 ")) "<?php v3")
        (after (FtpBackupSaveCommand_run "<?php v2" (Some acme_file) (Some " 42 "))
           acme_bare)
  ∧ CURRENT_TASK_NUMBER
      (after (FtpBackupSaveCommand_run "<?php v3" (Some acme_file) (Some "43"))
         (after (FtpBackupSaveCommand_run "<?php v2" (Some acme_file) (Some " 42 "))
            acme_bare))
    = Some (strip " 42 ").
Proof.
  split; [conjs; reflexivity|].
  apply (task_number_sticks acme_file acme_file " 42 " "<?php v2" "<?php v3"
           (Some "43") acme_bare);
    [discriminate|discriminate|reflexivity|discriminate].
Defined.

Lemma fresh_manager_witness :
  FtpBackupManager_init "/backup" (set_task (Some "42") acme_bare)
  = (Ok tt, after (FtpBackupManager_init "/backup") (set_task (Some "42") acme_bare))
  ∧ backup_root
      (after (FtpBackupManager_init "/backup") (set_task (Some "42") acme_bare))
    = "/backup"
  ∧ config_path
      (after (FtpBackupManager_init "/backup") (set_task (Some "42") acme_bare))
    = join "/backup" ["backup_config.json"]
  ∧ server_backup_map
      (after (FtpBackupManager_init "/backup") (set_task (Some "42") acme_bare))
    = loaded_manifest "/backup" (fs (set_task (Some "42") acme_bare))
  ∧ stat (fs (after (FtpBackupManager_init "/backup") (set_task (Some "42") acme_bare)))
      "/backup" = Some Dir
  ∧ stat (fs (after (FtpBackupManager_init "/backup") (set_task (Some "42") acme_bare)))
      (join "/backup" ["logs"]) = Some Dir.
Proof.
  split; [by_eval|].
  apply (fresh_manager "/backup" (set_task (Some "42") acme_bare)).
  by_eval.
Defined.

Lemma save_with_backup_slots_witness :
  (is_excluded acme_file = false
   ∧ stat (fs acme_bare) acme_file = Some (File (Raw "<?php v1"))
   ∧ FtpBackupManager_init BACKUP_ROOT (set_task (stripped_task (Some " 42 ")) acme_bare)
     = (Ok tt, desk_world)
   ∧ backup_writes acme_file None (Some "before") (stripped_task (Some " 42 ")) desk_world
     = (Ok desk_ctx, desk_before)
   ∧ backup_writes acme_file None (Some "after") (stripped_task (Some " 42 "))
       (write_file acme_file (Raw "<?php v2") (touched desk_ctx desk_before))
     = (Ok desk_ctx, desk_after)
   ∧ stat (fs desk_before) (join (before_path desk_ctx) [relative_path desk_ctx])
     ≠ Some Dir
   ∧ join (before_path desk_ctx) [relative_path desk_ctx]
     ≠ join (after_path desk_ctx) [relative_path desk_ctx])
  ∧ fs (after (save_with_backup acme_file (Some " 42 ") "<?php v2") acme_bare)
      !! acme_file = Some (File (Raw "<?php v2"))
  ∧ fs (after (save_with_backup acme_file (Some " 42 ") "<?php v2") acme_bare)
      !! join (before_path desk_ctx) [relative_path desk_ctx]
    = Some (File (Raw "<?php v1"))
  ∧ fs (after (save_with_backup acme_file (Some " 42 ") "<?php v2") acme_bare)
      !! join (after_path desk_ctx) [relative_path desk_ctx]
    = Some (File (Raw "<?php v2"))
  ∧ CURRENT_TASK_NUMBER
      (after (save_with_backup acme_file (Some " 42 ") "<?php v2") acme_bare)
    = stripped_task (Some " 42 ").
Proof.
  split; [conjs; by_eval|].
  apply (save_with_backup_slots acme_file "<?php v2" (Some " 42 ") acme_bare
           desk_world desk_before desk_after desk_ctx desk_ctx (Raw "<?php v1"));
    [discriminate|by_eval..].
Defined.
